(** * problemtools.gendata: manifest-driven test data generation

    A shallow embedding of [src/problemtools/gendata.py] (the classes
    [Problem] and [GeneratorManifest] and the module-level helpers) and the
    properties of it that the specification states.

    Conventions of the embedding.
    - Python [str] values are [string]s, sequences of bytes; the manifest
      is taken as UTF-8 text, so [command.encode('utf-8')] is the identity
      on the byte sequence.
    - Values loaded from YAML are the type [yaml].  A dictionary is the
      list of its items in insertion order, since the code iterates over
      [items()] and the order shows in what it does.  Such a list can hold
      a key twice, which a Python [dict] cannot; a property that needs
      distinct keys says so ([dict_wf], [keys_distinct]).
    - The file system is a finite map from absolute, normalised path
      strings to nodes (a file with its bytes, or a directory), together
      with the working directory of the process.
    - Code with effects lives in the state-and-exception monad [M]; the
      state holds the file system, the generator cache, the log of
      generator runs and the warnings.
    - [hashlib.sha512], [shlex.split] and the functions of [os.path] are
      embedded as functions; [yaml.load], [yaml.dump] and the program
      runner of the package (module [run]) are parameters, collected in
      [Collaborators].
    - Loops that Python leaves unbounded take a fuel argument.

    The file has the library models first, then the embedding of the
    source, the notions of the specification, and the properties. *)

From Stdlib Require Import ZArith List String Ascii Lia Bool.
From stdpp Require Import base option list gmap strings pretty fin_maps.

Local Open Scope string_scope.
Local Open Scope Z_scope.
#[local] Set Warnings "-clear-no-such-hyp".

(* ===================================================================== *)
(** ** Python string operations used by the source *)
(* ===================================================================== *)

Module Py.

Definition len (s : string) : nat := String.length s.

(** [s.startswith(p)] *)
Definition startswith (s p : string) : bool := String.prefix p s.

(** [s.endswith(p)] *)
Definition endswith (s p : string) : bool :=
  (len p <=? len s)%nat
  && String.eqb (substring (len s - len p) (len p) s) p.

(** [s[:stop]] for an integer [stop], negative values counting from the
    end and the result clamped to the string, as Python slices do.  Note
    that [s[:-0]] is [s[:0]], the empty string. *)
Definition slice_upto (s : string) (stop : Z) : string :=
  let n := Z.of_nat (len s) in
  let stop' := if stop <? 0 then Z.max 0 (stop + n) else Z.min stop n in
  substring 0 (Z.to_nat stop') s.

(** [c in s] for a single character [c] *)
Fixpoint contains (c : ascii) (s : string) : bool :=
  match s with
  | EmptyString => false
  | String a s' => Ascii.eqb a c || contains c s'
  end.

(** [s.split(c)] for a single-character separator: never empty. *)
Fixpoint split_aux (c : ascii) (cur : string) (s : string) : list string :=
  match s with
  | EmptyString => [String.rev cur]
  | String a s' =>
      if Ascii.eqb a c then String.rev cur :: split_aux c EmptyString s'
      else split_aux c (String a cur) s'
  end.

Definition split (c : ascii) (s : string) : list string :=
  split_aux c EmptyString s.

(** [l[-1]] on a list of strings (the lists it is used on are never
    empty; the default stands for the [IndexError]). *)
Definition last_item (l : list string) : string := List.last l "".

(** [str(n)] for an integer. *)
Definition str_of_Z (n : Z) : string := pretty n.

End Py.

(* ===================================================================== *)
(** ** [os.path] (posixpath) *)
(* ===================================================================== *)

Module OsPath.

Definition slash : ascii := "/"%char.

(** [os.path.join(a, b)] *)
Definition join (a b : string) : string :=
  if Py.startswith b "/" then b
  else if String.eqb a "" || Py.endswith a "/" then a ++ b
  else a ++ "/" ++ b.

Fixpoint all_slashes (s : string) : bool :=
  match s with
  | EmptyString => true
  | String a s' => Ascii.eqb a slash && all_slashes s'
  end.

(** [s.rstrip('/')], on the reversed string *)
Fixpoint lstrip_slashes (s : string) : string :=
  match s with
  | String a s' => if Ascii.eqb a slash then lstrip_slashes s' else s
  | EmptyString => EmptyString
  end.

(** splits the reversed path at its first slash: (reversed tail,
    reversed head, the head keeping the slash) *)
Fixpoint cut_rev (r : string) (tl : string) : string * string :=
  match r with
  | EmptyString => (tl, EmptyString)
  | String a r' =>
      if Ascii.eqb a slash then (tl, r) else cut_rev r' (String a tl)
  end.

(** [os.path.split(p)]: [head, tail = p[:i], p[i:]] with
    [i = p.rfind('/') + 1]; a head that is not all slashes loses its
    trailing slashes. *)
Definition split (p : string) : string * string :=
  let '(tl, rhead) := cut_rev (String.rev p) EmptyString in
  let head := String.rev rhead in
  let head' :=
    if negb (String.eqb head "") && negb (all_slashes head)
    then String.rev (lstrip_slashes rhead) else head in
  (head', tl).

Definition dirname (p : string) : string := fst (split p).
Definition basename (p : string) : string := snd (split p).

End OsPath.

(* ===================================================================== *)
(** ** [hashlib.sha512] (FIPS 180-4), on 64-bit words carried in [Z] *)
(* ===================================================================== *)

Module Sha512.

Definition w64 (x : Z) : Z := x mod 2 ^ 64.
Definition add64 (a b : Z) : Z := w64 (a + b).
Definition rotr (n x : Z) : Z :=
  Z.lor (Z.shiftr x n) (w64 (Z.shiftl x (64 - n))).
Definition shr (n x : Z) : Z := Z.shiftr x n.

Definition Ch (x y z : Z) : Z :=
  Z.lxor (Z.land x y) (Z.land (w64 (Z.lnot x)) z).
Definition Maj (x y z : Z) : Z :=
  Z.lxor (Z.lxor (Z.land x y) (Z.land x z)) (Z.land y z).
Definition Sigma0 (x : Z) : Z :=
  Z.lxor (Z.lxor (rotr 28 x) (rotr 34 x)) (rotr 39 x).
Definition Sigma1 (x : Z) : Z :=
  Z.lxor (Z.lxor (rotr 14 x) (rotr 18 x)) (rotr 41 x).
Definition sigma0 (x : Z) : Z :=
  Z.lxor (Z.lxor (rotr 1 x) (rotr 8 x)) (shr 7 x).
Definition sigma1 (x : Z) : Z :=
  Z.lxor (Z.lxor (rotr 19 x) (rotr 61 x)) (shr 6 x).

Definition K : list Z :=
  [ 0x428a2f98d728ae22; 0x7137449123ef65cd; 0xb5c0fbcfec4d3b2f; 0xe9b5dba58189dbbc;
    0x3956c25bf348b538; 0x59f111f1b605d019; 0x923f82a4af194f9b; 0xab1c5ed5da6d8118;
    0xd807aa98a3030242; 0x12835b0145706fbe; 0x243185be4ee4b28c; 0x550c7dc3d5ffb4e2;
    0x72be5d74f27b896f; 0x80deb1fe3b1696b1; 0x9bdc06a725c71235; 0xc19bf174cf692694;
    0xe49b69c19ef14ad2; 0xefbe4786384f25e3; 0x0fc19dc68b8cd5b5; 0x240ca1cc77ac9c65;
    0x2de92c6f592b0275; 0x4a7484aa6ea6e483; 0x5cb0a9dcbd41fbd4; 0x76f988da831153b5;
    0x983e5152ee66dfab; 0xa831c66d2db43210; 0xb00327c898fb213f; 0xbf597fc7beef0ee4;
    0xc6e00bf33da88fc2; 0xd5a79147930aa725; 0x06ca6351e003826f; 0x142929670a0e6e70;
    0x27b70a8546d22ffc; 0x2e1b21385c26c926; 0x4d2c6dfc5ac42aed; 0x53380d139d95b3df;
    0x650a73548baf63de; 0x766a0abb3c77b2a8; 0x81c2c92e47edaee6; 0x92722c851482353b;
    0xa2bfe8a14cf10364; 0xa81a664bbc423001; 0xc24b8b70d0f89791; 0xc76c51a30654be30;
    0xd192e819d6ef5218; 0xd69906245565a910; 0xf40e35855771202a; 0x106aa07032bbd1b8;
    0x19a4c116b8d2d0c8; 0x1e376c085141ab53; 0x2748774cdf8eeb99; 0x34b0bcb5e19b48a8;
    0x391c0cb3c5c95a63; 0x4ed8aa4ae3418acb; 0x5b9cca4f7763e373; 0x682e6ff3d6b2b8a3;
    0x748f82ee5defb2fc; 0x78a5636f43172f60; 0x84c87814a1f0ab72; 0x8cc702081a6439ec;
    0x90befffa23631e28; 0xa4506cebde82bde9; 0xbef9a3f7b2c67915; 0xc67178f2e372532b;
    0xca273eceea26619c; 0xd186b8c721c0c207; 0xeada7dd6cde0eb1e; 0xf57d4f7fee6ed178;
    0x06f067aa72176fba; 0x0a637dc5a2c898a6; 0x113f9804bef90dae; 0x1b710b35131c471b;
    0x28db77f523047d84; 0x32caab7b40c72493; 0x3c9ebe0a15c9bebc; 0x431d67c49c100d4c;
    0x4cc5d4becb3e42b6; 0x597f299cfc657e2a; 0x5fcb6fab3ad6faec; 0x6c44198c4a475817 ].

Definition H0 : list Z :=
  [ 0x6a09e667f3bcc908; 0xbb67ae8584caa73b; 0x3c6ef372fe94f82b; 0xa54ff53a5f1d36f1;
    0x510e527fade682d1; 0x9b05688c2b3e6c1f; 0x1f83d9abfb41bd6b; 0x5be0cd19137e2179 ].

Definition bytes_of (s : string) : list Z :=
  List.map (fun c => Z.of_N (N_of_ascii c)) (list_ascii_of_string s).

(** big-endian integer of a byte list *)
Definition be (bs : list Z) : Z :=
  List.fold_left (fun acc b => acc * 256 + b) bs 0.

(** [n] as [k] big-endian bytes *)
Fixpoint be_bytes (k : nat) (n : Z) : list Z :=
  match k with
  | O => []
  | S k' => be_bytes k' (n / 256) ++ [n mod 256]
  end.

Definition pad (msg : list Z) : list Z :=
  let l := Z.of_nat (List.length msg) in
  msg ++ [128] ++ List.repeat 0 (Z.to_nat ((111 - l) mod 128))
      ++ be_bytes 16 (8 * l).

(** cuts a list into pieces of [n] elements; [fuel] bounds the number of
    pieces *)
Fixpoint chunks {A} (fuel n : nat) (l : list A) : list (list A) :=
  match fuel, l with
  | O, _ | _, [] => []
  | S fuel', _ => List.firstn n l :: chunks fuel' n (List.skipn n l)
  end.

Definition words (block : list Z) : list Z :=
  List.map be (chunks 16 8 block).

(** the message schedule, most recent word first *)
Fixpoint schedule (n : nat) (wrev : list Z) : list Z :=
  match n with
  | O => wrev
  | S n' =>
      let w := add64 (add64 (sigma1 (List.nth 1 wrev 0)) (List.nth 6 wrev 0))
                     (add64 (sigma0 (List.nth 14 wrev 0)) (List.nth 15 wrev 0)) in
      schedule n' (w :: wrev)
  end.

Definition round (st : list Z) (kw : Z * Z) : list Z :=
  match st with
  | [a; b; c; d; e; f; g; h] =>
      let t1 := add64 (add64 (add64 h (Sigma1 e)) (add64 (Ch e f g) (fst kw)))
                      (snd kw) in
      let t2 := add64 (Sigma0 a) (Maj a b c) in
      [add64 t1 t2; a; b; c; add64 d t1; e; f; g]
  | _ => st
  end.

Definition compress (h : list Z) (block : list Z) : list Z :=
  let w := List.rev (schedule 64 (List.rev (words block))) in
  let st := List.fold_left round (List.combine K w) h in
  List.map (fun p => add64 (fst p) (snd p)) (List.combine h st).

Definition digest_words (msg : string) : list Z :=
  let p := pad (bytes_of msg) in
  List.fold_left compress (chunks (List.length p) 128 p) H0.

(** the 64-byte digest *)
Definition digest (msg : string) : list Z :=
  List.concat (List.map (be_bytes 8) (digest_words msg)).

Definition hex_digit (d : Z) : ascii :=
  List.nth (Z.to_nat d) (list_ascii_of_string "0123456789abcdef") "0"%char.

(** [hashlib.sha512(msg).hexdigest()] *)
Definition hexdigest (msg : string) : string :=
  string_of_list_ascii
    (List.concat
       (List.map (fun b => [hex_digit (b / 16); hex_digit (b mod 16)])
                 (digest msg))).

End Sha512.

(** [int(s, 16)] on a string of hexadecimal digits *)
Definition hex_value (c : ascii) : Z :=
  let n := Z.of_N (N_of_ascii c) in
  if (48 <=? n) && (n <=? 57) then n - 48
  else if (97 <=? n) && (n <=? 102) then n - 87
  else if (65 <=? n) && (n <=? 70) then n - 55
  else 0.

Definition int_of_hex (s : string) : Z :=
  List.fold_left (fun acc c => acc * 16 + hex_value c)
                 (list_ascii_of_string s) 0.


(* ===================================================================== *)
(** ** [shlex.split] (POSIX mode, no comments, split on whitespace only) *)
(* ===================================================================== *)

Module Shlex.

(** the lexer's [state]: [' '], ['a'], a quote character, or the escape
    character *)
Inductive lstate :=
| LWhite
| LWord
| LQuote (q : ascii)
| LEscape (e : ascii).

Definition is_whitespace (c : ascii) : bool :=
  Ascii.eqb c " "%char || Ascii.eqb c "009"%char
  || Ascii.eqb c "013"%char || Ascii.eqb c "010"%char.
Definition is_quote (c : ascii) : bool :=
  Ascii.eqb c "039"%char || Ascii.eqb c "034"%char.
Definition is_escape (c : ascii) : bool := Ascii.eqb c "\"%char.
Definition in_escapedquotes (c : ascii) : bool := Ascii.eqb c "034"%char.

Definition push (token : string) (c : ascii) : string :=
  token ++ String c EmptyString.

(** One pass over the input that plays the successive [read_token]
    calls: [out] collects the tokens returned so far (latest first),
    [token], [quoted] and [escst] are the fields and locals of the
    current call, which are reset whenever a token is returned.
    [None] stands for the [ValueError] of an unterminated quotation or
    escape. *)
Fixpoint lex (input : list ascii) (st escst : lstate) (token : string)
         (quoted : bool) (out : list string) : option (list string) :=
  match input with
  | [] =>
      match st with
      | LWhite | LWord =>
          if negb (String.eqb token "") || quoted
          then Some (List.rev (token :: out)) else Some (List.rev out)
      | LQuote _ | LEscape _ => None
      end
  | c :: rest =>
      match st with
      | LWhite =>
          if is_whitespace c then
            if negb (String.eqb token "") || quoted
            then lex rest LWhite LWhite "" false (token :: out)
            else lex rest LWhite escst token quoted out
          else if is_escape c then lex rest (LEscape c) LWord token quoted out
          else if is_quote c then lex rest (LQuote c) escst token quoted out
          else lex rest LWord escst (String c EmptyString) quoted out
      | LQuote q =>
          if Ascii.eqb c q then lex rest LWord escst token true out
          else if is_escape c && in_escapedquotes q
               then lex rest (LEscape c) (LQuote q) token true out
          else lex rest (LQuote q) escst (push token c) true out
      | LEscape e =>
          let token' :=
            match escst with
            | LQuote q =>
                if negb (Ascii.eqb c e) && negb (Ascii.eqb c q)
                then push token e else token
            | _ => token
            end in
          lex rest escst escst (push token' c) quoted out
      | LWord =>
          if is_whitespace c then
            if negb (String.eqb token "") || quoted
            then lex rest LWhite LWhite "" false (token :: out)
            else lex rest LWhite escst token quoted out
          else if is_quote c then lex rest (LQuote c) escst token quoted out
          else if is_escape c then lex rest (LEscape c) LWord token quoted out
          else lex rest LWord escst (push token c) quoted out
      end
  end.

Definition split (s : string) : option (list string) :=
  lex (list_ascii_of_string s) LWhite LWhite "" false [].

End Shlex.

(* ===================================================================== *)
(** ** Values loaded from the manifest *)
(* ===================================================================== *)

(** What [yaml.load] returns: dictionaries keep their items in insertion
    order. *)
#[local] Set Warnings "-register-all".
Inductive yaml :=
| YNull
| YBool (b : bool)
| YInt (n : Z)
| YStr (s : string)
| YList (l : list yaml)
| YDict (d : list (string * yaml)).
#[local] Set Warnings "register-all".

Abbreviation pydict := (list (string * yaml)).

(** Python truth value: [not v] is [negb (truthy v)] *)
Definition truthy (v : yaml) : bool :=
  match v with
  | YNull => false
  | YBool b => b
  | YInt n => negb (n =? 0)
  | YStr s => negb (String.eqb s "")
  | YList l => match l with [] => false | _ => true end
  | YDict d => match d with [] => false | _ => true end
  end.

Definition is_none (v : yaml) : bool :=
  match v with YNull => true | _ => false end.

(** [v == 'generated'] *)
Definition is_generated (v : yaml) : bool :=
  match v with YStr s => String.eqb s "generated" | _ => false end.

(** *** Dictionary operations *)

(** [d.get(k)] *)
Fixpoint dict_get (k : string) (d : pydict) : option yaml :=
  match d with
  | [] => None
  | (k', v) :: d' => if String.eqb k' k then Some v else dict_get k d'
  end.

(** [k in d] *)
Definition dict_mem (k : string) (d : pydict) : bool :=
  match dict_get k d with Some _ => true | None => false end.

(** [d[k] = v]: an existing key keeps its position, a new one goes last *)
Fixpoint dict_set (k : string) (v : yaml) (d : pydict) : pydict :=
  match d with
  | [] => [(k, v)]
  | (k', v') :: d' =>
      if String.eqb k' k then (k, v) :: d' else (k', v') :: dict_set k v d'
  end.

(** [del d[k]]: [None] is the [KeyError] *)
Fixpoint dict_del (k : string) (d : pydict) : option pydict :=
  match d with
  | [] => None
  | (k', v') :: d' =>
      if String.eqb k' k then Some d'
      else match dict_del k d' with
           | Some r => Some ((k', v') :: r)
           | None => None
           end
  end.

(* ===================================================================== *)
(** ** Exceptions, state and the monad of effects *)
(* ===================================================================== *)

(** The message logged by [ProblemAspect.error] before it raises
    [GeneratorError]; the path is the one the message is about (the source
    prints it through [_yaml_path]). *)
Inductive error_message :=
| NotFound (what : string)
| InvalidYAML
| TopLevelNotDict
| MultipleDeclarations (path : string)
| EmptyGeneratorList (path : string)
| CommandBadType (path : string)
| EmptyCommand (path : string)
| ConfigNotDict (path : string)
| ForbiddenExtensionIn (path : string)
| TestdataYamlNotDict (path : string)
| EmptyKey (path : string)
| InvalidKey (key path : string)
| CompileError (program : string)
| GeneratorTerminated (command : string) (returncode : Z).

Inductive exn :=
| GeneratorError (m : error_message)
| KeyError (k : string)
| TypeError
| AttributeError
| IndexError
| ValueError
| AssertionError (m : string)
| NameError (name : string)
| OSError (path : string)
| RecursionError.

Inductive result (A : Type) :=
| Ok (a : A)
| Raise (e : exn).
Arguments Ok {A} a.
Arguments Raise {A} e.

Inductive node :=
| File (content : string)
| Dir.

(** One call [generator.run(args=.., infile=.., outfile=..)], with the
    working directory it is made in. *)
Record invocation := {
  inv_program : string;
  inv_args : option (list string);
  inv_infile : option string;
  inv_outfile : option string;
  inv_cwd : string
}.

Record state := {
  fs : gmap string node;           (* the file system *)
  cwd : string;                    (* os.getcwd() *)
  tmp_count : nat;                 (* names handed out by tempfile.mkdtemp *)
  generator_cache : list string;   (* self.generator_cache, by program path *)
  calls : list invocation;         (* generator runs so far, oldest first *)
  warnings : list string;          (* ProblemAspect.warning, oldest first *)
  paths : gset string              (* the set [paths] of [__enter__] *)
}.

Definition set_fs (f : gmap string node) (s : state) : state :=
  {| fs := f; cwd := cwd s; tmp_count := tmp_count s;
     generator_cache := generator_cache s; calls := calls s;
     warnings := warnings s; paths := paths s |}.
Definition set_cwd (d : string) (s : state) : state :=
  {| fs := fs s; cwd := d; tmp_count := tmp_count s;
     generator_cache := generator_cache s; calls := calls s;
     warnings := warnings s; paths := paths s |}.
Definition set_tmp_count (n : nat) (s : state) : state :=
  {| fs := fs s; cwd := cwd s; tmp_count := n;
     generator_cache := generator_cache s; calls := calls s;
     warnings := warnings s; paths := paths s |}.
Definition set_generator_cache (c : list string) (s : state) : state :=
  {| fs := fs s; cwd := cwd s; tmp_count := tmp_count s;
     generator_cache := c; calls := calls s;
     warnings := warnings s; paths := paths s |}.
Definition set_calls (c : list invocation) (s : state) : state :=
  {| fs := fs s; cwd := cwd s; tmp_count := tmp_count s;
     generator_cache := generator_cache s; calls := c;
     warnings := warnings s; paths := paths s |}.
Definition set_warnings (w : list string) (s : state) : state :=
  {| fs := fs s; cwd := cwd s; tmp_count := tmp_count s;
     generator_cache := generator_cache s; calls := calls s;
     warnings := w; paths := paths s |}.
Definition set_paths (p : gset string) (s : state) : state :=
  {| fs := fs s; cwd := cwd s; tmp_count := tmp_count s;
     generator_cache := generator_cache s; calls := calls s;
     warnings := warnings s; paths := p |}.

Definition M (A : Type) : Type := state -> result A * state.

Definition ret {A} (a : A) : M A := fun s => (Ok a, s).
Definition raise {A} (e : exn) : M A := fun s => (Raise e, s).
Definition bind {A B} (m : M A) (k : A -> M B) : M B :=
  fun s => match m s with
           | (Ok a, s') => k a s'
           | (Raise e, s') => (Raise e, s')
           end.
Definition get : M state := fun s => (Ok s, s).
Definition modify (f : state -> state) : M unit := fun s => (Ok tt, f s).

Notation "x <- m ;; k" := (bind m (fun x => k))
  (at level 100, m at next level, right associativity).
Notation "m ;;; k" := (bind m (fun _ => k))
  (at level 100, right associativity).

(** [try: body finally: cleanup] *)
Definition try_finally {A} (body : M A) (cleanup : M unit) : M A :=
  fun s => match body s with
           | (r, s') =>
               match cleanup s' with
               | (Ok _, s'') => (r, s'')
               | (Raise e, s'') => (Raise e, s'')
               end
           end.

(** [try: body except: handler] (a bare [except]) *)
Definition try_except (body : M unit) (handler : M unit) : M unit :=
  fun s => match body s with
           | (Ok _, s') => (Ok tt, s')
           | (Raise _, s') => handler s'
           end.

(** [for x in l: body x] *)
Fixpoint for_each {A} (l : list A) (body : A -> M unit) : M unit :=
  match l with
  | [] => ret tt
  | x :: l' => body x ;;; for_each l' body
  end.

(** [self.error(msg)] and [self.warning(msg)] *)
Definition error {A} (m : error_message) : M A := raise (GeneratorError m).
Definition warning (msg : string) : M unit :=
  modify (fun s => set_warnings (warnings s ++ [msg])%list s).

(** a pure computation that may raise, run inside [M] *)
Definition lift {A} (r : result A) : M A := fun s => (r, s).

(* ===================================================================== *)
(** ** The file system: [os], [shutil], [tempfile] *)
(* ===================================================================== *)

Module Fs.

(** [os.path.normpath] on an absolute path *)
Fixpoint norm_components (comps stack : list string) : list string :=
  match comps with
  | [] => List.rev stack
  | c :: r =>
      if String.eqb c "" || String.eqb c "." then norm_components r stack
      else if String.eqb c ".." then norm_components r (List.tl stack)
      else norm_components r (c :: stack)
  end.

Definition normpath (p : string) : string :=
  "/" ++ String.concat "/" (norm_components (Py.split "/" p) []).

(** the absolute, normalised path that [p] names in state [s] *)
Definition resolve (s : state) (p : string) : string :=
  normpath (OsPath.join (cwd s) p).

(** what [p] names: the root always is a directory, the empty path
    names nothing *)
Definition stat (s : state) (p : string) : option node :=
  if String.eqb p "" then None
  else let a := resolve s p in
       if String.eqb a "/" then Some Dir else fs s !! a.

(** [k] lies strictly below directory [a] *)
Definition below (a k : string) : bool :=
  Py.startswith k (if String.eqb a "/" then "/" else a ++ "/")
  && negb (String.eqb k a).

Definition exists_ (p : string) : M bool :=
  fun s => (Ok (bool_decide (is_Some (stat s p))), s).
Definition isdir (p : string) : M bool :=
  fun s => (Ok (match stat s p with Some Dir => true | _ => false end), s).
Definition isfile (p : string) : M bool :=
  fun s => (Ok (match stat s p with Some (File _) => true | _ => false end), s).

Definition getcwd : M string := fun s => (Ok (cwd s), s).

Definition chdir (p : string) : M unit :=
  fun s => match stat s p with
           | Some Dir => (Ok tt, set_cwd (resolve s p) s)
           | _ => (Raise (OSError p), s)
           end.

(** [os.unlink] *)
Definition unlink (p : string) : M unit :=
  fun s => match stat s p with
           | Some (File _) => (Ok tt, set_fs (delete (resolve s p) (fs s)) s)
           | _ => (Raise (OSError p), s)
           end.

Definition remove_tree (a : string) (m : gmap string node) : gmap string node :=
  filter (fun kv => negb (below a (fst kv)) = true) (delete a m).

(** [shutil.rmtree] *)
Definition rmtree (p : string) : M unit :=
  fun s => match stat s p with
           | Some Dir => (Ok tt, set_fs (remove_tree (resolve s p) (fs s)) s)
           | _ => (Raise (OSError p), s)
           end.

Definition parent_is_dir (s : state) (a : string) : bool :=
  match stat s (OsPath.dirname a) with Some Dir => true | _ => false end.

(** [os.mkdir] *)
Definition mkdir (p : string) : M unit :=
  fun s => let a := resolve s p in
           match stat s p with
           | Some _ => (Raise (OSError p), s)
           | None =>
               if negb (String.eqb p "") && parent_is_dir s a
               then (Ok tt, set_fs (<[a := Dir]> (fs s)) s)
               else (Raise (OSError p), s)
           end.

(** [open(p, 'w').write(c)] *)
Definition write_file (p : string) (c : string) : M unit :=
  fun s => let a := resolve s p in
           match stat s p with
           | Some Dir => (Raise (OSError p), s)
           | _ =>
               if negb (String.eqb p "") && parent_is_dir s a
               then (Ok tt, set_fs (<[a := File c]> (fs s)) s)
               else (Raise (OSError p), s)
           end.

(** [os.chmod(p, mode)]: modes are not modelled, the path must exist *)
Definition chmod (p : string) : M unit :=
  fun s => match stat s p with
           | Some _ => (Ok tt, s)
           | None => (Raise (OSError p), s)
           end.

(** moves the node at [a] and everything below it to [b] *)
Definition rename_tree (a b : string) (m : gmap string node) : gmap string node :=
  let moved :=
    List.map (fun kv => (b ++ substring (Py.len a) (Py.len (fst kv) - Py.len a) (fst kv),
                         snd kv))
             (List.filter (fun kv => String.eqb (fst kv) a || below a (fst kv))
                          (map_to_list m)) in
  list_to_map moved ∪ remove_tree a (remove_tree b m).

(** [shutil.move(src, dst)]: into [dst] when that is a directory, onto it
    otherwise *)
Definition move (src dst : string) : M unit :=
  fun s =>
    match stat s src with
    | None => (Raise (OSError src), s)
    | Some n =>
        let real_dst :=
          match stat s dst with
          | Some Dir => OsPath.join dst (OsPath.basename src)
          | _ => dst
          end in
        let b := resolve s real_dst in
        match stat s dst, stat s real_dst with
        | Some Dir, Some _ => (Raise (OSError real_dst), s)
        | _, _ =>
            if negb (String.eqb real_dst "") && parent_is_dir s b
            then (Ok tt, set_fs (rename_tree (resolve s src) b (fs s)) s)
            else (Raise (OSError real_dst), s)
        end
    end.

(** [shutil.copy(src, dst)] of a regular file *)
Definition copy (src dst : string) : M unit :=
  fun s =>
    match stat s src with
    | Some (File c) =>
        let real_dst :=
          match stat s dst with
          | Some Dir => OsPath.join dst (OsPath.basename src)
          | _ => dst
          end in
        write_file real_dst c s
    | _ => (Raise (OSError src), s)
    end.

(** the names in directory [a] (an absolute path) *)
Definition children (m : gmap string node) (a : string) : list (string * node) :=
  List.map (fun kv => (OsPath.basename (fst kv), snd kv))
           (List.filter (fun kv => String.eqb (OsPath.dirname (fst kv)) a
                                   && negb (String.eqb (fst kv) a))
                        (map_to_list m)).

(** [os.listdir] *)
Definition listdir (p : string) : M (list string) :=
  fun s => match stat s p with
           | Some Dir => (Ok (List.map fst (children (fs s) (resolve s p))), s)
           | _ => (Raise (OSError p), s)
           end.

Definition is_dir_node (n : node) : bool :=
  match n with Dir => true | File _ => false end.

(** [os.walk(top)], top-down: every directory from [top] on with the
    names of its non-directory entries.  [fuel] bounds the depth.  The
    directories are listed at once: the loop that consumes the walk in
    [_run_single] moves files out of the directory it is at and neither
    adds nor removes anything further down. *)
Fixpoint walk_from (fuel : nat) (s : state) (root : string)
  : list (string * list string) :=
  match fuel with
  | O => []
  | S fuel' =>
      let cs := children (fs s) (resolve s root) in
      let dirs := List.map fst (List.filter (fun c => is_dir_node (snd c)) cs) in
      let files := List.map fst (List.filter (fun c => negb (is_dir_node (snd c))) cs) in
      (root, files)
        :: List.concat (List.map (fun d => walk_from fuel' s (OsPath.join root d)) dirs)
  end.

Definition walk (top : string) : M (list (string * list string)) :=
  fun s => (Ok (match stat s top with
                | Some Dir => walk_from (S (size (fs s))) s top
                | _ => []
                end), s).

(** [os.path.relpath(root, start)] for a [root] that [os.walk(start)]
    yields: ['.'] for [start] itself, the path below it otherwise *)
Definition relpath (root start : string) : string :=
  if String.eqb root start then "."
  else substring (S (Py.len start)) (Py.len root - S (Py.len start)) root.

(** [tempfile.mkdtemp(dir=dir, prefix=prefix)]: a new directory whose
    name ends in a counter standing for the random suffix *)
Definition mkdtemp (dir prefix : string) : M string :=
  fun s =>
    let name := OsPath.join dir (prefix ++ pretty (tmp_count s)) in
    match mkdir name (set_tmp_count (S (tmp_count s)) s) with
    | (Ok _, s') => (Ok name, s')
    | (Raise e, s') => (Raise e, s')
    end.

(** [tempfile.gettempdir()] *)
Definition gettempdir : string := "/tmp".

End Fs.

(* ===================================================================== *)
(** ** Collaborators that are not part of [gendata.py] *)
(* ===================================================================== *)

(** The modules [run] and [languages] of the package and the [yaml]
    library are used through these operations only. *)
Record Collaborators := {
  (** [yaml.load] of the bytes of the manifest file; [None] is a
      [YAMLError] *)
  yaml_load : string -> option yaml;
  (** [yaml.dump] of a value, as the bytes written *)
  yaml_dump : yaml -> string;
  (** [run.get_program(path, ..., work_dir).compile()]: [Some success], or
      [None] for a [ProgramError] *)
  program_compile : string -> string -> gmap string node -> option bool;
  (** [program.run(args=.., infile=.., outfile=..)]: the wait status and
      the file system the process leaves behind *)
  program_run : invocation -> gmap string node -> Z * gmap string node
}.

(** [os.WEXITSTATUS] *)
Definition WEXITSTATUS (status : Z) : Z := Z.land (Z.shiftr status 8) 255.

(* ===================================================================== *)
(** ** Module-level helpers *)
(* ===================================================================== *)

(** [rmtree_or_unlink_if_exists] *)
Definition rmtree_or_unlink_if_exists (path : string) : M unit :=
  e <- Fs.exists_ path ;;
  if e : bool then
    d <- Fs.isdir path ;;
    if d : bool then Fs.rmtree path else Fs.unlink path
  else ret tt.

(** The [while not os.path.isdir(path)] loop of [ensure_directory]: the
    names to create, last one first, and the directory they start from.
    The loop only ends at a directory; [fuel] bounds its iterations and
    running out of it is reported as [RecursionError]. *)
Fixpoint ensure_directory_scan (fuel : nat) (path : string) (recursive : bool)
         (create : list string) : M (string * list string) :=
  d <- Fs.isdir path ;;
  if d : bool then ret (path, create)
  else
    let '(path', dirname) := OsPath.split path in
    if negb recursive then ret (path', (create ++ [dirname])%list)
    else match fuel with
         | O => raise RecursionError
         | S fuel' =>
             ensure_directory_scan fuel' path' recursive (create ++ [dirname])%list
         end.

(** the [for dirname in create[::-1]] loop *)
Fixpoint ensure_directory_create (path : string) (create : list string) : M unit :=
  match create with
  | [] => ret tt
  | dirname :: rest =>
      let path' := OsPath.join path dirname in
      rmtree_or_unlink_if_exists path' ;;;
      Fs.mkdir path' ;;;
      ensure_directory_create path' rest
  end.

(** [ensure_directory(path, recursive)] *)
Definition ensure_directory (path : string) (recursive : bool) : M unit :=
  pc <- ensure_directory_scan (S (Py.len path)) path recursive [] ;;
  ensure_directory_create (fst pc) (List.rev (snd pc)).

(* ===================================================================== *)
(** ** [class Problem] *)
(* ===================================================================== *)

Record Problem := {
  probdir : string;
  shortname : string;
  data_path : string;
  generator_path : string;
  manifestfile : string
}.

(** [Problem.__init__]; [probdir] is taken as already resolved by
    [os.path.realpath] *)
Definition Problem_init (probdir : string) : Problem :=
  let generator_path := OsPath.join probdir "generators" in
  {| probdir := probdir;
     shortname := OsPath.basename probdir;
     data_path := OsPath.join probdir "data";
     generator_path := generator_path;
     manifestfile := OsPath.join generator_path "gen.yaml" |}.

(** [Problem.__enter__] *)
Definition Problem_enter (self : Problem) : M Problem :=
  d <- Fs.isdir (probdir self) ;;
  (if d : bool then ret tt else error (NotFound (probdir self))) ;;;
  d <- Fs.isdir (generator_path self) ;;
  (if d : bool then ret tt else error (NotFound (generator_path self))) ;;;
  f <- Fs.isfile (manifestfile self) ;;
  (if f : bool then ret tt else error (NotFound (manifestfile self))) ;;;
  ret self.

(** [class GeneratedKind] *)
Inductive GeneratedKind :=
| TESTCASE
| TESTGROUP
| TESTDATA_YAML.

Definition kind_eqb (a b : GeneratedKind) : bool :=
  match a, b with
  | TESTCASE, TESTCASE | TESTGROUP, TESTGROUP
  | TESTDATA_YAML, TESTDATA_YAML => true
  | _, _ => false
  end.

(* ===================================================================== *)
(** ** [class GeneratorManifest] *)
(* ===================================================================== *)

Record GeneratorManifest := {
  problem : Problem;
  tmpdir : string;
  manifest : yaml
}.

(** [GeneratorManifest._DEFAULT_CONFIG] *)
Definition _DEFAULT_CONFIG : pydict := [("extensions", YDict [])].

(** [key_regex.match(key)] for
    [^[a-zA-Z0-9][a-zA-Z0-9_.-]*[a-zA-Z0-9]$]; the [$] also matches before
    a newline that ends the string. *)
Definition is_alnum (c : ascii) : bool :=
  let n := nat_of_ascii c in
  ((48 <=? n) && (n <=? 57) || (65 <=? n) && (n <=? 90)
   || (97 <=? n) && (n <=? 122))%nat.

Definition is_key_char (c : ascii) : bool :=
  is_alnum c || Ascii.eqb c "_"%char || Ascii.eqb c "."%char
  || Ascii.eqb c "-"%char.

Definition key_regex_match (key : string) : bool :=
  let cs := list_ascii_of_string key in
  let cs := match List.rev cs with
            | c :: r => if Ascii.eqb c "010"%char then List.rev r else cs
            | [] => cs
            end in
  match cs with
  | a :: rest =>
      is_alnum a
      && match List.rev rest with
         | z :: mid => is_alnum z && List.forallb is_key_char mid
         | [] => false
         end
  | [] => false
  end.

(** [if not isinstance(gen, list): gen = [gen]] *)
Definition as_list (gen : yaml) : list yaml :=
  match gen with YList l => l | _ => [gen] end.

(** [_validate_generator] *)
Definition _validate_generator (gen : yaml) (path : string)
           (allow_none : bool) : M unit :=
  if is_none gen && allow_none then ret tt
  else
    let gen := as_list gen in
    (match gen with [] => error (EmptyGeneratorList path) | _ => ret tt end) ;;;
    for_each gen (fun command =>
      match command with
      | YStr c =>
          match Shlex.split c with
          | None => raise ValueError
          | Some [] => error (EmptyCommand path)
          | Some _ => ret tt
          end
      | _ => error (CommandBadType path)
      end).

(** [_validate_config] *)
Definition _validate_config (config : yaml) (path : string) : M unit :=
  match config with
  | YDict items =>
      for_each items (fun '(key, value) =>
        if String.eqb key "extensions" then
          match value with
          | YDict exts =>
              for_each exts (fun '(ext, gen) =>
                (if String.eqb ext "in" then error (ForbiddenExtensionIn path)
                 else ret tt) ;;;
                if is_none gen then ret tt
                else if is_generated gen then ret tt
                else _validate_generator gen
                       (OsPath.join (OsPath.join path "extensions") key) false)
          | _ => raise AttributeError
          end
        else warning key)
  | _ => error (ConfigNotDict path)
  end.

(** the inner loop of [_merge_configs], on [config['extensions']] *)
Fixpoint merge_extensions (value : pydict) (config : pydict) : result pydict :=
  match value with
  | [] => Ok config
  | (ext, gen) :: rest =>
      match dict_get "extensions" config with
      | None => Raise (KeyError "extensions")
      | Some (YDict e) =>
          if negb (truthy gen) then
            match dict_del ext e with
            | None => Raise (KeyError ext)
            | Some e' =>
                merge_extensions rest (dict_set "extensions" (YDict e') config)
            end
          else
            merge_extensions rest
              (dict_set "extensions" (YDict (dict_set ext gen e)) config)
      | Some _ => Raise TypeError
      end
  end.

Fixpoint merge_items (items : pydict) (config : pydict) : result pydict :=
  match items with
  | [] => Ok config
  | (key, value) :: rest =>
      if String.eqb key "extensions" then
        match value with
        | YDict exts =>
            match merge_extensions exts config with
            | Ok config' => merge_items rest config'
            | Raise e => Raise e
            end
        | _ => Raise AttributeError
        end
      else merge_items rest (dict_set key value config)
  end.

(** [_merge_configs]: the copy of [old_config] is the value itself *)
Definition _merge_configs (old_config : pydict) (new_config : yaml)
  : result pydict :=
  match new_config with
  | YDict items => merge_items items old_config
  | _ => Raise AttributeError
  end.

(** [_validate_testdata_yaml] *)
Definition _validate_testdata_yaml (testdata_yaml : yaml) (path : string) : M unit :=
  match testdata_yaml with
  | YDict _ => ret tt
  | _ => error (TestdataYamlNotDict path)
  end.

(** [config['extensions']] read as a dictionary *)
Definition config_extensions (config : pydict) : result pydict :=
  match dict_get "extensions" config with
  | None => Raise (KeyError "extensions")
  | Some (YDict e) => Ok e
  | Some _ => Raise AttributeError
  end.

Section Walk.

(** the callbacks given to [_walk] *)
Variable handler : GeneratedKind -> string -> yaml -> pydict -> M unit.
Variable post_group_handler : option (pydict -> string -> pydict -> M unit).

Definition call_post (manifest : pydict) (path : string) (config : pydict) : M unit :=
  match post_group_handler with
  | Some post => post manifest path config
  | None => ret tt
  end.

(** the [for key, value in manifest.items()] loop of [_walk_group];
    [walk_group] is the recursive call *)
Fixpoint walk_items (walk_group : yaml -> string -> pydict -> M unit)
         (path : string) (config : pydict) (l : pydict) : M unit :=
  match l with
  | [] => ret tt
  | (key, value) :: l' =>
      (if String.eqb key "" then error (EmptyKey path)
       else if String.eqb key "config" then ret tt
       else if negb (key_regex_match key) then error (InvalidKey key path)
       else if String.eqb key "testdata.yaml" then
         _validate_testdata_yaml value path ;;;
         handler TESTDATA_YAML (OsPath.join path key) value config
       else
         match value with
         | YDict _ =>
             (* We have a group, so we recurse *)
             walk_group value (OsPath.join path key) config
         | _ =>
             _validate_generator value (OsPath.join path key) true ;;;
             let kind := if Py.endswith key ".in"
                         then TESTCASE else TESTGROUP in
             handler kind (OsPath.join path key) value config ;;;
             if kind_eqb kind TESTGROUP
             then call_post [] (OsPath.join path key) config
             else ret tt
         end) ;;;
      walk_items walk_group path config l'
  end.

(** [_walk_group] *)
Fixpoint _walk_group (manifest : yaml) (path : string)
         (parent_config : pydict) {struct manifest} : M unit :=
  match manifest with
  | YDict items =>
      let scope_config :=
        match dict_get "config" items with Some c => c | None => YDict [] end in
      _validate_config scope_config path ;;;
      config <- lift (_merge_configs parent_config scope_config) ;;
      walk_items _walk_group path config items ;;;
      call_post items path config
  | _ => raise (AssertionError "manifest should always be a dictionary")
  end.

(** [_walk] *)
Definition _walk (self : GeneratorManifest) : M unit :=
  _walk_group (manifest self) (data_path (problem self)) _DEFAULT_CONFIG.

End Walk.

(** [_hash_command] *)
Definition _hash_command (command : string) : string :=
  Py.str_of_Z (int_of_hex (Sha512.hexdigest command) mod 2 ^ 31).

(** [_parse_command] *)
Definition _parse_command (command gen_path path : string)
  : result (string * list string) :=
  let seed := _hash_command command in
  match Shlex.split command with
  | None => Raise ValueError
  | Some [] => Raise IndexError
  | Some (program_path :: arguments) =>
      let program_path := OsPath.join gen_path program_path in
      Ok (program_path,
          List.map (fun a =>
                      if String.eqb a "$PATH" then path
                      else if Py.startswith a "$SEED" then seed
                      else a) arguments)
  end.

(** the first loop of [_generate_extensions]: [old_extensions],
    [new_extensions], and the value the loop variable [gen] is left with *)
Fixpoint partition_extensions (items : pydict) (old_extensions new_extensions : list string)
         (gen : option yaml) : list string * list string * option yaml :=
  match items with
  | [] => (old_extensions, new_extensions, gen)
  | (ext, g) :: rest =>
      if is_generated g then
        partition_extensions rest (old_extensions ++ [ext])%list new_extensions (Some g)
      else if String.eqb ext "ans" then
        (* If present, .ans should be the first extension that is generated *)
        partition_extensions rest old_extensions ("ans" :: new_extensions) (Some g)
      else
        partition_extensions rest old_extensions (new_extensions ++ [ext])%list (Some g)
  end.

(** The test of the merge loop of [_run_single] on one name [fname] of a
    directory whose file names are [files]: [true] when the file is moved
    to the target directory. *)
Definition merge_adopts (config : pydict) (files : list string) (fname : string)
  : result bool :=
  if negb (Py.contains "."%char fname) then Ok false
  else
    let ext := Py.last_item (Py.split "."%char fname) in
    let wanted :=
      if String.eqb ext "in" then Ok true
      else match config_extensions config with
           | Ok exts =>
               Ok (match dict_get ext exts with
                   | Some g => is_generated g
                   | None => false
                   end)
           | Raise e => Raise e
           end in
    match wanted with
    | Raise e => Raise e
    | Ok false =>
        (* Only move .in files and corresponding generated extensions *)
        Ok false
    | Ok true =>
        let in_file := Py.slice_upto fname (- Z.of_nat (Py.len ext)) ++ "in" in
        Ok (bool_decide (in_file ∈ files))
    end.

Section Engine.

Variable C : Collaborators.
Variable self : GeneratorManifest.

(** [_get_generator]: the handle of a program is its path *)
Definition _get_generator (path : string) : M string :=
  s <- get ;;
  if List.existsb (String.eqb path) (generator_cache s) then ret path
  else
    work_dir <- Fs.mkdtemp (tmpdir self) "generator-" ;;
    s <- get ;;
    match program_compile C path work_dir (fs s) with
    | Some true =>
        modify (fun s => set_generator_cache (generator_cache s ++ [path])%list s) ;;;
        ret path
    | Some false => error (CompileError path)
    | None => error (CompileError path)
    end.

(** [generator.run] with the keyword arguments collected in [args] *)
Definition generator_run (inv : invocation) : M Z :=
  fun s => let '(status, fs') := program_run C inv (fs s) in
           (Ok status, set_calls (calls s ++ [inv])%list (set_fs fs' s)).

(** the body of the loop of [_execute_generator] for one [command];
    [input_path] is the loop-carried variable *)
Definition execute_command (gen_path tmp_dir gen_dir path : string)
           (input_path : option string) (command : yaml) : M (option string) :=
  match command with
  | YStr command =>
      pa <- lift (_parse_command command gen_path path) ;;
      let '(program_path, arguments) := pa in
      generator <- _get_generator program_path ;;
      let output_path := OsPath.join tmp_dir "_tmp_output" in
      old_wd <- Fs.getcwd ;;
      Fs.chdir gen_dir ;;;
      status <- generator_run
                  {| inv_program := generator;
                     inv_args := match arguments with
                                 | [] => None
                                 | _ => Some arguments
                                 end;
                     inv_infile := input_path;
                     inv_outfile := Some output_path;
                     inv_cwd := gen_dir |} ;;
      Fs.chdir old_wd ;;;
      let returncode := WEXITSTATUS status in
      (if negb (returncode =? 0)
       then error (GeneratorTerminated command returncode) else ret tt) ;;;
      Fs.chmod output_path ;;;
      let input_path := OsPath.join tmp_dir "_tmp_input" in
      rmtree_or_unlink_if_exists input_path ;;;
      Fs.move output_path input_path ;;;
      ret (Some input_path)
  | _ => raise AttributeError
  end.

Fixpoint execute_commands (gen_path tmp_dir gen_dir path : string)
         (input_path : option string) (gen : list yaml) : M (option string) :=
  match gen with
  | [] => ret input_path
  | command :: rest =>
      input_path' <- execute_command gen_path tmp_dir gen_dir path
                                     input_path command ;;
      execute_commands gen_path tmp_dir gen_dir path input_path' rest
  end.

(** [_execute_generator] *)
Definition _execute_generator (gen : yaml) (gen_path tmp_dir gen_dir path : string)
           (input_filename output_filename : option string) : M unit :=
  let gen := as_list gen in
  let input_path :=
    match input_filename with
    | Some f => Some (OsPath.join gen_dir f)
    | None => None
    end in
  input_path <- execute_commands gen_path tmp_dir gen_dir path input_path gen ;;
  match input_path with
  | None => raise TypeError
  | Some input_path =>
      match output_filename with
      | None => rmtree_or_unlink_if_exists input_path
      | Some f =>
          let output_path := OsPath.join gen_dir f in
          rmtree_or_unlink_if_exists output_path ;;;
          Fs.move input_path output_path
      end
  end.

(** [_generate_extensions] *)
Definition _generate_extensions (path : string) (config : pydict)
           (tmp_dir : option string) : M unit :=
  if negb (Py.endswith path ".in")
  then raise (AssertionError "testcase paths should always end with .in")
  else
    exts <- lift (config_extensions config) ;;
    let '(old_extensions, new_extensions, gen) :=
      partition_extensions exts ["in"] [] None in
    let existing_tmp_dir := bool_decide (is_Some tmp_dir) in
    if match new_extensions with [] => true | _ => false end
       && negb existing_tmp_dir
    then (* No new extensions to be generated, let's exit early *) ret tt
    else
      let copy_old := negb existing_tmp_dir in
      tmp_dir <- match tmp_dir with
                 | Some d => ret d
                 | None => Fs.mkdtemp (tmpdir self)
                                      (OsPath.basename path ++ "-ext-")
                 end ;;
      try_finally
        (let gen_dir := OsPath.join tmp_dir "gen" in
         (if negb existing_tmp_dir then Fs.mkdir gen_dir else ret tt) ;;;
         (if copy_old then
            for_each old_extensions (fun ext =>
              let cur_path := Py.slice_upto path (-2) ++ ext in
              f <- Fs.isfile cur_path ;;
              if f : bool then Fs.copy cur_path gen_dir else ret tt)
          else ret tt) ;;;
         for_each new_extensions (fun ext =>
           let cur_path := Py.slice_upto path (-2) ++ ext in
           match gen with
           | None => raise (NameError "gen")
           | Some gen =>
               _execute_generator gen (probdir (problem self)) tmp_dir gen_dir
                 (OsPath.basename cur_path)
                 (Some (OsPath.basename path))
                 (Some (OsPath.basename cur_path))
           end) ;;;
         if negb existing_tmp_dir then
           ensure_directory (OsPath.dirname path) true ;;;
           for_each (old_extensions ++ new_extensions)%list (fun ext =>
             let to_path := Py.slice_upto path (-2) ++ ext in
             let from_path := OsPath.join gen_dir (OsPath.basename to_path) in
             rmtree_or_unlink_if_exists to_path ;;;
             Fs.move from_path to_path)
         else ret tt)
        (if negb existing_tmp_dir then Fs.rmtree tmp_dir else ret tt).

(** [_run_post_group]; [fuel] bounds the depth of the recursion into
    directories *)
Fixpoint _run_post_group (fuel : nat) (manifest : pydict) (path : string)
         (config : pydict) : M unit :=
  match fuel with
  | O => raise RecursionError
  | S fuel' =>
      names <- Fs.listdir path ;;
      for_each names (fun fname =>
        if dict_mem fname manifest then
          (* Cases in manifest have already been handled *) ret tt
        else
          d <- Fs.isdir fname ;;
          if d : bool then
            _run_post_group fuel' [] (OsPath.join path fname) config
          else
            f <- Fs.isfile fname ;;
            if f && Py.endswith fname ".in"
            then _generate_extensions (OsPath.join path fname) config None
            else ret tt)
  end.

(** the merge loop of [_run_single]: moves the adopted files of one
    directory [root] of the generator's output *)
Definition merge_directory (config : pydict) (gen_dir target_dir : string)
           (entry : string * list string) : M unit :=
  let '(root, files) := entry in
  let cur_path := Fs.relpath root gen_dir in
  let cur_target_dir := OsPath.join target_dir cur_path in
  for_each files (fun fname =>
    adopt <- lift (merge_adopts config files fname) ;;
    if adopt : bool then
      ensure_directory cur_target_dir false ;;;
      let cur_target := OsPath.join cur_target_dir fname in
      rmtree_or_unlink_if_exists cur_target ;;;
      Fs.move (OsPath.join root fname) cur_target
    else ret tt).

(** [_run_single] *)
Definition _run_single (kind : GeneratedKind) (path : string) (gen : yaml)
           (config : pydict) : M unit :=
  let target_dir := if kind_eqb kind TESTGROUP then path
                    else OsPath.dirname path in
  ensure_directory target_dir true ;;;
  if kind_eqb kind TESTDATA_YAML then
    Fs.write_file path (yaml_dump C gen)
  else if is_none gen then
    (* Manual case: input file(s) are already in the data directory *)
    ret tt
  else
    tmp_dir <- Fs.mkdtemp (tmpdir self) (OsPath.basename path ++ "-") ;;
    try_finally
      (let gen_dir := OsPath.join tmp_dir "gen" in
       Fs.mkdir gen_dir ;;;
       _execute_generator gen (generator_path (problem self)) tmp_dir gen_dir
         (OsPath.basename path) None
         (if kind_eqb kind TESTCASE then Some (OsPath.basename path) else None) ;;;
       (* Move all generated files to the target dir, overwriting if necessary *)
       entries <- Fs.walk gen_dir ;;
       for_each entries (merge_directory config gen_dir target_dir))
      (Fs.rmtree tmp_dir).

(** [run]; the scan of a directory goes as deep as the file system *)
Definition run : M unit :=
  _walk _run_single
        (Some (fun manifest path config s =>
                 _run_post_group (S (size (fs s))) manifest path config s))
        self.

(** [try: os.unlink(p) except: self.warning(..)] *)
Definition unlink_or_warn (remove_path : string) : M unit :=
  e <- Fs.exists_ remove_path ;;
  if e : bool then try_except (Fs.unlink remove_path) (warning remove_path)
  else ret tt.

(** [_clean_single] *)
Definition _clean_single (kind : GeneratedKind) (path : string) (gen : yaml)
           (config : pydict) : M unit :=
  match kind with
  | TESTCASE =>
      if negb (Py.endswith path ".in")
      then raise (AssertionError "testcase paths should always end with .in")
      else
        exts <- lift (config_extensions config) ;;
        let remove :=
          path :: List.map (fun ext => Py.slice_upto path (-3) ++ "." ++ fst ext)
                           exts in
        for_each remove unlink_or_warn
  | TESTDATA_YAML =>
      e <- Fs.exists_ path ;;
      if negb (is_none gen) && e
      then try_except (Fs.unlink path) (warning path)
      else ret tt
  | TESTGROUP =>
      e <- Fs.exists_ path ;;
      if negb (is_none gen) && e
      then try_except (Fs.rmtree path) (warning path)
      else ret tt
  end.

(** [clean] *)
Definition clean : M unit := _walk _clean_single None self.

End Engine.

(** the [handler] of [GeneratorManifest.__enter__] *)
Definition enter_handler (kind : GeneratedKind) (path : string) (gen : yaml)
           (config : pydict) : M unit :=
  s <- get ;;
  if bool_decide (path ∈ paths s) then error (MultipleDeclarations path)
  else modify (fun s => set_paths ({[ path ]} ∪ paths s) s).

(** [GeneratorManifest.__enter__]: the value returned is [self] *)
Definition GeneratorManifest_enter (C : Collaborators) (problem : Problem)
  : M GeneratorManifest :=
  tmpdir <- Fs.mkdtemp Fs.gettempdir ("gendata-" ++ shortname problem ++ "-") ;;
  modify (set_generator_cache []) ;;;
  s <- get ;;
  m <- match Fs.stat s (manifestfile problem) with
       | Some (File bytes) =>
           match yaml_load C bytes with
           | Some m => ret m
           | None => error InvalidYAML
           end
       | _ => raise (OSError (manifestfile problem))
       end ;;
  (match m with
   | YDict _ => ret tt
   | _ => error TopLevelNotDict
   end) ;;;
  let self := {| problem := problem; tmpdir := tmpdir; manifest := m |} in
  modify (set_paths ∅) ;;;
  _walk enter_handler None self ;;;
  ret self.

(** [GeneratorManifest.__exit__] *)
Definition GeneratorManifest_exit (self : GeneratorManifest) : M unit :=
  Fs.rmtree (tmpdir self).

(** [with e as x: body]: [__exit__] runs whenever [__enter__] returned *)
Definition with_ {A B} (enter : M A) (exit_ : A -> M unit) (body : A -> M B) : M B :=
  x <- enter ;; try_finally (body x) (exit_ x).

(** [main], given the parsed arguments: the exit status of the process,
    or the exception that escapes *)
Definition main (C : Collaborators) (clean_flag : bool) (problemdir : string) : M Z :=
  fun s =>
    match with_ (Problem_enter (Problem_init problemdir)) (fun _ => ret tt)
            (fun problem =>
               with_ (GeneratorManifest_enter C problem) GeneratorManifest_exit
                 (fun gen => if clean_flag then clean gen else run C gen)) s with
    | (Ok _, s') => (Ok 0, s')
    | (Raise (GeneratorError _), s') => (Ok 1, s')
    | (Raise e, s') => (Raise e, s')
    end.

(* ===================================================================== *)
(** ** A small problem package to run the engine on *)
(* ===================================================================== *)

Module Sample.

(** a generator that writes its own command line to its output file *)
Definition echo_run (inv : invocation) (m : gmap string node)
  : Z * gmap string node :=
  match inv_outfile inv with
  | Some o =>
      (0, <[o := File (inv_program inv ++ " "
                       ++ String.concat " " (default [] (inv_args inv)))]> m)
  | None => (0, m)
  end.

(** collaborators for a manifest file holding the document [m] *)
Definition collaborators (m : yaml) : Collaborators :=
  {| yaml_load := fun _ => Some m;
     yaml_dump := fun _ => "";
     program_compile := fun _ _ _ => Some true;
     program_run := echo_run |}.

Definition files : gmap string node :=
  list_to_map [("/tmp", Dir); ("/p", Dir); ("/p/generators", Dir);
               ("/p/generators/gen.yaml", File ""); ("/p/data", Dir)].

Definition start (cwd : string) (fs : gmap string node) : state :=
  {| fs := fs; cwd := cwd; tmp_count := 0; generator_cache := [];
     calls := []; warnings := []; paths := ∅ |}.

Definition package : Problem := Problem_init "/p".

Definition self (m : yaml) : GeneratorManifest :=
  {| problem := package; tmpdir := "/tmp/gendata-p-0"; manifest := m |}.

End Sample.

(** the [new_extensions] of [_generate_extensions] for the extensions
    [exts] of a config *)
Definition new_extensions_of (exts : pydict) : list string :=
  snd (fst (partition_extensions exts ["in"] [] None)).

(* ===================================================================== *)
(** ** Notions the specification is stated with *)
(* ===================================================================== *)

(** The paths of the entries of a manifest that name a unit (a test case,
    a group generator, a [testdata.yaml] document), in the order of the
    walk: the entries that are to resolve to distinct paths. *)
Fixpoint leaf_paths (manifest : yaml) (path : string) : list string :=
  match manifest with
  | YDict items =>
      List.flat_map
        (fun kv =>
           let p := OsPath.join path (fst kv) in
           if String.eqb (fst kv) "config" then []
           else if String.eqb (fst kv) "testdata.yaml" then [p]
           else match snd kv with
                | YDict _ => leaf_paths (snd kv) p
                | _ => [p]
                end)
        items
  | _ => []
  end.

(** the first path of [ps] that is in [seen] or occurred before in [ps] *)
Fixpoint first_dup (seen : gset string) (ps : list string) : option string :=
  match ps with
  | [] => None
  | p :: ps' =>
      if bool_decide (p ∈ seen) then Some p else first_dup ({[ p ]} ∪ seen) ps'
  end.

(** a walk that only validates: the callback does nothing *)
Definition no_handler (kind : GeneratedKind) (path : string) (gen : yaml)
           (config : pydict) : M unit := ret tt.

(** [name] cut at its last dot: what is before it and what is after it *)
Fixpoint cut_at_last_dot (name : string) : option (string * string) :=
  match name with
  | EmptyString => None
  | String a rest =>
      match cut_at_last_dot rest with
      | Some (base, ext) => Some (String a base, ext)
      | None => if Ascii.eqb a "."%char then Some (EmptyString, rest) else None
      end
  end.

(** The merge rule as the specification words it: a produced file is
    adopted when its name has a dot, its extension is [in] or is
    configured ["generated"], and the file with the same base name and the
    extension [in] is among the produced files. *)
Definition adopted_by_rule (exts : pydict) (files : list string) (fname : string)
  : bool :=
  match cut_at_last_dot fname with
  | None => false
  | Some (base, ext) =>
      (String.eqb ext "in"
       || match dict_get ext exts with Some g => is_generated g | None => false end)
      && bool_decide ((base ++ ".in") ∈ files)
  end.

(** the files of [files] that the merge loop moves *)
Definition adopted_files (config : pydict) (files : list string) : list string :=
  List.filter (fun f => match merge_adopts config files f with
                        | Ok b => b
                        | Raise _ => false
                        end) files.


(** *** Manifests and configs of the examples *)

Module Cases.

(** a manual test case, declared with a null generator *)
Definition manual_manifest : yaml := YDict [("1.in", YNull)].

(** a scope with two generated extensions and no declared test case *)
Definition two_extensions : pydict :=
  [("extensions", YDict [("ans", YStr "sol"); ("png", YStr "viz")])].
Definition two_extensions_manifest : yaml :=
  YDict [("config", YDict two_extensions)].

Definition ans_extension : pydict :=
  [("extensions", YDict [("ans", YStr "sol")])].
Definition ans_manifest : yaml := YDict [("config", YDict ans_extension)].

(** the data directory with a test case written by hand *)
Definition with_manual (name : string) : gmap string node :=
  <[OsPath.join "/p/data" name := File "by hand"]> Sample.files.

(** a group generator that leaves [1.in 1.ans 2.in stray.txt foo. foo.in]
    in its working directory *)
Definition group_run (inv : invocation) (m : gmap string node)
  : Z * gmap string node :=
  let out := List.map (fun n => (OsPath.join (inv_cwd inv) n, File n))
                      ["1.in"; "1.ans"; "2.in"; "stray.txt"; "foo."; "foo.in"] in
  (0, list_to_map out ∪ <[default "" (inv_outfile inv) := File ""]> m).

Definition generated_extensions : pydict :=
  [("extensions", YDict [("ans", YStr "generated"); ("", YStr "generated")])].
Definition group_manifest : yaml :=
  YDict [("config", YDict generated_extensions); ("grp", YStr "mk")].
Definition group_collaborators : Collaborators :=
  {| yaml_load := fun _ => Some group_manifest;
     yaml_dump := fun _ => "";
     program_compile := fun _ _ _ => Some true;
     program_run := group_run |}.

(** the file system once [__enter__] has made the temporary directory *)
Definition entered : gmap string node := <["/tmp/gendata-p-0" := Dir]> Sample.files.


(** [png] configured before [ans], the chains naming the file they make *)
Definition png_then_ans : pydict :=
  [("extensions", YDict [("png", YStr "viz"); ("ans", YStr "mk $PATH")])].

(** a child scope that switches off an extension its parent does not have *)
Definition null_override : yaml := YDict [("extensions", YDict [("ans", YNull)])].
Definition null_override_manifest : yaml :=
  YDict [("sample", YDict [("config", null_override); ("1.in", YStr "gen 1")])].
Definition without_override_manifest : yaml :=
  YDict [("sample", YDict [("config", YDict [("extensions", YDict [])]);
                           ("1.in", YStr "gen 1")])].

End Cases.

(* ===================================================================== *)
(** ** Notions used in the proofs *)
(* ===================================================================== *)

(** what [_parse_command] does to one argument token *)
Definition substitute (seed path a : string) : string :=
  if String.eqb a "$PATH" then path
  else if Py.startswith a "$SEED" then seed
  else a.

(** logging the warnings [w] *)
Definition add_warnings (w : list string) (s : state) : state :=
  set_warnings (warnings s ++ w)%list s.

(** [m] gives [r] and logs [w], in every state *)
Definition returns {A} (m : M A) (r : result A) (w : list string) : Prop :=
  forall s, m s = (r, add_warnings w s).

Definition quiet {A} (m : M A) : Prop := exists r w, returns m r w.

Create HintDb quiet.

(** [s'] differs from [s] in the warnings and in the set [paths] at most *)
Definition same_world (s s' : state) : Prop :=
  fs s' = fs s /\ cwd s' = cwd s /\ tmp_count s' = tmp_count s
  /\ generator_cache s' = generator_cache s /\ calls s' = calls s.

(** What the walk of [__enter__] comes to, from state [s], over entries
    whose paths are [ps]: it raises at the first path seen before, and
    records all of them otherwise. *)
Definition walk_outcome (res : result unit * state) (s : state) (ps : list string)
  : Prop :=
  same_world s (snd res)
  /\ match first_dup (paths s) ps with
     | Some p => fst res = Raise (GeneratorError (MultipleDeclarations p))
     | None => fst res = Ok tt /\ paths (snd res) = list_to_set ps ∪ paths s
     end.

(** the paths of the entries [l] of a group at [path] *)
Definition entry_paths (path : string) (l : pydict) : list string :=
  leaf_paths (YDict l) path.

(** the state in which [__enter__] starts its walk *)
Definition enter_state (s : state) (tmp : string) : state :=
  set_paths ∅ (set_generator_cache []
    (set_fs (<[Fs.resolve s tmp := Dir]> (fs s)) (set_tmp_count (S (tmp_count s)) s))).


(** every run of [m] only adds invocations that satisfy [P] to [calls] *)
Definition appends (P : invocation -> Prop) {A} (m : M A) : Prop :=
  forall s r s', m s = (r, s') ->
                 exists new, calls s' = (calls s ++ new)%list /\ Forall P new.

(** [m] runs no generator *)
Definition silent {A} (m : M A) : Prop :=
  forall s r s', m s = (r, s') -> calls s' = calls s.

(** [inv] runs a command of the chain [gen], its tokens interpolated with
    [path] and its program taken from [gen_path] *)
Definition interpolated (gen : yaml) (gen_path path : string) (inv : invocation)
  : Prop :=
  exists command token0 tokens,
    In (YStr command) (as_list gen)
    /\ Shlex.split command = Some (token0 :: tokens)
    /\ inv_program inv = OsPath.join gen_path token0
    /\ inv_args inv
       = match tokens with
         | [] => None
         | _ => Some (List.map (substitute (_hash_command command) path) tokens)
         end.

Create HintDb silent.


(** the chain that the generation loop of [_generate_extensions] runs: the
    value left in [gen] by the loop over the configured extensions *)
Definition chain_run_for_extensions (exts : pydict) : option yaml :=
  snd (partition_extensions exts ["in"] [] None).

(** the walk of [__enter__] follows a walk that only validates *)
Definition walk_sim (m : yaml) : Prop :=
  forall path cfg sV sV' sW,
    _walk_group no_handler None m path cfg sV = (Ok tt, sV') ->
    walk_outcome (_walk_group enter_handler None m path cfg sW) sW (leaf_paths m path).

(* ===================================================================== *)
(** ** Notions used for the further properties *)
(* ===================================================================== *)

(** the keys of a dictionary are distinct, as in every Python [dict] *)
Definition dict_wf (d : pydict) : Prop := NoDup (List.map fst d).

(** a command chain that [_validate_generator] lets through: not empty,
    every command a string with at least one token *)
Definition chain_valid (gen : yaml) : Prop :=
  as_list gen <> []
  /\ forall command, In command (as_list gen) ->
                     exists c t ts, command = YStr c /\ Shlex.split c = Some (t :: ts).

(** an entry of [config['extensions']] that [_validate_config] lets through *)
Definition extension_entry_ok (kv : string * yaml) : Prop :=
  fst kv <> "in"
  /\ (snd kv = YNull \/ snd kv = YStr "generated" \/ chain_valid (snd kv)).

Definition config_ok (config : yaml) : Prop :=
  exists items,
    config = YDict items
    /\ forall v, In ("extensions", v) items ->
                 exists exts, v = YDict exts /\ Forall extension_entry_ok exts.

(** the entries of a scope that the walk lets through; [wf] is the test
    for a nested group *)
Fixpoint entries_ok (wf : yaml -> Prop) (l : pydict) : Prop :=
  match l with
  | [] => True
  | (key, value) :: l' =>
      (key = "config"
       \/ (key <> "" /\ key_regex_match key = true
           /\ if String.eqb key "testdata.yaml"
              then exists d, value = YDict d
              else match value with
                   | YDict _ => wf value
                   | _ => value = YNull \/ chain_valid value
                   end))
      /\ entries_ok wf l'
  end.

(** a manifest that the walk lets through: every scope is a dictionary
    with a valid config, every key but [config] matches the key pattern,
    a [testdata.yaml] entry holds a dictionary, and every other entry is a
    nested group, null, or a valid command chain *)
Fixpoint well_formed (m : yaml) : Prop :=
  match m with
  | YDict items =>
      config_ok (match dict_get "config" items with
                 | Some c => c
                 | None => YDict []
                 end)
      /\ entries_ok well_formed items
  | _ => False
  end.

(** every run of [m] takes a state to one related to it by [R] *)
Definition preserves (R : state -> state -> Prop) {A} (m : M A) : Prop :=
  forall s r s', m s = (r, s') -> R s s'.

(** [s'] has no file or directory that [s] has not, with the same
    contents, and no generator has run in between *)
Definition shrinks (s s' : state) : Prop :=
  fs s' ⊆ fs s /\ calls s' = calls s /\ cwd s' = cwd s.

(** nothing is left at [p] or below it *)
Definition removed (s : state) (p : string) : Prop :=
  fs s !! Fs.resolve s p = None
  /\ forall k, Fs.below (Fs.resolve s p) k = true -> fs s !! k = None.

(** the three tests of [Problem.__enter__] *)
Definition package_complete (s : state) (pb : Problem) : bool :=
  match Fs.stat s (probdir pb), Fs.stat s (generator_path pb),
        Fs.stat s (manifestfile pb) with
  | Some Dir, Some Dir, Some (File _) => true
  | _, _, _ => false
  end.

(** a config in which [extensions] is a dictionary *)
Definition has_extensions (config : pydict) : Prop :=
  exists e, dict_get "extensions" config = Some (YDict e).

(** every run of [m] that returns takes a state to one related to it by
    [R] *)
Definition keeps_on_success (R : state -> state -> Prop) {A} (m : M A) : Prop :=
  forall s a s', m s = (Ok a, s') -> R s s'.

(** from a working directory that is a normalised absolute path, as
    [os.getcwd()] gives it, [s'] has the working directory of [s] *)
Definition cwd_kept (s s' : state) : Prop :=
  Fs.normpath (cwd s) = cwd s -> cwd s' = cwd s.

(* ===================================================================== *)
(** ** Manifests as they are loaded *)
(* ===================================================================== *)

(** What [yaml.load] builds from the pairs of a mapping node of the
    document: PyYAML's [construct_mapping] does [mapping[key] = value]
    for one pair after the other, so a key that the document writes twice
    is held once, with its last value. *)
Definition construct_mapping (pairs : list (string * yaml)) : pydict :=
  List.fold_left (fun d kv => dict_set (fst kv) (snd kv) d) pairs [].

(** [P] holds of every value of the entries [l] *)
Fixpoint values_ok (P : yaml -> Prop) (l : pydict) : Prop :=
  match l with
  | [] => True
  | (_, value) :: l' => P value /\ values_ok P l'
  end.

(** every dictionary in [m], at whatever depth of nested groups, has
    distinct keys: what holds of every value that [yaml.load] returns *)
Fixpoint keys_distinct (m : yaml) : Prop :=
  match m with
  | YDict items => dict_wf items /\ values_ok keys_distinct items
  | _ => True
  end.

(** a directory path that [os.path.join] extends with a separator *)
Definition open_path (path : string) : Prop :=
  path <> "" /\ Py.endswith path "/" = false.

(** what follows a key in a path: nothing, or a separator and more *)
Definition after_key (r : string) : Prop :=
  r = "" \/ exists r', r = String OsPath.slash r'.

(** the paths of the entries [l] of a group at [path] are distinct, and
    each is [path], a separator, a key of [l], and what is below it *)
Definition entries_distinct (path : string) (l : pydict) : Prop :=
  NoDup (leaf_paths (YDict l) path)
  /\ forall y, y ∈ leaf_paths (YDict l) path ->
               exists k r, y = path ++ "/" ++ k ++ r /\ after_key r
                           /\ Py.contains OsPath.slash k = false
                           /\ k ∈ List.map fst l.

(* ===================================================================== *)
(** ** The steps of [_generate_extensions] *)
(* ===================================================================== *)

(** The loops of [_generate_extensions] for a call without a staging
    directory, the only way the function is called; [tmp_dir] is the
    directory it makes. *)

(** copying the files of the extensions that are there already *)
Definition copy_old_extensions (path tmp_dir : string)
           (old_extensions : list string) : M unit :=
  for_each old_extensions (fun ext =>
    let cur_path := Py.slice_upto path (-2) ++ ext in
    f <- Fs.isfile cur_path ;;
    if f : bool then Fs.copy cur_path (OsPath.join tmp_dir "gen") else ret tt).

(** the body of the generation loop: the file of the extension [ext] is
    made by the chain [gen] *)
Definition generate_extension (C : Collaborators) (self : GeneratorManifest)
           (path tmp_dir : string) (gen : yaml) (ext : string) : M unit :=
  let cur_path := Py.slice_upto path (-2) ++ ext in
  _execute_generator C self gen (probdir (problem self)) tmp_dir
    (OsPath.join tmp_dir "gen")
    (OsPath.basename cur_path)
    (Some (OsPath.basename path))
    (Some (OsPath.basename cur_path)).

(** moving the files of [extensions] to the data directory *)
Definition install_extensions (path tmp_dir : string)
           (extensions : list string) : M unit :=
  ensure_directory (OsPath.dirname path) true ;;;
  for_each extensions (fun ext =>
    let to_path := Py.slice_upto path (-2) ++ ext in
    let from_path := OsPath.join (OsPath.join tmp_dir "gen") (OsPath.basename to_path) in
    rmtree_or_unlink_if_exists to_path ;;;
    Fs.move from_path to_path).

(* ===================================================================== *)
(** * Properties *)
(* ===================================================================== *)

(** ** The library models, on known values *)

Example join_ex1 : OsPath.join "/p/data" "1.in" = "/p/data/1.in".
Proof. reflexivity. Qed.
Example split_ex1 : OsPath.split "/p/data/1.in" = ("/p/data", "1.in").
Proof. reflexivity. Qed.
Example split_ex2 : OsPath.split "/data" = ("/", "data").
Proof. reflexivity. Qed.
Example split_ex3 : OsPath.split "data" = ("", "data").
Proof. reflexivity. Qed.
Example slice_ex1 : Py.slice_upto "1.in" (-2) = "1.".
Proof. reflexivity. Qed.
Example slice_ex2 : Py.slice_upto "foo." (- Z.of_nat (Py.len "")) = "".
Proof. reflexivity. Qed.
Example split_dot_ex : Py.split "." "a.b.in" = ["a"; "b"; "in"].
Proof. reflexivity. Qed.

Example sha512_empty :
  Sha512.hexdigest "" =
  "cf83e1357eefb8bdf1542850d66d8007d620e4050b5715dc83f4a921d36ce9ce47d0d13c5d85f2b0ff8318d2877eec2f63b931bd47417a81a538327af927da3e".
Proof. vm_compute. reflexivity. Qed.

Example sha512_abc :
  Sha512.hexdigest "abc" =
  "ddaf35a193617abacc417349ae20413112e6fa4e89a97ea20a9eeee64b55d39a2192992a274fc1a836ba3c23a3feebbd454d4423643ce80e2a9ac94fa54ca49f".
Proof. vm_compute. reflexivity. Qed.

Example sha512_two_blocks :
  int_of_hex (Sha512.hexdigest
    "aaaaaaaaaaaaaaaaaaaaaaaaaaaaaaaaaaaaaaaaaaaaaaaaaaaaaaaaaaaaaaaaaaaaaaaaaaaaaaaaaaaaaaaaaaaaaaaaaaaaaaaaaaaaaaaa")
  mod 2 ^ 31 = 1615556810.
Proof. vm_compute. reflexivity. Qed.

Example shlex_ex1 :
  Shlex.split "gen 1   $SEED  $PATH" = Some ["gen"; "1"; "$SEED"; "$PATH"].
Proof. reflexivity. Qed.
Example shlex_ex2 :
  Shlex.split "a 'b c' d\ e 'f\g' x'y'z" = Some ["a"; "b c"; "d e"; "f\g"; "xyz"].
Proof. reflexivity. Qed.
Example shlex_ex4 :
  let q := String "034"%char EmptyString in
  Shlex.split ("a " ++ q ++ "b\c \" ++ q ++ " d" ++ q ++ " " ++ q ++ q)
  = Some ["a"; "b\c " ++ q ++ " d"; EmptyString].
Proof. reflexivity. Qed.
Example shlex_ex3 : Shlex.split "gen 'open" = None.
Proof. reflexivity. Qed.

Example hash_command_ex : _hash_command "gen 1 $SEED" = "1148806096".
Proof. vm_compute. reflexivity. Qed.

Example key_regex_ex :
  List.map key_regex_match ["1.in"; "a"; "-a"; "a_b-c.d"; "a/b"; "testdata.yaml"]
  = [true; false; false; true; false; true].
Proof. reflexivity. Qed.

(** ** Seeds *)

Lemma hex_value_digit (d : Z) :
  0 <= d < 16 -> hex_value (Sha512.hex_digit d) = d.
Proof.
  intros Hd.
  assert (Hn : exists n : nat, (n < 16)%nat /\ d = Z.of_nat n).
  { exists (Z.to_nat d). lia. }
  destruct Hn as (n & Hn & ->).
  do 16 (destruct n as [|n]; [reflexivity|]). lia.
Qed.

Lemma int_of_hex_pairs (bs : list Z) (acc : Z) :
  Forall (fun b => 0 <= b < 256) bs ->
  List.fold_left (fun a c => a * 16 + hex_value c)
    (List.concat
       (List.map (fun b => [Sha512.hex_digit (b / 16); Sha512.hex_digit (b mod 16)]) bs))
    acc
  = List.fold_left (fun a b => a * 256 + b) bs acc.
Proof.
  intros H. revert acc. induction H as [|b bs Hb _ IH]; intros acc; [reflexivity|].
  cbn [List.map List.concat List.app List.fold_left].
  rewrite !hex_value_digit.
  - rewrite IH. f_equal. pose proof (Z.div_mod b 16). lia.
  - apply Z.mod_pos_bound. lia.
  - split; [apply Z.div_pos; lia | apply Z.div_lt_upper_bound; lia].
Qed.

Lemma be_bytes_range (k : nat) (n : Z) :
  Forall (fun b => 0 <= b < 256) (Sha512.be_bytes k n).
Proof.
  revert n. induction k as [|k IH]; intros n; cbn; [constructor|].
  apply Forall_app. split; [apply IH|].
  constructor; [apply Z.mod_pos_bound; lia | constructor].
Qed.

Lemma digest_range (msg : string) :
  Forall (fun b => 0 <= b < 256) (Sha512.digest msg).
Proof.
  unfold Sha512.digest.
  induction (Sha512.digest_words msg) as [|w ws IH]; cbn [List.map List.concat].
  - constructor.
  - apply Forall_app. split; [apply be_bytes_range | exact IH].
Qed.

(** [int(h.hexdigest(), 16)] is the digest read as a big-endian integer *)
Lemma int_of_hexdigest (msg : string) :
  int_of_hex (Sha512.hexdigest msg) = Sha512.be (Sha512.digest msg).
Proof.
  unfold int_of_hex, Sha512.hexdigest, Sha512.be.
  rewrite list_ascii_of_string_of_list_ascii.
  apply int_of_hex_pairs, digest_range.
Qed.

(** C7: the seed of a command template is its SHA-512 digest, read as an
    integer, modulo 2^31, printed in decimal; it lies in [0, 2^31) and is
    a function of the template text alone. *)
Theorem hash_command_is_sha512_mod_2_31 (command : string) :
  exists seed : Z,
    _hash_command command = Py.str_of_Z seed
    /\ seed = Sha512.be (Sha512.digest command) mod 2 ^ 31
    /\ 0 <= seed < 2 ^ 31.
Proof.
  exists (int_of_hex (Sha512.hexdigest command) mod 2 ^ 31).
  split; [reflexivity|]. split.
  - now rewrite int_of_hexdigest.
  - apply Z.mod_pos_bound. lia.
Qed.

(** ** Command interpolation *)


Lemma parse_command_tokens (command gen_path path program : string)
      (tokens : list string) :
  Shlex.split command = Some (program :: tokens) ->
  _parse_command command gen_path path
  = Ok (OsPath.join gen_path program,
        List.map (substitute (_hash_command command) path) tokens).
Proof. intros H. unfold _parse_command. rewrite H. reflexivity. Qed.

Lemma parse_command_inv (command gen_path path program : string)
      (arguments : list string) :
  _parse_command command gen_path path = Ok (program, arguments) ->
  exists token0 tokens,
    Shlex.split command = Some (token0 :: tokens)
    /\ program = OsPath.join gen_path token0
    /\ arguments = List.map (substitute (_hash_command command) path) tokens.
Proof.
  unfold _parse_command. destruct (Shlex.split command) as [[|t0 ts]|]; try discriminate.
  intros [= <- <-]. eauto.
Qed.

(** C8: an argument token that starts with [$SEED] becomes the decimal
    seed, whatever follows the placeholder in the token; a token that is
    not [$PATH] and does not start with [$SEED] is left as it is. *)
Theorem parse_command_seed_tokens (command gen_path path program : string)
        (tokens : list string) (i : nat) (a : string) :
  Shlex.split command = Some (program :: tokens) ->
  tokens !! i = Some a ->
  exists arguments,
    _parse_command command gen_path path
    = Ok (OsPath.join gen_path program, arguments)
    /\ length arguments = length tokens
    /\ (Py.startswith a "$SEED" = true ->
        arguments !! i = Some (_hash_command command))
    /\ (a <> "$PATH" -> Py.startswith a "$SEED" = false ->
        arguments !! i = Some a).
Proof.
  intros Hsplit Hi.
  exists (List.map (substitute (_hash_command command) path) tokens).
  split; [now apply parse_command_tokens|].
  split; [apply length_map|].
  assert (Hl : List.map (substitute (_hash_command command) path) tokens !! i
               = Some (substitute (_hash_command command) path a)).
  { change (List.map ?f ?l) with (f <$> l). rewrite list_lookup_fmap, Hi. reflexivity. }
  rewrite Hl. unfold substitute. split.
  - intros Hseed. destruct (String.eqb_spec a "$PATH") as [->|_]; [discriminate|].
    now rewrite Hseed.
  - intros Hpath Hseed. destruct (String.eqb_spec a "$PATH") as [->|_]; [congruence|].
    now rewrite Hseed.
Qed.

Lemma parse_command_seed_tokens_witness :
  exists arguments,
    _parse_command "gen 1 $SEEDxyz keep$SEED" "/p/generators" "1.in"
    = Ok ("/p/generators/gen", arguments)
    /\ length arguments = 3%nat
    /\ (Py.startswith "$SEEDxyz" "$SEED" = true ->
        arguments !! 1%nat = Some (_hash_command "gen 1 $SEEDxyz keep$SEED"))
    /\ ("$SEEDxyz" <> "$PATH" -> Py.startswith "$SEEDxyz" "$SEED" = false ->
        arguments !! 1%nat = Some "$SEEDxyz").
Proof.
  apply (parse_command_seed_tokens "gen 1 $SEEDxyz keep$SEED" "/p/generators" "1.in"
           "gen" ["1"; "$SEEDxyz"; "keep$SEED"] 1 "$SEEDxyz"); reflexivity.
Defined.

Example parse_command_ex :
  _parse_command "gen 1 $SEEDxyz keep$SEED $PATH" "/p/generators" "1.in"
  = Ok ("/p/generators/gen", ["1"; "784204604"; "keep$SEED"; "1.in"]).
Proof. vm_compute. reflexivity. Qed.

(** ** Order of the newly generated extensions *)

Lemma partition_new_extensions (items : pydict) :
  forall (old new : list string) (gen : option yaml),
    let r := snd (fst (partition_extensions items old new gen)) in
    (forall e, In e new -> In e r)
    /\ (forall e g, In (e, g) items -> is_generated g = false -> In e r)
    /\ (List.hd_error new = Some "ans"
        \/ (exists g, In ("ans", g) items /\ is_generated g = false) ->
        List.hd_error r = Some "ans").
Proof.
  induction items as [|[ext g] items IH]; intros old new gen; cbn zeta.
  - cbn. split; [auto|]. split; [intros ? ? []|].
    intros [H|(g & [] & _)]. exact H.
  - cbn [partition_extensions].
    destruct (is_generated g) eqn:Hg.
    + destruct (IH (old ++ [ext])%list new (Some g)) as (Ha & Hb & Hc).
      split; [exact Ha|]. split.
      * intros e g' [[= <- <-]|Hin] Hg'; [congruence | eauto].
      * intros [H|(g' & [[= <-]|Hin] & Hg')]; [auto | congruence | eauto].
    + destruct (String.eqb_spec ext "ans") as [->|Hne].
      * destruct (IH old ("ans" :: new) (Some g)) as (Ha & Hb & Hc).
        split; [intros e He; apply Ha; now right|]. split.
        -- intros e g' [[= <- <-]|Hin] Hg'; [apply Ha; now left | eauto].
        -- intros _. apply Hc. now left.
      * destruct (IH old (new ++ [ext])%list (Some g)) as (Ha & Hb & Hc).
        split; [intros e He; apply Ha, in_or_app; now left|]. split.
        -- intros e g' [[= <- <-]|Hin] Hg';
             [apply Ha, in_or_app; right; now left | eauto].
        -- intros [H|(g' & [[= Heq]|Hin] & Hg')]; [|congruence|eauto].
           apply Hc. left. destruct new; [discriminate | exact H].
Qed.

(** when [ans] is among the newly generated extensions of a config, it is
    the first of [new_extensions], and every other one comes after it *)
Lemma ans_heads_new_extensions (exts : pydict) (g : yaml) :
  In ("ans", g) exts -> is_generated g = false ->
  exists rest,
    new_extensions_of exts = "ans" :: rest
    /\ forall e g', In (e, g') exts -> is_generated g' = false ->
                    e <> "ans" -> In e rest.
Proof.
  intros Hin Hg. unfold new_extensions_of.
  destruct (partition_new_extensions exts ["in"] [] None) as (_ & Hb & Hc).
  cbn zeta in Hb, Hc.
  destruct (snd (fst (partition_extensions exts ["in"] [] None))) as [|x rest] eqn:Hr.
  - exfalso. assert (H : @List.hd_error string [] = Some "ans") by (apply Hc; eauto).
    discriminate.
  - assert (H : List.hd_error (x :: rest) = Some "ans") by (apply Hc; eauto).
    injection H as ->. exists rest. split; [reflexivity|].
    intros e g' He Hg' Hne. destruct (Hb e g' He Hg') as [Heq|Hrest]; [congruence | exact Hrest].
Qed.

Example new_extensions_ex :
  partition_extensions
    [("png", YStr "viz"); ("ans", YStr "sol"); ("hint", YStr "generated")]
    ["in"] [] None
  = (["in"; "hint"], ["ans"; "png"], Some (YStr "generated")).
Proof. reflexivity. Qed.

(** ** Runs of the engine on the sample package *)

Example generate_then_clean :
  let m := YDict [("sample", YDict [("1.in", YStr "gen 1 $SEED")])] in
  let '(r1, s1) := main (Sample.collaborators m) false "/p"
                        (Sample.start "/" Sample.files) in
  let '(r2, s2) := main (Sample.collaborators m) true "/p" s1 in
  r1 = Ok 0
  /\ fs s1 !! "/p/data/sample/1.in" = Some (File "/p/generators/gen 1 1148806096")
  /\ r2 = Ok 0
  /\ fs s2 !! "/p/data/sample/1.in" = None.
Proof. vm_compute. repeat split. Qed.

(** C1: [clean] removes the [.in] file of a test case declared with a
    null generator: the test-case branch of [_clean_single] does not look
    at the generator, unlike the two other branches.  ([run] leaves the
    file alone.) *)
Theorem clean_deletes_manual_testcase :
  let before := Sample.start "/" (Cases.with_manual "1.in") in
  let after_clean :=
    main (Sample.collaborators Cases.manual_manifest) true "/p" before in
  let after_run :=
    main (Sample.collaborators Cases.manual_manifest) false "/p" before in
  fs before !! "/p/data/1.in" = Some (File "by hand")
  /\ fst after_clean = Ok 0
  /\ fs (snd after_clean) !! "/p/data/1.in" = None
  /\ fst after_run = Ok 0
  /\ fs (snd after_run) !! "/p/data/1.in" = Some (File "by hand").
Proof. vm_compute. repeat split. Qed.

(** C2: with the extensions [ans: sol] and [png: viz] configured, both
    files are produced by [viz]: the generation loop of
    [_generate_extensions] runs the chain left in [gen] by the loop before
    it, that of the last configured extension, and [sol] is never run. *)
Theorem extensions_run_last_chain :
  let before := Sample.start "/p/data" (Cases.with_manual "x.in") in
  let after :=
    main (Sample.collaborators Cases.two_extensions_manifest) false "/p" before in
  fst after = Ok 0
  /\ List.map inv_program (calls (snd after)) = ["/p/viz"; "/p/viz"]
  /\ fs (snd after) !! "/p/data/x.ans" = Some (File "/p/viz ")
  /\ fs (snd after) !! "/p/data/x.png" = Some (File "/p/viz ").
Proof. vm_compute. repeat split. Qed.

(** C3: the scan after a group tests the bare names that [os.listdir]
    returns, so they are looked up in the working directory of the
    process: run from [/], the hand-written [x.in] of the data directory
    gets no answer file; run from the data directory itself, it does. *)
Theorem post_group_scan_depends_on_cwd :
  let files := Cases.with_manual "x.in" in
  let C := Sample.collaborators Cases.ans_manifest in
  let elsewhere := main C false "/p" (Sample.start "/" files) in
  let inside := main C false "/p" (Sample.start "/p/data" files) in
  dict_mem "x.in" [("config", YDict Cases.ans_extension)] = false
  /\ fst elsewhere = Ok 0
  /\ calls (snd elsewhere) = []
  /\ fs (snd elsewhere) = files
  /\ fst inside = Ok 0
  /\ List.map inv_program (calls (snd inside)) = ["/p/sol"]
  /\ fs (snd inside) !! "/p/data/x.ans" = Some (File "/p/sol ").
Proof. vm_compute. repeat split. Qed.

(** ** The merge filter of group generators *)

Example merge_filter_example :
  let files := ["1.in"; "1.ans"; "2.in"; "stray.txt"; "3.ans"; "noext"] in
  let config := [("extensions", YDict [("ans", YStr "generated")])] in
  adopted_files config files = ["1.in"; "1.ans"; "2.in"].
Proof. reflexivity. Qed.

(** C4: for a name that ends in a dot the extension is empty and
    [fname[:-len(ext)]] is [fname[:0]]: the file looked for is [in], not
    the [.in] file of the same base name.  With the empty extension
    configured as generated, [foo.] is dropped although [foo.in] was
    produced with it, and it is adopted next to a file named [in].  The
    other names of the example are treated as the rule says. *)
Theorem merge_filter_empty_extension :
  let exts := [("ans", YStr "generated"); ("", YStr "generated")] in
  let config := [("extensions", YDict exts)] in
  let after := main Cases.group_collaborators false "/p"
                    (Sample.start "/" Sample.files) in
  adopted_by_rule exts ["foo."; "foo.in"] "foo." = true
  /\ merge_adopts config ["foo."; "foo.in"] "foo." = Ok false
  /\ adopted_by_rule exts ["foo."; "in"] "foo." = false
  /\ merge_adopts config ["foo."; "in"] "foo." = Ok true
  /\ fst after = Ok 0
  /\ List.map (fun n => bool_decide (is_Some (fs (snd after) !! ("/p/data/grp/" ++ n))))
              ["1.in"; "1.ans"; "2.in"; "stray.txt"; "foo."; "foo.in"]
     = [true; true; true; false; false; true].
Proof. vm_compute. repeat split. Qed.

(** ** Merging configs *)

Lemma merge_extensions_missing (ext : string) (gen : yaml) (rest : pydict)
      (config exts : pydict) :
  truthy gen = false ->
  dict_get "extensions" config = Some (YDict exts) ->
  dict_get ext exts = None ->
  merge_extensions ((ext, gen) :: rest) config = Raise (KeyError ext).
Proof.
  intros Hf Hc He. cbn [merge_extensions]. rewrite Hc, Hf. cbn [negb].
  assert (Hd : dict_del ext exts = None).
  { clear Hc. induction exts as [|[k v] exts IH]; [reflexivity|].
    cbn [dict_get dict_del] in *. destruct (String.eqb k ext); [discriminate|].
    now rewrite IH. }
  now rewrite Hd.
Qed.

(** C10: a manifest that passes validation and whose child scope sets
    [ans] to null, the parent having no [ans] entry, makes
    [_merge_configs] raise [KeyError]; it is raised while the manifest is
    entered and leaves [main] as it is, not being a [GeneratorError]. *)
Theorem null_override_raises_KeyError :
  exists (m : yaml) (scope_config : yaml) (parent : pydict),
    m = Cases.null_override_manifest
    /\ dict_get "sample" [("sample", YDict [("config", scope_config)])]
       = Some (YDict [("config", scope_config)])
    /\ (forall s, _validate_config scope_config "/p/data/sample" s = (Ok tt, s))
    /\ truthy YNull = false
    /\ config_extensions parent = Ok []
    /\ _merge_configs parent scope_config = Raise (KeyError "ans")
    /\ fst (main (Sample.collaborators m) false "/p" (Sample.start "/" Sample.files))
       = Raise (KeyError "ans")
    /\ fst (main (Sample.collaborators m) true "/p" (Sample.start "/" Sample.files))
       = Raise (KeyError "ans")
    /\ fst (main (Sample.collaborators Cases.without_override_manifest) false "/p"
                 (Sample.start "/" Sample.files))
       = Ok 0.
Proof.
  exists Cases.null_override_manifest, Cases.null_override, _DEFAULT_CONFIG.
  split; [reflexivity|]. split; [reflexivity|]. split; [intros s; reflexivity|].
  split; [reflexivity|]. split; [reflexivity|].
  split; [apply (merge_extensions_missing "ans" YNull [] _DEFAULT_CONFIG []); reflexivity|].
  vm_compute. repeat split.
Qed.

(** ** Reasoning about computations in [M] *)

Lemma bind_ok_inv {A B} (m : M A) (k : A -> M B) (s s' : state) (b : B) :
  bind m k s = (Ok b, s') ->
  exists a s1, m s = (Ok a, s1) /\ k a s1 = (Ok b, s').
Proof.
  unfold bind. destruct (m s) as [[a|e] s1]; [eauto | discriminate].
Qed.

Lemma bind_ok {A B} (m : M A) (k : A -> M B) (s s1 : state) (a : A) :
  m s = (Ok a, s1) -> bind m k s = k a s1.
Proof. unfold bind. now intros ->. Qed.

Lemma bind_raise {A B} (m : M A) (k : A -> M B) (s s1 : state) (e : exn) :
  m s = (Raise e, s1) -> bind m k s = (Raise e, s1).
Proof. unfold bind. now intros ->. Qed.

(** *** Computations that only log warnings *)


Lemma add_warnings_nil (s : state) : add_warnings [] s = s.
Proof. destruct s. unfold add_warnings, set_warnings. cbn. now rewrite app_nil_r. Qed.

Lemma add_warnings_app (w1 w2 : list string) (s : state) :
  add_warnings w2 (add_warnings w1 s) = add_warnings (w1 ++ w2) s.
Proof. unfold add_warnings, set_warnings. cbn. now rewrite app_assoc. Qed.


Lemma quiet_ret {A} (a : A) : quiet (ret a).
Proof. exists (Ok a), []. intros s. now rewrite add_warnings_nil. Qed.

Lemma quiet_raise {A} (e : exn) : quiet (@raise A e).
Proof. exists (Raise e), []. intros s. now rewrite add_warnings_nil. Qed.

Lemma quiet_lift {A} (r : result A) : quiet (lift r).
Proof. exists r, []. intros s. now rewrite add_warnings_nil. Qed.

Lemma quiet_warning (msg : string) : quiet (warning msg).
Proof. exists (Ok tt), [msg]. intros s. reflexivity. Qed.

Lemma quiet_bind {A B} (m : M A) (k : A -> M B) :
  quiet m -> (forall a, quiet (k a)) -> quiet (bind m k).
Proof.
  intros (r & w & Hm) Hk. destruct r as [a|e].
  - destruct (Hk a) as (r2 & w2 & Hk2). exists r2, (w ++ w2)%list.
    intros s. unfold bind. now rewrite Hm, Hk2, add_warnings_app.
  - exists (Raise e), w. intros s. unfold bind. now rewrite Hm.
Qed.

Lemma quiet_for_each {A} (l : list A) (body : A -> M unit) :
  (forall x, quiet (body x)) -> quiet (for_each l body).
Proof.
  intros Hb. induction l as [|x l IH]; cbn [for_each].
  - apply quiet_ret.
  - apply quiet_bind; [apply Hb | intros _; exact IH].
Qed.

#[local] Hint Resolve quiet_ret quiet_raise quiet_lift quiet_warning : quiet.

Lemma quiet_validate_generator (gen : yaml) (path : string) (allow_none : bool) :
  quiet (_validate_generator gen path allow_none).
Proof.
  unfold _validate_generator, error.
  destruct (is_none gen && allow_none); [apply quiet_ret|].
  apply quiet_bind.
  - destruct (as_list gen); auto with quiet.
  - intros _. apply quiet_for_each. intros [| | |c| |]; auto with quiet.
    destruct (Shlex.split c) as [[|? ?]|]; auto with quiet.
Qed.

Lemma quiet_validate_config (config : yaml) (path : string) :
  quiet (_validate_config config path).
Proof.
  unfold _validate_config, error. destruct config; auto with quiet.
  apply quiet_for_each. intros [key value].
  destruct (String.eqb key "extensions"); [|apply quiet_warning].
  destruct value; auto with quiet.
  apply quiet_for_each. intros [ext gen]. apply quiet_bind.
  - destruct (String.eqb ext "in"); auto with quiet.
  - intros _. destruct (is_none gen); [apply quiet_ret|].
    destruct (is_generated gen); [apply quiet_ret|].
    apply quiet_validate_generator.
Qed.

Lemma quiet_validate_testdata_yaml (v : yaml) (path : string) :
  quiet (_validate_testdata_yaml v path).
Proof. unfold _validate_testdata_yaml, error. destruct v; auto with quiet. Qed.

(** what a quiet computation does in one state, it does in all *)
Lemma quiet_transfer {A} (m : M A) (r : result A) (s s' : state) :
  quiet m -> m s = (r, s') -> exists w, returns m r w.
Proof.
  intros (r0 & w & Hm) H. rewrite Hm in H. injection H as <- _. eauto.
Qed.

(** *** Induction on manifest values *)

Lemma yaml_nested_ind (P : yaml -> Prop) :
  P YNull -> (forall b, P (YBool b)) -> (forall n, P (YInt n)) ->
  (forall s, P (YStr s)) ->
  (forall l, Forall P l -> P (YList l)) ->
  (forall d, Forall (fun kv => P (snd kv)) d -> P (YDict d)) ->
  forall v, P v.
Proof.
  intros Hnull Hbool Hint Hstr Hlist Hdict.
  fix IH 1. intros [ |b|n|s|l|d].
  - exact Hnull.
  - apply Hbool.
  - apply Hint.
  - apply Hstr.
  - apply Hlist.
    exact ((fix go (l : list yaml) : Forall P l :=
              match l with
              | [] => @List.Forall_nil _ P
              | x :: l' => @List.Forall_cons _ P x l' (IH x) (go l')
              end) l).
  - apply Hdict.
    exact ((fix go (d : list (string * yaml)) : Forall (fun kv => P (snd kv)) d :=
              match d with
              | [] => @List.Forall_nil _ _
              | kv :: d' => @List.Forall_cons _ (fun kv => P (snd kv)) kv d' (IH (snd kv)) (go d')
              end) d).
Qed.

(** ** The walk of [__enter__] and duplicate paths *)

Lemma first_dup_app (seen : gset string) (a b : list string) :
  first_dup seen (a ++ b)
  = match first_dup seen a with
    | Some p => Some p
    | None => first_dup (list_to_set a ∪ seen) b
    end.
Proof.
  revert seen. induction a as [|x a IH]; intros seen; cbn [first_dup app].
  - f_equal. set_solver.
  - destruct (bool_decide (x ∈ seen)); [reflexivity|]. rewrite IH.
    destruct (first_dup _ a); [reflexivity|]. f_equal. set_solver.
Qed.

Lemma first_dup_None (seen : gset string) (ps : list string) :
  first_dup seen ps = None <-> NoDup ps /\ forall p, p ∈ ps -> p ∉ seen.
Proof.
  revert seen. induction ps as [|x ps IH]; intros seen; cbn [first_dup].
  - split; [|reflexivity]. intros _. split; [constructor | set_solver].
  - case_bool_decide as Hx.
    + split; [discriminate|]. intros [_ H]. exfalso. apply (H x); set_solver.
    + rewrite IH. rewrite NoDup_cons. split.
      * intros [Hnd H]. split; [split; [|exact Hnd]|].
        -- intros Hin. apply (H x Hin). set_solver.
        -- intros p Hp. apply elem_of_cons in Hp as [->|Hp]; [exact Hx|].
           specialize (H p Hp). set_solver.
      * intros [[Hnotin Hnd] H]. split; [exact Hnd|].
        intros p Hp. specialize (H p). set_solver.
Qed.

Lemma first_dup_Some (seen : gset string) (ps : list string) (p : string) :
  first_dup seen ps = Some p ->
  exists l1 l2, ps = (l1 ++ p :: l2)%list /\ (p ∈ seen \/ p ∈ l1).
Proof.
  revert seen. induction ps as [|x ps IH]; intros seen; cbn [first_dup]; [discriminate|].
  case_bool_decide as Hx.
  - intros [= ->]. exists [], ps. split; [reflexivity | now left].
  - intros H. destruct (IH _ H) as (l1 & l2 & -> & Hp).
    exists (x :: l1), l2. split; [reflexivity|].
    destruct Hp as [Hp|Hp]; [|right; now right].
    apply elem_of_union in Hp as [Hp|Hp]; [|now left].
    apply elem_of_singleton in Hp as ->. right. left.
Qed.

Lemma same_world_refl (s : state) : same_world s s.
Proof. repeat split. Qed.

Lemma same_world_trans (s1 s2 s3 : state) :
  same_world s1 s2 -> same_world s2 s3 -> same_world s1 s3.
Proof.
  unfold same_world. intros (?&?&?&?&?) (?&?&?&?&?). repeat split; congruence.
Qed.

Lemma same_world_add_warnings (w : list string) (s : state) :
  same_world s (add_warnings w s).
Proof. repeat split. Qed.

Lemma walk_outcome_ret (s : state) : walk_outcome (ret tt s) s [].
Proof.
  split; [apply same_world_refl|]. cbn. split; [reflexivity | set_solver].
Qed.

Lemma walk_outcome_bind (m1 m2 : M unit) (s : state) (ps1 ps2 : list string) :
  walk_outcome (m1 s) s ps1 ->
  (forall s1, same_world s s1 -> paths s1 = list_to_set ps1 ∪ paths s ->
              walk_outcome (m2 s1) s1 ps2) ->
  walk_outcome ((m1 ;;; m2) s) s (ps1 ++ ps2).
Proof.
  unfold walk_outcome, bind. destruct (m1 s) as [r1 s1]. cbn [fst snd].
  intros [Hw H1] H2. rewrite first_dup_app.
  destruct (first_dup (paths s) ps1) as [p|].
  - subst r1. cbn. split; [exact Hw | reflexivity].
  - destruct H1 as [-> Hp]. specialize (H2 s1 Hw Hp).
    destruct (m2 s1) as [r2 s2]. cbn [fst snd] in *. destruct H2 as [Hw2 H2].
    split; [eapply same_world_trans; eassumption|].
    rewrite Hp in H2. destruct (first_dup _ ps2); [exact H2|].
    destruct H2 as [-> Hp2]. split; [reflexivity|].
    rewrite Hp2, list_to_set_app_L. set_solver.
Qed.

Lemma walk_outcome_then_ret (m : M unit) (s : state) (ps : list string) :
  walk_outcome (m s) s ps -> walk_outcome ((m ;;; ret tt) s) s ps.
Proof.
  intros H. rewrite <- (app_nil_r ps). apply walk_outcome_bind; [exact H|].
  intros s1 _ _. apply walk_outcome_ret.
Qed.

Lemma walk_outcome_quiet {A} (m1 : M A) (k : A -> M unit) (a : A)
      (w : list string) (s : state) (ps : list string) :
  returns m1 (Ok a) w ->
  (forall s1, same_world s s1 -> paths s1 = paths s -> walk_outcome (k a s1) s1 ps) ->
  walk_outcome (bind m1 k s) s ps.
Proof.
  intros Hm Hk. unfold bind. rewrite Hm.
  specialize (Hk (add_warnings w s) (same_world_add_warnings w s) eq_refl).
  destruct Hk as [Hw Hk]. split; [|exact Hk].
  eapply same_world_trans; [apply same_world_add_warnings | exact Hw].
Qed.

Lemma enter_handler_outcome (kind : GeneratedKind) (path : string) (gen : yaml)
      (config : pydict) (s : state) :
  walk_outcome (enter_handler kind path gen config s) s [path].
Proof.
  unfold walk_outcome, enter_handler, bind, get, error, raise, modify.
  cbn [first_dup]. case_bool_decide; cbn.
  - split; [apply same_world_refl | reflexivity].
  - split; [repeat split|]. split; [reflexivity | set_solver].
Qed.

Lemma entry_paths_cons (path key : string) (value : yaml) (l : pydict) :
  entry_paths path ((key, value) :: l)
  = ((if String.eqb key "config" then []
      else if String.eqb key "testdata.yaml" then [OsPath.join path key]
      else match value with
           | YDict _ => leaf_paths value (OsPath.join path key)
           | _ => [OsPath.join path key]
           end) ++ entry_paths path l)%list.
Proof. reflexivity. Qed.

Lemma leaf_outcome (kind : GeneratedKind) (path : string) (gen : yaml)
      (config : pydict) (b : bool) (check : M unit) (sV sV' sW : state) :
  quiet check ->
  (check ;;; no_handler kind path gen config ;;;
   (if b then call_post None [] path config else ret tt)) sV = (Ok tt, sV') ->
  walk_outcome
    ((check ;;; enter_handler kind path gen config ;;;
      (if b then call_post None [] path config else ret tt)) sW) sW [path].
Proof.
  intros Hq HV. apply bind_ok_inv in HV as (a & s1 & Hc & _).
  destruct (quiet_transfer _ _ _ _ Hq Hc) as (w & Hr).
  eapply walk_outcome_quiet; [exact Hr|]. intros s1' _ _.
  assert (Htail : (if b then call_post None [] path config else ret tt) = ret tt)
    by (destruct b; reflexivity).
  rewrite Htail. apply walk_outcome_then_ret, enter_handler_outcome.
Qed.

Lemma walk_items_outcome (l : pydict) :
  Forall (fun kv => walk_sim (snd kv)) l ->
  forall path cfg sV sV' sW,
    walk_items no_handler None (_walk_group no_handler None) path cfg l sV
    = (Ok tt, sV') ->
    walk_outcome
      (walk_items enter_handler None (_walk_group enter_handler None) path cfg l sW)
      sW (entry_paths path l).
Proof.
  induction 1 as [|[key value] l Hv _ IH]; intros path cfg sV sV' sW HV.
  - apply walk_outcome_ret.
  - cbn [walk_items] in *. apply bind_ok_inv in HV as ([] & s1 & He & Hrest).
    rewrite entry_paths_cons. apply walk_outcome_bind;
      [|intros s1' _ _; eapply IH; exact Hrest].
    clear Hrest IH. unfold error in *.
    destruct (String.eqb key ""); [discriminate|].
    destruct (String.eqb key "config"); [apply walk_outcome_ret|].
    destruct (negb (key_regex_match key)); [discriminate|].
    destruct (String.eqb key "testdata.yaml").
    + apply bind_ok_inv in He as (a & s2 & Hc & _).
      destruct (quiet_transfer _ _ _ _ (quiet_validate_testdata_yaml _ _) Hc)
        as (w & Hr).
      eapply walk_outcome_quiet; [exact Hr|]. intros s1' _ _.
      apply enter_handler_outcome.
    + destruct value;
        try (eapply leaf_outcome; [apply quiet_validate_generator | exact He]).
      cbn [snd] in Hv. eapply Hv. exact He.
Qed.

Lemma walk_group_outcome (m : yaml) : walk_sim m.
Proof.
  induction m as [ | | | | |items IH] using yaml_nested_ind;
    intros path cfg sV sV' sW HV; try discriminate.
  cbn [_walk_group] in *.
  apply bind_ok_inv in HV as ([] & s1 & Hc & HV).
  apply bind_ok_inv in HV as (config & s2 & Hm & HV).
  apply bind_ok_inv in HV as ([] & s3 & Hi & _).
  destruct (quiet_transfer _ _ _ _ (quiet_validate_config _ _) Hc) as (w & Hr).
  eapply walk_outcome_quiet; [exact Hr|]. intros s1' _ _.
  unfold lift in Hm. injection Hm as Hm _. rewrite Hm.
  change (bind (lift (Ok config)) ?k s1') with (k config s1').
  apply walk_outcome_then_ret.
  eapply (walk_items_outcome items IH). exact Hi.
Qed.

Lemma mkdtemp_inv (dir prefix tmp : string) (s s1 : state) :
  Fs.mkdtemp dir prefix s = (Ok tmp, s1) ->
  tmp <> ""
  /\ Fs.stat s tmp = None
  /\ s1 = set_fs (<[Fs.resolve s tmp := Dir]> (fs s)) (set_tmp_count (S (tmp_count s)) s).
Proof.
  unfold Fs.mkdtemp, Fs.mkdir.
  set (name := OsPath.join dir (prefix ++ pretty (tmp_count s))).
  change (Fs.stat (set_tmp_count (S (tmp_count s)) s) name) with (Fs.stat s name).
  change (Fs.resolve (set_tmp_count (S (tmp_count s)) s) name) with (Fs.resolve s name).
  destruct (Fs.stat s name) eqn:Hstat; [discriminate|].
  destruct (String.eqb_spec name "") as [He|Hne]; cbn [negb andb]; [discriminate|].
  destruct (Fs.parent_is_dir _ _); [|discriminate].
  intros [= <- <-]. auto.
Qed.

Lemma stat_after_mkdtemp (s s2 : state) (tmp p : string) (c : string) :
  tmp <> "" -> Fs.stat s tmp = None -> Fs.stat s p = Some (File c) ->
  cwd s2 = cwd s -> fs s2 = <[Fs.resolve s tmp := Dir]> (fs s) ->
  Fs.stat s2 p = Some (File c).
Proof.
  intros Hne Htmp Hp Hcwd Hfs. unfold Fs.stat, Fs.resolve in *.
  rewrite Hcwd, Hfs.
  destruct (String.eqb p ""); [discriminate|].
  destruct (String.eqb (Fs.normpath (OsPath.join (cwd s) p)) "/") eqn:Hroot;
    [discriminate|].
  rewrite lookup_insert_ne; [exact Hp|].
  intros Heq. destruct (String.eqb_spec tmp ""); [contradiction|].
  rewrite Heq, Hroot in Htmp. congruence.
Qed.

Lemma enter_unfold (C : Collaborators) (pb : Problem) (s s1 : state)
      (tmp bytes : string) (items : pydict) :
  Fs.mkdtemp Fs.gettempdir ("gendata-" ++ shortname pb ++ "-") s = (Ok tmp, s1) ->
  Fs.stat s (manifestfile pb) = Some (File bytes) ->
  yaml_load C bytes = Some (YDict items) ->
  GeneratorManifest_enter C pb s
  = (_walk enter_handler None
           {| problem := pb; tmpdir := tmp; manifest := YDict items |} ;;;
     ret {| problem := pb; tmpdir := tmp; manifest := YDict items |})
      (enter_state s tmp).
Proof.
  intros Hmk Hstat Hload. destruct (mkdtemp_inv _ _ _ _ _ Hmk) as (Hne & Htmp & ->).
  assert (Hs : Fs.stat (set_generator_cache []
                          (set_fs (<[Fs.resolve s tmp := Dir]> (fs s))
                                  (set_tmp_count (S (tmp_count s)) s)))
                       (manifestfile pb) = Some (File bytes))
    by (eapply stat_after_mkdtemp; eauto).
  unfold GeneratorManifest_enter. rewrite (bind_ok _ _ _ _ _ Hmk).
  cbv [bind modify get]. rewrite Hs, Hload. reflexivity.
Qed.

(** without duplicates the walk of [__enter__] goes through *)
Lemma enter_succeeds_without_duplicates (C : Collaborators) (pb : Problem)
      (s s1 sV : state) (tmp bytes : string) (m : yaml) :
  Fs.mkdtemp Fs.gettempdir ("gendata-" ++ shortname pb ++ "-") s = (Ok tmp, s1) ->
  Fs.stat s (manifestfile pb) = Some (File bytes) ->
  yaml_load C bytes = Some m ->
  _walk no_handler None {| problem := pb; tmpdir := tmp; manifest := m |} s1
  = (Ok tt, sV) ->
  NoDup (leaf_paths m (data_path pb)) ->
  exists s',
    GeneratorManifest_enter C pb s
    = (Ok {| problem := pb; tmpdir := tmp; manifest := m |}, s')
    /\ paths s' = list_to_set (leaf_paths m (data_path pb)).
Proof.
  intros Hmk Hstat Hload HV Hnd.
  destruct m as [ | | | | |items]; try discriminate.
  rewrite (enter_unfold C pb s s1 tmp bytes items Hmk Hstat Hload).
  unfold _walk in *. cbn [manifest problem] in *.
  pose proof (walk_group_outcome (YDict items) _ _ _ _ (enter_state s tmp) HV)
    as [Hw Hout].
  assert (Hfd : first_dup (paths (enter_state s tmp))
                          (leaf_paths (YDict items) (data_path pb)) = None).
  { apply first_dup_None. split; [exact Hnd|]. intros p _. cbn. set_solver. }
  rewrite Hfd in Hout.
  destruct (_walk_group enter_handler None (YDict items) (data_path pb)
                        _DEFAULT_CONFIG (enter_state s tmp)) as [r s'] eqn:HW.
  cbn [fst snd] in *. destruct Hout as [-> Hp].
  exists s'. split; [now rewrite (bind_ok _ _ _ _ _ HW)|].
  rewrite Hp. cbn. set_solver.
Qed.

(** ** Which generators a computation runs *)

Lemma silent_appends {A} (P : invocation -> Prop) (m : M A) :
  silent m -> appends P m.
Proof.
  intros H s r s' Hm. exists []. rewrite (H s r s' Hm), app_nil_r. auto.
Qed.

Lemma silent_ret {A} (a : A) : silent (ret a).
Proof. intros s r s' [= <- <-]. reflexivity. Qed.

Lemma silent_raise {A} (e : exn) : silent (@raise A e).
Proof. intros s r s' [= <- <-]. reflexivity. Qed.

Lemma silent_lift {A} (x : result A) : silent (lift x).
Proof. intros s r s' [= <- <-]. reflexivity. Qed.

Lemma silent_get : silent get.
Proof. intros s r s' [= <- <-]. reflexivity. Qed.

Lemma silent_warning (msg : string) : silent (warning msg).
Proof. intros s r s' [= <- <-]. reflexivity. Qed.

Lemma silent_bind {A B} (m : M A) (k : A -> M B) :
  silent m -> (forall a, silent (k a)) -> silent (bind m k).
Proof.
  intros Hm Hk s r s' H. unfold bind in H.
  destruct (m s) as [[a|e] s1] eqn:Hms.
  - rewrite (Hk a s1 r s' H). eapply Hm, Hms.
  - injection H as <- <-. eapply Hm, Hms.
Qed.

Lemma silent_try_finally {A} (body : M A) (cleanup : M unit) :
  silent body -> silent cleanup -> silent (try_finally body cleanup).
Proof.
  intros Hb Hc s r s' H. unfold try_finally in H.
  destruct (body s) as [rb s1] eqn:Hbs.
  destruct (cleanup s1) as [[[]|e] s2] eqn:Hcs; injection H as <- <-;
    rewrite (Hc _ _ _ Hcs); eapply Hb, Hbs.
Qed.

Lemma silent_try_except (body handler : M unit) :
  silent body -> silent handler -> silent (try_except body handler).
Proof.
  intros Hb Hh s r s' H. unfold try_except in H.
  destruct (body s) as [[[]|e] s1] eqn:Hbs.
  - injection H as <- <-. eapply Hb, Hbs.
  - rewrite (Hh _ _ _ H). eapply Hb, Hbs.
Qed.

Lemma silent_for_each {A} (l : list A) (body : A -> M unit) :
  (forall x, silent (body x)) -> silent (for_each l body).
Proof.
  intros Hb. induction l as [|x l IH]; cbn [for_each].
  - apply silent_ret.
  - apply silent_bind; [apply Hb | intros _; exact IH].
Qed.

Ltac silent_prim :=
  let H := fresh "H" in
  intros ? ? ? H; repeat case_match; simplify_eq; reflexivity.

Lemma silent_exists (p : string) : silent (Fs.exists_ p).
Proof. unfold Fs.exists_. silent_prim. Qed.
Lemma silent_isdir (p : string) : silent (Fs.isdir p).
Proof. unfold Fs.isdir. silent_prim. Qed.
Lemma silent_isfile (p : string) : silent (Fs.isfile p).
Proof. unfold Fs.isfile. silent_prim. Qed.
Lemma silent_getcwd : silent Fs.getcwd.
Proof. unfold Fs.getcwd. silent_prim. Qed.
Lemma silent_chdir (p : string) : silent (Fs.chdir p).
Proof. unfold Fs.chdir. silent_prim. Qed.
Lemma silent_unlink (p : string) : silent (Fs.unlink p).
Proof. unfold Fs.unlink. silent_prim. Qed.
Lemma silent_rmtree (p : string) : silent (Fs.rmtree p).
Proof. unfold Fs.rmtree. silent_prim. Qed.
Lemma silent_mkdir (p : string) : silent (Fs.mkdir p).
Proof. unfold Fs.mkdir. silent_prim. Qed.
Lemma silent_write_file (p c : string) : silent (Fs.write_file p c).
Proof. unfold Fs.write_file. silent_prim. Qed.
Lemma silent_chmod (p : string) : silent (Fs.chmod p).
Proof. unfold Fs.chmod. silent_prim. Qed.
Lemma silent_move (src dst : string) : silent (Fs.move src dst).
Proof. unfold Fs.move. silent_prim. Qed.
Lemma silent_copy (src dst : string) : silent (Fs.copy src dst).
Proof.
  intros s r s' H. unfold Fs.copy in H.
  destruct (Fs.stat s src) as [[c|]|]; try (injection H as <- <-; reflexivity).
  eapply silent_write_file, H.
Qed.
Lemma silent_listdir (p : string) : silent (Fs.listdir p).
Proof. unfold Fs.listdir. silent_prim. Qed.
Lemma silent_walk (p : string) : silent (Fs.walk p).
Proof. unfold Fs.walk. silent_prim. Qed.
Lemma silent_mkdtemp (dir prefix : string) : silent (Fs.mkdtemp dir prefix).
Proof.
  intros s r s' H. unfold Fs.mkdtemp in H.
  destruct (Fs.mkdir _ _) as [[[]|e] s1] eqn:Hmk; injection H as <- <-;
    apply silent_mkdir in Hmk; exact Hmk.
Qed.

#[local] Hint Resolve silent_ret silent_raise silent_lift silent_get silent_warning
  silent_exists silent_isdir silent_isfile silent_getcwd silent_chdir
  silent_unlink silent_rmtree silent_mkdir silent_write_file silent_chmod
  silent_move silent_copy silent_listdir silent_walk silent_mkdtemp : silent.

Ltac silent_step :=
  first [ solve [auto with silent]
        | apply silent_bind; [|intros ?]
        | apply silent_try_finally
        | apply silent_try_except
        | apply silent_for_each; intros ?
        | match goal with |- silent (if ?b then _ else _) => destruct b end
        | match goal with |- silent (match ?x with _ => _ end) => destruct x end ].

Lemma silent_rmtree_or_unlink (path : string) :
  silent (rmtree_or_unlink_if_exists path).
Proof. unfold rmtree_or_unlink_if_exists. repeat silent_step. Qed.

Lemma silent_ensure_directory_scan (fuel : nat) (path : string) (recursive : bool)
      (create : list string) :
  silent (ensure_directory_scan fuel path recursive create).
Proof.
  revert path create. induction fuel as [|fuel IH]; intros path create;
    cbn [ensure_directory_scan]; repeat silent_step.
Qed.

Lemma silent_ensure_directory_create (path : string) (create : list string) :
  silent (ensure_directory_create path create).
Proof.
  revert path. induction create as [|d create IH]; intros path;
    cbn [ensure_directory_create]; repeat silent_step.
Qed.

Lemma silent_ensure_directory (path : string) (recursive : bool) :
  silent (ensure_directory path recursive).
Proof.
  unfold ensure_directory. apply silent_bind.
  - apply silent_ensure_directory_scan.
  - intros ?. apply silent_ensure_directory_create.
Qed.

#[local] Hint Resolve silent_rmtree_or_unlink silent_ensure_directory : silent.

Lemma silent_get_generator (C : Collaborators) (self : GeneratorManifest)
      (path : string) :
  silent (_get_generator C self path).
Proof.
  unfold _get_generator, error. repeat silent_step.
  intros s r s' [= <- <-]. reflexivity.
Qed.

Lemma silent_merge_directory (config : pydict) (gen_dir target_dir : string)
      (entry : string * list string) :
  silent (merge_directory config gen_dir target_dir entry).
Proof. unfold merge_directory. destruct entry. repeat silent_step. Qed.

Lemma appends_bind {A B} (P : invocation -> Prop) (m : M A) (k : A -> M B) :
  appends P m ->
  (forall a, (exists s s1, m s = (Ok a, s1)) -> appends P (k a)) ->
  appends P (bind m k).
Proof.
  intros Hm Hk s r s' H. unfold bind in H.
  destruct (m s) as [[a|e] s1] eqn:Hms.
  - destruct (Hm _ _ _ Hms) as (n1 & E1 & F1).
    destruct (Hk a (ex_intro _ s (ex_intro _ s1 Hms)) _ _ _ H) as (n2 & E2 & F2).
    exists (n1 ++ n2)%list. rewrite E2, E1, app_assoc. split; [reflexivity|].
    apply Forall_app; auto.
  - injection H as <- <-. eapply Hm, Hms.
Qed.

Lemma appends_try_finally {A} (P : invocation -> Prop) (body : M A)
      (cleanup : M unit) :
  appends P body -> silent cleanup -> appends P (try_finally body cleanup).
Proof.
  intros Hb Hc s r s' H. unfold try_finally in H.
  destruct (body s) as [rb s1] eqn:Hbs.
  destruct (Hb _ _ _ Hbs) as (new & E & F). exists new. split; [|exact F].
  destruct (cleanup s1) as [[[]|e] s2] eqn:Hcs; injection H as <- <-;
    now rewrite (Hc _ _ _ Hcs).
Qed.

Lemma appends_for_each {A} (P : invocation -> Prop) (l : list A)
      (body : A -> M unit) :
  (forall x, In x l -> appends P (body x)) -> appends P (for_each l body).
Proof.
  induction l as [|x l IH]; intros Hb; cbn [for_each].
  - apply silent_appends, silent_ret.
  - apply appends_bind; [apply Hb; now left|].
    intros _ _. apply IH. intros y Hy. apply Hb. now right.
Qed.

Lemma appends_weaken {A} (P Q : invocation -> Prop) (m : M A) :
  (forall inv, P inv -> Q inv) -> appends P m -> appends Q m.
Proof.
  intros HPQ Hm s r s' H. destruct (Hm _ _ _ H) as (new & E & F).
  exists new. split; [exact E|]. eapply Forall_impl; eauto.
Qed.

Lemma appends_generator_run (C : Collaborators) (P : invocation -> Prop)
      (inv : invocation) :
  P inv -> appends P (generator_run C inv).
Proof.
  intros HP s r s' H. unfold generator_run in H.
  destruct (program_run C inv (fs s)) as [status fs']. injection H as <- <-.
  exists [inv]. split; [reflexivity | auto].
Qed.

Lemma get_generator_value (C : Collaborators) (self : GeneratorManifest)
      (path g : string) (s s1 : state) :
  _get_generator C self path s = (Ok g, s1) -> g = path.
Proof.
  unfold _get_generator, bind, get, ret, error, raise, modify.
  destruct (List.existsb _ _); [now intros [= <- _]|].
  destruct (Fs.mkdtemp _ _ s) as [[w|e] s2]; [|discriminate].
  destruct (program_compile C path w (fs s2)) as [[|]|]; try discriminate.
  now intros [= <- _].
Qed.

Ltac appends_silent := apply silent_appends; repeat silent_step.

Lemma appends_execute_command (C : Collaborators) (self : GeneratorManifest)
      (gen : yaml) (gen_path tmp_dir gen_dir path : string)
      (input_path : option string) (command : yaml) :
  In command (as_list gen) ->
  appends (interpolated gen gen_path path)
          (execute_command C self gen_path tmp_dir gen_dir path input_path command).
Proof.
  intros Hin. destruct command as [ | | |c| | ];
    try (apply silent_appends, silent_raise).
  unfold execute_command.
  apply appends_bind; [apply silent_appends, silent_lift|].
  intros [program arguments] (s & s1 & [= Hparse _]).
  apply parse_command_inv in Hparse as (t0 & tokens & Hsplit & -> & ->).
  apply appends_bind; [apply silent_appends, silent_get_generator|].
  intros g (s2 & s3 & Hg). apply get_generator_value in Hg as ->.
  apply appends_bind; [appends_silent|]. intros old_wd _.
  apply appends_bind; [appends_silent|]. intros _ _.
  apply appends_bind.
  - apply appends_generator_run. exists c, t0, tokens.
    repeat split; [exact Hin | exact Hsplit |]. cbn [inv_args].
    destruct tokens; reflexivity.
  - intros status _. appends_silent. apply silent_raise.
Qed.

Lemma appends_execute_commands (C : Collaborators) (self : GeneratorManifest)
      (gen : yaml) (gen_path tmp_dir gen_dir path : string) (l : list yaml) :
  (forall c, In c l -> In c (as_list gen)) ->
  forall input_path,
    appends (interpolated gen gen_path path)
            (execute_commands C self gen_path tmp_dir gen_dir path input_path l).
Proof.
  induction l as [|c l IH]; intros Hl input_path; cbn [execute_commands].
  - apply silent_appends, silent_ret.
  - apply appends_bind.
    + apply appends_execute_command, Hl. now left.
    + intros ip _. apply IH. intros c' Hc'. apply Hl. now right.
Qed.

Lemma appends_execute_generator (C : Collaborators) (self : GeneratorManifest)
      (gen : yaml) (gen_path tmp_dir gen_dir path : string)
      (input_filename output_filename : option string) :
  appends (interpolated gen gen_path path)
          (_execute_generator C self gen gen_path tmp_dir gen_dir path
                              input_filename output_filename).
Proof.
  unfold _execute_generator. apply appends_bind.
  - apply appends_execute_commands. auto.
  - intros ip _. appends_silent.
Qed.

Lemma appends_run_single (C : Collaborators) (self : GeneratorManifest)
      (kind : GeneratedKind) (path : string) (gen : yaml) (config : pydict) :
  appends (interpolated gen (generator_path (problem self)) (OsPath.basename path))
          (_run_single C self kind path gen config).
Proof.
  unfold _run_single.
  apply appends_bind; [appends_silent|]. intros _ _.
  destruct (kind_eqb kind TESTDATA_YAML); [appends_silent|].
  destruct (is_none gen); [appends_silent|].
  apply appends_bind; [appends_silent|]. intros tmp_dir _.
  apply appends_try_finally; [|auto with silent].
  apply appends_bind; [appends_silent|]. intros _ _.
  apply appends_bind; [apply appends_execute_generator|]. intros _ _.
  apply appends_bind; [appends_silent|]. intros entries _.
  apply silent_appends, silent_for_each. intros entry.
  apply silent_merge_directory.
Qed.

Lemma appends_generate_extensions (C : Collaborators) (self : GeneratorManifest)
      (path : string) (config : pydict) (tmp_dir : option string) (exts : pydict) :
  config_extensions config = Ok exts ->
  appends (fun inv =>
             exists ext gen,
               In ext (new_extensions_of exts)
               /\ chain_run_for_extensions exts = Some gen
               /\ interpolated gen (probdir (problem self))
                    (OsPath.basename (Py.slice_upto path (-2) ++ ext)) inv)
          (_generate_extensions C self path config tmp_dir).
Proof.
  intros Hexts. unfold _generate_extensions, new_extensions_of, chain_run_for_extensions.
  destruct (negb (Py.endswith path ".in")); [apply silent_appends, silent_raise|].
  rewrite Hexts. apply appends_bind; [apply silent_appends, silent_lift|].
  intros exts' (s & s1 & [= <- _]).
  destruct (partition_extensions exts ["in"] [] None) as [[old new] gen].
  cbn [fst snd].
  destruct (_ && _); [apply silent_appends, silent_ret|].
  apply appends_bind; [destruct tmp_dir; appends_silent|]. intros tmp _.
  apply appends_try_finally; [|destruct (negb _); auto with silent].
  apply appends_bind; [appends_silent|]. intros _ _.
  apply appends_bind; [appends_silent|]. intros _ _.
  apply appends_bind; [|intros _ _; appends_silent].
  apply appends_for_each. intros ext Hext.
  destruct gen as [gen|]; [|apply silent_appends, silent_raise].
  eapply appends_weaken; [|apply appends_execute_generator].
  intros inv Hinv. exists ext, gen. auto.
Qed.


(** ** The path placeholder *)




(** ** The chain run for extensions *)

Lemma last_value_cons (items : pydict) (g : yaml) :
  List.last (Some g :: List.map (fun kv => Some (snd kv)) items) None
  = match List.last (List.map (fun kv => Some (snd kv)) items) None with
    | Some g' => Some g'
    | None => Some g
    end.
Proof.
  revert g. induction items as [|kv items IH]; intros g; [reflexivity|].
  cbn [List.map].
  change (List.last (Some g :: Some (snd kv) :: ?l) None)
    with (List.last (Some (snd kv) :: l) None).
  rewrite IH. destruct (List.last _ None); reflexivity.
Qed.

Lemma partition_extensions_gen (items : pydict) :
  forall (old new : list string) (gen : option yaml),
    snd (partition_extensions items old new gen)
    = match List.last (List.map (fun kv => Some (snd kv)) items) None with
      | Some g => Some g
      | None => gen
      end.
Proof.
  induction items as [|[ext g] items IH]; intros old new gen; [reflexivity|].
  cbn [partition_extensions List.map snd]. rewrite last_value_cons.
  destruct (is_generated g); [|destruct (String.eqb ext "ans")];
    rewrite IH; destruct (List.last _ None); reflexivity.
Qed.

(** the generation loop runs the chain of the last configured extension *)
Lemma chain_run_is_last (exts : pydict) (ext : string) (g : yaml) :
  chain_run_for_extensions (exts ++ [(ext, g)]) = Some g.
Proof.
  unfold chain_run_for_extensions. rewrite partition_extensions_gen.
  rewrite List.map_app. cbn [List.map snd]. rewrite List.last_last. reflexivity.
Qed.

(** every generator run of [_generate_extensions] comes from that chain *)
Lemma extensions_share_one_chain (C : Collaborators) (self : GeneratorManifest)
      (path : string) (config exts : pydict) (ext : string) (g : yaml)
      (s s' : state) (r : result unit) :
  config_extensions config = Ok (exts ++ [(ext, g)])%list ->
  _generate_extensions C self path config None s = (r, s') ->
  exists new,
    calls s' = (calls s ++ new)%list
    /\ Forall (fun inv => exists e,
                   interpolated g (probdir (problem self))
                     (OsPath.basename (Py.slice_upto path (-2) ++ e)) inv) new.
Proof.
  intros Hexts H.
  destruct (appends_generate_extensions C self path config None _ Hexts s r s' H)
    as (new & E & F).
  exists new. split; [exact E|]. eapply Forall_impl; [exact F|].
  intros inv (e & gen & _ & Hgen & Hinv). rewrite chain_run_is_last in Hgen.
  injection Hgen as <-. eauto.
Qed.

(** ** Cleaning a test case *)

Lemma unlink_or_warn_keeps_absent (p a : string) (s : state) :
  fs s !! a = None ->
  exists s', unlink_or_warn p s = (Ok tt, s')
             /\ cwd s' = cwd s /\ fs s' !! a = None.
Proof.
  intros Ha. unfold unlink_or_warn, bind, Fs.exists_, try_except, Fs.unlink, warning,
    modify, ret.
  case_bool_decide; [|eauto].
  destruct (Fs.stat s p) as [[c|]|]; cbn.
  - eexists. split; [reflexivity|]. split; [reflexivity|].
    cbn. now apply lookup_delete_None; right.
  - eauto.
  - eauto.
Qed.

Lemma clean_loop_keeps_absent (l : list string) (a : string) (s : state) :
  fs s !! a = None ->
  exists s', for_each l unlink_or_warn s = (Ok tt, s')
             /\ cwd s' = cwd s /\ fs s' !! a = None.
Proof.
  revert s. induction l as [|p l IH]; intros s Ha; cbn [for_each].
  - exists s. auto.
  - destruct (unlink_or_warn_keeps_absent p a s Ha) as (s1 & H1 & Hc1 & Ha1).
    destruct (IH s1 Ha1) as (s2 & H2 & Hc2 & Ha2).
    exists s2. rewrite (bind_ok _ _ _ _ _ H1). split; [exact H2|].
    split; [congruence | exact Ha2].
Qed.

(** [_clean_single] removes the [.in] file of a test case whatever its
    generator is, the null generator of a manual test case included *)
Lemma clean_single_removes_testcase (path : string) (gen : yaml)
      (config exts : pydict) (s : state) (c : string) :
  Py.endswith path ".in" = true ->
  config_extensions config = Ok exts ->
  Fs.stat s path = Some (File c) ->
  exists s', _clean_single TESTCASE path gen config s = (Ok tt, s')
             /\ Fs.stat s' path = None.
Proof.
  intros Hend Hexts Hstat. unfold _clean_single. rewrite Hend, Hexts. cbn [negb].
  change (bind (lift (Ok exts)) ?k s) with (k exts s). cbn [for_each].
  assert (H1 : unlink_or_warn path s
               = (Ok tt, set_fs (delete (Fs.resolve s path) (fs s)) s)).
  { unfold unlink_or_warn, bind, Fs.exists_, try_except, Fs.unlink.
    rewrite Hstat. rewrite bool_decide_eq_true_2 by eauto.
    cbv beta iota. rewrite Hstat. reflexivity. }
  rewrite (bind_ok _ _ _ _ _ H1).
  destruct (clean_loop_keeps_absent
              (List.map (fun ext => Py.slice_upto path (-3) ++ "." ++ fst ext) exts)
              (Fs.resolve s path)
              (set_fs (delete (Fs.resolve s path) (fs s)) s))
    as (s' & Hloop & Hcwd & Ha).
  { cbn. apply lookup_delete_eq. }
  exists s'. split; [exact Hloop|].
  unfold Fs.stat, Fs.resolve in *. rewrite Hcwd. cbn [cwd set_fs].
  destruct (String.eqb path ""); [reflexivity|].
  destruct (String.eqb _ "/"); [discriminate | exact Ha].
Qed.

(** ** Running a manual unit *)

(** for a manual test case whose directory exists, [_run_single] changes
    nothing *)
Lemma run_single_manual_is_noop (C : Collaborators) (self : GeneratorManifest)
      (path : string) (config : pydict) (s : state) :
  Fs.stat s (OsPath.dirname path) = Some Dir ->
  _run_single C self TESTCASE path YNull config s = (Ok tt, s).
Proof.
  intros Hdir. unfold _run_single. cbn [kind_eqb is_none].
  assert (He : ensure_directory (OsPath.dirname path) true s = (Ok tt, s)).
  { unfold ensure_directory. cbn [ensure_directory_scan].
    unfold bind, Fs.isdir. rewrite Hdir. reflexivity. }
  now rewrite (bind_ok _ _ _ _ _ He).
Qed.

(** ** The scan after a group *)

(** When none of the names listed in [path] exists in the working
    directory, the scan does nothing, whatever [path] holds. *)
Lemma post_group_scan_elsewhere (C : Collaborators) (self : GeneratorManifest)
      (fuel : nat) (manifest : pydict) (path : string) (config : pydict)
      (s : state) (names : list string) :
  Fs.listdir path s = (Ok names, s) ->
  (forall n, In n names -> Fs.stat s n = None) ->
  _run_post_group C self (S fuel) manifest path config s = (Ok tt, s).
Proof.
  intros Hls Hnone. cbn [_run_post_group]. rewrite (bind_ok _ _ _ _ _ Hls).
  clear Hls. induction names as [|n names IH]; [reflexivity|]. cbn [for_each].
  assert (Hbody : forall k : unit -> M unit,
             bind (if dict_mem n manifest then ret tt
                   else d <- Fs.isdir n ;;
                        if d : bool
                        then _run_post_group C self fuel [] (OsPath.join path n) config
                        else f <- Fs.isfile n ;;
                             if f && Py.endswith n ".in"
                             then _generate_extensions C self (OsPath.join path n)
                                                       config None
                             else ret tt) k s
             = k tt s).
  { intros k. destruct (dict_mem n manifest); [reflexivity|].
    pose proof (Hnone n (or_introl eq_refl)) as Hn.
    unfold bind, Fs.isdir, Fs.isfile. repeat (rewrite Hn; cbv beta iota).
    reflexivity. }
  rewrite Hbody. apply IH. intros m Hm. apply Hnone. now right.
Qed.

(** ** The merge filter and the rule of the specification *)

Lemma str_app_cons (x : ascii) (a b : string) : String x a ++ b = String x (a ++ b).
Proof. reflexivity. Qed.

Lemma str_app_nil_r (s : string) : s ++ "" = s.
Proof.
  induction s as [|a s IH]; [reflexivity|]. now rewrite str_app_cons, IH.
Qed.

Lemma str_app_assoc (a b c : string) : (a ++ b) ++ c = a ++ (b ++ c).
Proof.
  induction a as [|x a IH]; [reflexivity|]. now rewrite !str_app_cons, IH.
Qed.

Lemma str_length_app (a b : string) :
  String.length (a ++ b) = (String.length a + String.length b)%nat.
Proof.
  induction a as [|x a IH]; [reflexivity|].
  rewrite str_app_cons. cbn [String.length]. now rewrite IH.
Qed.

Lemma rev_app_spec (s1 s2 : string) : String.rev_app s1 s2 = String.rev s1 ++ s2.
Proof.
  revert s2. induction s1 as [|a s1 IH]; intros s2; [reflexivity|].
  change (String.rev (String a s1)) with (String.rev_app s1 (String a "")).
  cbn [String.rev_app].
  rewrite (IH (String a s2)), (IH (String a "")), str_app_assoc. reflexivity.
Qed.

Lemma substring_app_prefix (a b : string) :
  substring 0 (String.length a) (a ++ b) = a.
Proof.
  induction a as [|x a IH].
  - destruct b; reflexivity.
  - rewrite str_app_cons. cbn [String.length substring]. now rewrite IH.
Qed.

Lemma cut_at_last_dot_None (name : string) :
  cut_at_last_dot name = None <-> Py.contains "."%char name = false.
Proof.
  induction name as [|a name IH]; cbn; [tauto|].
  destruct (cut_at_last_dot name) as [[base ext]|].
  - split; [discriminate|]. intros H. apply orb_false_elim in H as [_ H].
    apply IH in H. discriminate.
  - destruct (Ascii.eqb a "."%char); cbn; [split; discriminate|].
    split; intros _; [now apply IH | reflexivity].
Qed.

Lemma cut_at_last_dot_Some (name base ext : string) :
  cut_at_last_dot name = Some (base, ext) ->
  name = base ++ "." ++ ext /\ Py.contains "."%char name = true.
Proof.
  revert base. induction name as [|a name IH]; intros base; cbn; [discriminate|].
  destruct (cut_at_last_dot name) as [[base' ext']|].
  - intros [= <- <-]. destruct (IH base' eq_refl) as [-> ->].
    split; [reflexivity | apply orb_true_r].
  - destruct (Ascii.eqb_spec a "."%char) as [->|]; [|discriminate].
    intros [= <- <-]. split; reflexivity.
Qed.

Lemma split_aux_cons (c : ascii) (cur s : string) :
  exists y l, Py.split_aux c cur s = y :: l.
Proof.
  revert cur. induction s as [|a s IH]; intros cur; cbn; [eauto|].
  destruct (Ascii.eqb a c); eauto.
Qed.

Lemma split_aux_last (s cur : string) :
  List.last (Py.split_aux "."%char cur s) ""
  = match cut_at_last_dot s with
    | Some (_, ext) => ext
    | None => String.rev cur ++ s
    end.
Proof.
  revert cur. induction s as [|a s IH]; intros cur; cbn [Py.split_aux cut_at_last_dot].
  - cbn [List.last]. now rewrite str_app_nil_r.
  - destruct (Ascii.eqb a "."%char) eqn:Ha.
    + destruct (split_aux_cons "."%char "" s) as (y & l & Hs).
      assert (Hl : List.last (String.rev cur :: Py.split_aux "."%char "" s) ""
                   = List.last (Py.split_aux "."%char "" s) "")
        by (rewrite Hs; reflexivity).
      rewrite Hl, IH. destruct (cut_at_last_dot s) as [[b e]|]; reflexivity.
    + rewrite IH. destruct (cut_at_last_dot s) as [[b e]|]; [reflexivity|].
      change (String.rev (String a cur)) with (String.rev_app cur (String a "")).
      rewrite rev_app_spec, str_app_assoc. reflexivity.
Qed.

Lemma slice_off_extension (base ext : string) :
  ext <> "" ->
  Py.slice_upto (base ++ "." ++ ext) (- Z.of_nat (Py.len ext)) = base ++ ".".
Proof.
  intros Hne. unfold Py.slice_upto, Py.len.
  assert (Hlen : (0 < String.length ext)%nat) by (destruct ext; [congruence | cbn; lia]).
  rewrite <- str_app_assoc, str_length_app.
  destruct (Z.ltb_spec (- Z.of_nat (String.length ext)) 0) as [_|?]; [|lia].
  replace (Z.to_nat _) with (String.length (base ++ ".")) by lia.
  apply substring_app_prefix.
Qed.

Lemma slice_upto_zero (s : string) : Py.slice_upto s 0 = "".
Proof.
  unfold Py.slice_upto. cbn [Z.ltb Z.compare]. rewrite Z.min_l by lia.
  destruct s; reflexivity.
Qed.

(** Away from names that end in a dot, the merge loop adopts exactly the
    files that the rule of the specification names. *)
Lemma merge_adopts_rule (config exts : pydict) (files : list string) (fname : string) :
  config_extensions config = Ok exts ->
  (forall base, cut_at_last_dot fname <> Some (base, "")) ->
  merge_adopts config files fname = Ok (adopted_by_rule exts files fname).
Proof.
  intros Hexts Hdot. unfold merge_adopts, adopted_by_rule.
  unfold Py.last_item, Py.split. rewrite split_aux_last.
  destruct (cut_at_last_dot fname) as [[base ext]|] eqn:Hcut.
  - destruct (cut_at_last_dot_Some _ _ _ Hcut) as [Hname ->]. cbn [negb].
    assert (Hne : ext <> "") by (intros ->; now apply (Hdot base)).
    rewrite Hexts. subst fname. rewrite slice_off_extension by exact Hne.
    rewrite str_app_assoc. change ("." ++ "in") with ".in".
    destruct (String.eqb ext "in"); [reflexivity|]. cbn [orb].
    destruct (dict_get ext exts) as [g|]; [|reflexivity].
    destruct (is_generated g); reflexivity.
  - apply cut_at_last_dot_None in Hcut. now rewrite Hcut.
Qed.

(** for a name that ends in a dot, the file looked for is [in] *)
Lemma merge_adopts_trailing_dot (config exts : pydict) (files : list string)
      (base : string) :
  config_extensions config = Ok exts ->
  merge_adopts config files (base ++ ".")
  = Ok (match dict_get "" exts with Some g => is_generated g | None => false end
        && bool_decide ("in" ∈ files)).
Proof.
  intros Hexts. unfold merge_adopts, Py.last_item, Py.split.
  rewrite split_aux_last.
  assert (Hcut : cut_at_last_dot (base ++ ".") = Some (base, "")).
  { induction base as [|a base IH]; [reflexivity|].
    rewrite str_app_cons. cbn [cut_at_last_dot]. now rewrite IH. }
  rewrite Hcut. destruct (cut_at_last_dot_Some _ _ _ Hcut) as [_ ->]. cbn [negb].
  rewrite Hexts. cbn [String.eqb Py.len String.length].
  change (- Z.of_nat 0) with 0. rewrite slice_upto_zero.
  change ("" ++ "in") with "in".
  destruct (dict_get "" exts) as [g|]; [|reflexivity].
  destruct (is_generated g); reflexivity.
Qed.

(** ** The order of the generated extensions, on an example *)

Example ans_generated_first_ex :
  let s := Sample.start "/" (<["/p/data/x.in" := File "by hand"]> Cases.entered) in
  let res := _generate_extensions (Sample.collaborators YNull) (Sample.self YNull)
                                  "/p/data/x.in" Cases.png_then_ans None s in
  fst res = Ok tt
  /\ List.map inv_args (calls (snd res)) = [Some ["x.ans"]; Some ["x.png"]].
Proof. vm_compute. repeat split. Qed.

(* ===================================================================== *)
(** * Further properties of the code *)
(* ===================================================================== *)

(** ** Dictionaries *)

Lemma dict_get_set (k k' : string) (v : yaml) (d : pydict) :
  dict_get k' (dict_set k v d)
  = if String.eqb k k' then Some v else dict_get k' d.
Proof.
  induction d as [|[k0 v0] d IH]; cbn [dict_set dict_get].
  - destruct (String.eqb k k'); reflexivity.
  - destruct (String.eqb_spec k0 k) as [->|Hne]; cbn [dict_get].
    + destruct (String.eqb k k'); reflexivity.
    + rewrite IH. destruct (String.eqb_spec k0 k') as [->|Hne'].
      * destruct (String.eqb_spec k k'); [congruence | reflexivity].
      * reflexivity.
Qed.

Lemma dict_get_None_keys (k : string) (d : pydict) :
  dict_get k d = None <-> k ∉ List.map fst d.
Proof.
  induction d as [|[k0 v0] d IH]; cbn [dict_get List.map fst].
  - split; [intros _; apply not_elem_of_nil | reflexivity].
  - rewrite not_elem_of_cons. destruct (String.eqb_spec k0 k) as [->|Hne].
    + split; [discriminate | tauto].
    + rewrite IH. split; [intros H; split; [congruence | exact H] | tauto].
Qed.

Lemma dict_set_keys (k : string) (v : yaml) (d : pydict) (x : string) :
  x ∈ List.map fst (dict_set k v d) <-> x = k \/ x ∈ List.map fst d.
Proof.
  induction d as [|[k0 v0] d IH]; cbn [dict_set List.map fst].
  - rewrite list_elem_of_singleton. split; [tauto|].
    intros [H|H]; [exact H | now apply elem_of_nil in H].
  - destruct (String.eqb_spec k0 k) as [->|Hne]; cbn [List.map fst];
      rewrite !elem_of_cons; [|rewrite IH]; tauto.
Qed.

Lemma dict_set_wf (k : string) (v : yaml) (d : pydict) :
  dict_wf d -> dict_wf (dict_set k v d).
Proof.
  unfold dict_wf. induction d as [|[k0 v0] d IH]; cbn [dict_set List.map fst].
  - intros _. apply NoDup_singleton.
  - intros Hnd. apply NoDup_cons in Hnd as [Hnotin Hnd].
    destruct (String.eqb_spec k0 k) as [->|Hne]; cbn [List.map fst].
    + now apply NoDup_cons.
    + apply NoDup_cons. split; [|now apply IH].
      rewrite dict_set_keys. intros [->|Hin]; [congruence | contradiction].
Qed.

Lemma dict_del_spec (k : string) (d d' : pydict) :
  dict_wf d -> dict_del k d = Some d' ->
  dict_wf d'
  /\ forall k', dict_get k' d' = if String.eqb k k' then None else dict_get k' d.
Proof.
  unfold dict_wf. revert d'.
  induction d as [|[k0 v0] d IH]; intros d' Hnd; cbn [dict_del]; [discriminate|].
  cbn [List.map fst] in Hnd. apply NoDup_cons in Hnd as [Hnotin Hnd].
  destruct (String.eqb_spec k0 k) as [->|Hne].
  - intros [= <-]. split; [exact Hnd|]. intros k'. cbn [dict_get].
    destruct (String.eqb_spec k k') as [<-|_]; [|reflexivity].
    now apply dict_get_None_keys.
  - destruct (dict_del k d) as [r|] eqn:Hdel; [|discriminate].
    intros [= <-]. destruct (IH r Hnd eq_refl) as [Hwf Hget].
    split.
    + cbn [List.map fst]. apply NoDup_cons. split; [|exact Hwf].
      apply dict_get_None_keys. rewrite Hget.
      destruct (String.eqb k k0); [reflexivity|]. now apply dict_get_None_keys.
    + intros k'. cbn [dict_get]. rewrite Hget.
      destruct (String.eqb_spec k0 k') as [->|_]; [|reflexivity].
      destruct (String.eqb_spec k k'); [congruence | reflexivity].
Qed.

(** ** Merging configs *)

Lemma merge_extensions_spec (value : pydict) :
  forall (config e config' : pydict),
    dict_get "extensions" config = Some (YDict e) ->
    dict_wf e -> dict_wf value ->
    merge_extensions value config = Ok config' ->
    (forall k, k <> "extensions" -> dict_get k config' = dict_get k config)
    /\ exists e',
        dict_get "extensions" config' = Some (YDict e')
        /\ dict_wf e'
        /\ forall k, dict_get k e'
                     = match dict_get k value with
                       | Some g => if truthy g then Some g else None
                       | None => dict_get k e
                       end.
Proof.
  induction value as [|[ext gen] rest IH]; intros config e config' Hc He Hv.
  - intros [= <-]. split; [reflexivity|]. exists e. auto.
  - cbn [merge_extensions]. rewrite Hc.
    unfold dict_wf in Hv. cbn [List.map fst] in Hv.
    apply NoDup_cons in Hv as [Hnotin Hv]. apply dict_get_None_keys in Hnotin.
    assert (Hstep : forall e1 : pydict,
               dict_wf e1 ->
               merge_extensions rest (dict_set "extensions" (YDict e1) config)
               = Ok config' ->
               (forall k, dict_get k e1
                          = if String.eqb ext k
                            then (if truthy gen then Some gen else None)
                            else dict_get k e) ->
               (forall k, k <> "extensions" -> dict_get k config' = dict_get k config)
               /\ exists e',
                   dict_get "extensions" config' = Some (YDict e')
                   /\ dict_wf e'
                   /\ forall k, dict_get k e'
                                = match dict_get k ((ext, gen) :: rest) with
                                  | Some g => if truthy g then Some g else None
                                  | None => dict_get k e
                                  end).
    { intros e1 He1 Hm Hget.
      destruct (IH (dict_set "extensions" (YDict e1) config) e1 config')
        as (Hother & e' & Hc' & He' & Hget'); auto.
      { rewrite dict_get_set. reflexivity. }
      split.
      - intros k Hk. rewrite (Hother k Hk), dict_get_set.
        destruct (String.eqb_spec "extensions" k); [congruence | reflexivity].
      - exists e'. split; [exact Hc'|]. split; [exact He'|].
        intros k. rewrite Hget'. cbn [dict_get].
        destruct (String.eqb_spec ext k) as [<-|Hne].
        + rewrite Hnotin, Hget, String.eqb_refl. reflexivity.
        + destruct (dict_get k rest); [reflexivity|].
          rewrite Hget. destruct (String.eqb_spec ext k); [congruence | reflexivity]. }
    destruct (truthy gen) eqn:Hg; cbn [negb].
    + intros Hm. apply (Hstep (dict_set ext gen e)); [now apply dict_set_wf | exact Hm |].
      intros k. apply dict_get_set.
    + destruct (dict_del ext e) as [e1|] eqn:Hdel; [|discriminate].
      destruct (dict_del_spec ext e e1 He Hdel) as [He1 Hget1].
      intros Hm. apply (Hstep e1); assumption.
Qed.

Lemma merge_items_spec (items : pydict) :
  forall (old e new : pydict),
    dict_wf items ->
    dict_get "extensions" old = Some (YDict e) -> dict_wf e ->
    (forall exts, In ("extensions", YDict exts) items -> dict_wf exts) ->
    merge_items items old = Ok new ->
    (forall k, k <> "extensions" ->
               dict_get k new = match dict_get k items with
                                | Some v => Some v
                                | None => dict_get k old
                                end)
    /\ exists e',
        dict_get "extensions" new = Some (YDict e')
        /\ dict_wf e'
        /\ forall k, dict_get k e'
                     = match dict_get "extensions" items with
                       | Some (YDict exts) =>
                           match dict_get k exts with
                           | Some g => if truthy g then Some g else None
                           | None => dict_get k e
                           end
                       | _ => dict_get k e
                       end.
Proof.
  induction items as [|[key value] rest IH]; intros old e new Hwf Hc He Hexts.
  - intros [= <-]. split; [reflexivity|]. exists e. auto.
  - unfold dict_wf in Hwf. cbn [List.map fst] in Hwf.
    apply NoDup_cons in Hwf as [Hnotin Hwf]. apply dict_get_None_keys in Hnotin.
    cbn [merge_items dict_get].
    destruct (String.eqb_spec key "extensions") as [->|Hne].
    + destruct value as [ | | | | |exts]; try discriminate.
      destruct (merge_extensions exts old) as [config1|] eqn:Hm; [|discriminate].
      destruct (merge_extensions_spec exts old e config1 Hc He) as (Ho1 & e1 & Hc1 & He1 & Hg1);
        [apply Hexts; now left | exact Hm |].
      intros Hrest.
      destruct (IH config1 e1 new Hwf Hc1 He1) as (Ho & e' & Hc' & He' & Hg');
        [intros x Hx; apply Hexts; now right | exact Hrest |].
      split.
      * intros k Hk. rewrite (Ho k Hk).
        destruct (String.eqb_spec "extensions" k); [congruence|].
        destruct (dict_get k rest); [reflexivity | now apply Ho1].
      * exists e'. split; [exact Hc'|]. split; [exact He'|].
        intros k. rewrite Hg', Hnotin. apply Hg1.
    + intros Hrest.
      destruct (IH (dict_set key value old) e new Hwf) as (Ho & e' & Hc' & He' & Hg');
        [ rewrite dict_get_set; destruct (String.eqb_spec key "extensions");
          [congruence | exact Hc]
        | exact He
        | intros x Hx; apply Hexts; now right
        | exact Hrest |].
      split.
      * intros k Hk. rewrite (Ho k Hk), dict_get_set.
        destruct (String.eqb_spec key k) as [<-|Hk'].
        -- now rewrite Hnotin.
        -- reflexivity.
      * exists e'. split; [exact Hc'|]. split; [exact He'|]. exact Hg'.
Qed.

(** what a child scope's [extensions] do to the inherited ones: a truthy
    value overrides or adds the entry, a falsy one removes it, the other
    inherited entries stay *)
Theorem merge_configs_extensions (old new items e : pydict) :
  dict_wf items ->
  dict_get "extensions" old = Some (YDict e) -> dict_wf e ->
  (forall exts, In ("extensions", YDict exts) items -> dict_wf exts) ->
  _merge_configs old (YDict items) = Ok new ->
  exists e',
    config_extensions new = Ok e'
    /\ dict_wf e'
    /\ forall k, dict_get k e'
                 = match dict_get "extensions" items with
                   | Some (YDict exts) =>
                       match dict_get k exts with
                       | Some g => if truthy g then Some g else None
                       | None => dict_get k e
                       end
                   | _ => dict_get k e
                   end.
Proof.
  intros Hwf Hc He Hexts Hm.
  destruct (merge_items_spec items old e new Hwf Hc He Hexts Hm)
    as (_ & e' & Hc' & He' & Hg').
  exists e'. unfold config_extensions. rewrite Hc'. auto.
Qed.

Lemma merge_configs_extensions_witness :
  exists e',
    config_extensions
      [("extensions", YDict [("png", YStr "viz"); ("hint", YStr "h")]); ("note", YInt 1)]
    = Ok e'
    /\ dict_wf e'
    /\ forall k, dict_get k e'
                 = match dict_get "extensions"
                           [("extensions", YDict [("ans", YNull); ("hint", YStr "h")]);
                            ("note", YInt 1)] with
                   | Some (YDict exts) =>
                       match dict_get k exts with
                       | Some g => if truthy g then Some g else None
                       | None => dict_get k [("ans", YStr "sol"); ("png", YStr "viz")]
                       end
                   | _ => dict_get k [("ans", YStr "sol"); ("png", YStr "viz")]
                   end.
Proof.
  apply (merge_configs_extensions
           [("extensions", YDict [("ans", YStr "sol"); ("png", YStr "viz")])]
           [("extensions", YDict [("png", YStr "viz"); ("hint", YStr "h")]); ("note", YInt 1)]
           [("extensions", YDict [("ans", YNull); ("hint", YStr "h")]); ("note", YInt 1)]
           [("ans", YStr "sol"); ("png", YStr "viz")]).
  - unfold dict_wf. cbn. apply (bool_decide_unpack _). vm_compute. reflexivity.
  - reflexivity.
  - unfold dict_wf. cbn. apply (bool_decide_unpack _). vm_compute. reflexivity.
  - intros exts [[= <-]|[[=]|[]]]. unfold dict_wf. cbn.
    apply (bool_decide_unpack _). vm_compute. reflexivity.
  - reflexivity.
Defined.

(** keys of a scope's config other than [extensions] replace the
    inherited value; keys the scope does not set are inherited *)
Theorem merge_configs_other_keys (old new items e : pydict) (k : string) :
  dict_wf items ->
  dict_get "extensions" old = Some (YDict e) -> dict_wf e ->
  (forall exts, In ("extensions", YDict exts) items -> dict_wf exts) ->
  _merge_configs old (YDict items) = Ok new ->
  k <> "extensions" ->
  dict_get k new = match dict_get k items with
                   | Some v => Some v
                   | None => dict_get k old
                   end.
Proof.
  intros Hwf Hc He Hexts Hm Hk.
  destruct (merge_items_spec items old e new Hwf Hc He Hexts Hm) as (Ho & _).
  now apply Ho.
Qed.

Lemma merge_configs_other_keys_witness :
  dict_get "note"
    [("extensions", YDict [("png", YStr "viz"); ("hint", YStr "h")]); ("note", YInt 1)]
  = match dict_get "note"
            [("extensions", YDict [("ans", YNull); ("hint", YStr "h")]); ("note", YInt 1)] with
    | Some v => Some v
    | None => dict_get "note"
                [("extensions", YDict [("ans", YStr "sol"); ("png", YStr "viz")])]
    end.
Proof.
  apply (merge_configs_other_keys
           [("extensions", YDict [("ans", YStr "sol"); ("png", YStr "viz")])]
           [("extensions", YDict [("png", YStr "viz"); ("hint", YStr "h")]); ("note", YInt 1)]
           [("extensions", YDict [("ans", YNull); ("hint", YStr "h")]); ("note", YInt 1)]
           [("ans", YStr "sol"); ("png", YStr "viz")] "note").
  - unfold dict_wf. cbn. apply (bool_decide_unpack _). vm_compute. reflexivity.
  - reflexivity.
  - unfold dict_wf. cbn. apply (bool_decide_unpack _). vm_compute. reflexivity.
  - intros exts [[= <-]|[[=]|[]]]. unfold dict_wf. cbn.
    apply (bool_decide_unpack _). vm_compute. reflexivity.
  - reflexivity.
  - discriminate.
Defined.

(** ** What validation guarantees *)

Lemma for_each_ok_inv {A} (l : list A) (body : A -> M unit) (s s' : state) :
  for_each l body s = (Ok tt, s') ->
  forall x, In x l -> exists s1 s2, body x s1 = (Ok tt, s2).
Proof.
  revert s. induction l as [|y l IH]; intros s H x Hx; [destruct Hx|].
  cbn [for_each] in H. apply bind_ok_inv in H as ([] & s1 & Hy & Hl).
  destruct Hx as [<-|Hx]; [eauto | eapply IH; eauto].
Qed.

Lemma validate_generator_sound (gen : yaml) (path : string) (allow_none : bool)
      (s s' : state) :
  _validate_generator gen path allow_none s = (Ok tt, s') ->
  (gen = YNull /\ allow_none = true) \/ chain_valid gen.
Proof.
  unfold _validate_generator.
  destruct (is_none gen && allow_none) eqn:Hn.
  - intros _. left. apply andb_true_iff in Hn as [Hg ->].
    destruct gen; try discriminate. auto.
  - intros H. right. apply bind_ok_inv in H as ([] & s1 & Hne & Hall). split.
    + intros Hnil. rewrite Hnil in Hne. discriminate.
    + intros command Hin.
      destruct (for_each_ok_inv _ _ _ _ Hall command Hin) as (s2 & s3 & Hc).
      unfold error, raise in Hc.
      destruct command as [ | | |c| | ]; try discriminate.
      destruct (Shlex.split c) as [[|t ts]|] eqn:Hs; try discriminate.
      exists c, t, ts. auto.
Qed.

(** a chain that passed [_validate_generator] is not empty and each of
    its commands is interpolated by [_parse_command] without an error,
    whatever the directory and the path are *)
Theorem validated_chain_parses (gen : yaml) (path : string) (allow_none : bool)
        (s s' : state) :
  _validate_generator gen path allow_none s = (Ok tt, s') ->
  gen <> YNull ->
  as_list gen <> []
  /\ forall command, In command (as_list gen) ->
       exists c, command = YStr c
                 /\ forall gen_path p, exists program arguments,
                      _parse_command c gen_path p = Ok (program, arguments).
Proof.
  intros H Hgen. destruct (validate_generator_sound _ _ _ _ _ H) as [[-> _]|[Hne Hall]];
    [congruence|].
  split; [exact Hne|]. intros command Hin.
  destruct (Hall command Hin) as (c & t & ts & -> & Hsplit).
  exists c. split; [reflexivity|]. intros gen_path p.
  rewrite (parse_command_tokens c gen_path p t ts Hsplit). eauto.
Qed.

Lemma validated_chain_parses_witness :
  as_list (YList [YStr "gen 1 $SEED"; YStr "filter '$PATH'"]) <> []
  /\ forall command,
       In command (as_list (YList [YStr "gen 1 $SEED"; YStr "filter '$PATH'"])) ->
       exists c, command = YStr c
                 /\ forall gen_path p, exists program arguments,
                      _parse_command c gen_path p = Ok (program, arguments).
Proof.
  apply (validated_chain_parses
           (YList [YStr "gen 1 $SEED"; YStr "filter '$PATH'"]) "/p/data/1.in" true
           (Sample.start "/" Sample.files) (Sample.start "/" Sample.files)).
  - reflexivity.
  - discriminate.
Defined.

Lemma validate_config_ok (config : yaml) (path : string) (s s' : state) :
  _validate_config config path s = (Ok tt, s') ->
  config_ok config /\ exists w, s' = add_warnings w s.
Proof.
  intros H. split.
  - destruct config as [ | | | | |items]; try discriminate.
    exists items. split; [reflexivity|]. intros v Hin.
    cbn [_validate_config] in H.
    destruct (for_each_ok_inv _ _ _ _ H _ Hin) as (s1 & s2 & Hv).
    cbn in Hv. destruct v as [ | | | | |exts]; try discriminate.
    exists exts. split; [reflexivity|]. apply List.Forall_forall.
    intros [ext gen] Hext.
    destruct (for_each_ok_inv _ _ _ _ Hv _ Hext) as (s3 & s4 & He).
    apply bind_ok_inv in He as ([] & s5 & Hin' & Hg).
    split.
    + cbn [fst]. intros ->. discriminate.
    + cbn [snd]. destruct gen as [ | | |c| | ]; auto;
        try (destruct (validate_generator_sound _ _ _ _ _ Hg) as [[? ?]|?];
             [discriminate | auto]).
      cbn [is_none is_generated] in Hg.
      destruct (String.eqb_spec c "generated") as [->|_]; [auto|].
      destruct (validate_generator_sound _ _ _ _ _ Hg) as [[? ?]|?];
        [discriminate | auto].
  - destruct (quiet_validate_config config path) as (r & w & Hr).
    rewrite Hr in H. injection H as _ <-. eauto.
Qed.

(** a config that passed [_validate_config] is a dictionary whose
    [extensions] never name [in] and hold null, ["generated"] or a valid
    chain only; the check leaves the state as it is but for warnings *)
Theorem validate_config_sound (config : yaml) (path : string) (s s' : state) :
  _validate_config config path s = (Ok tt, s') ->
  config_ok config /\ exists w, s' = add_warnings w s.
Proof. apply validate_config_ok. Qed.

Lemma validate_config_sound_witness :
  config_ok (YDict [("extensions", YDict [("ans", YStr "sol"); ("png", YNull);
                                          ("hint", YStr "generated")]);
                    ("unknown", YInt 1)])
  /\ exists w, add_warnings ["unknown"] (Sample.start "/" Sample.files)
               = add_warnings w (Sample.start "/" Sample.files).
Proof.
  apply (validate_config_sound
           (YDict [("extensions", YDict [("ans", YStr "sol"); ("png", YNull);
                                         ("hint", YStr "generated")]);
                   ("unknown", YInt 1)])
           "/p/data" (Sample.start "/" Sample.files)).
  reflexivity.
Defined.

Lemma walk_items_sound
      (handler : GeneratedKind -> string -> yaml -> pydict -> M unit)
      (post : option (pydict -> string -> pydict -> M unit)) (l : pydict) :
  Forall (fun kv =>
            forall path cfg s s',
              _walk_group handler post (snd kv) path cfg s = (Ok tt, s') ->
              well_formed (snd kv)) l ->
  forall path cfg s s',
    walk_items handler post (_walk_group handler post) path cfg l s = (Ok tt, s') ->
    entries_ok well_formed l.
Proof.
  induction 1 as [|[key value] l Hv _ IH]; intros path cfg s s' H; [exact I|].
  cbn [walk_items] in H. apply bind_ok_inv in H as ([] & s1 & He & Hrest).
  cbn [entries_ok]. split; [|eapply IH; exact Hrest].
  clear Hrest IH. unfold error in He.
  destruct (String.eqb_spec key "") as [->|Hne]; [discriminate|].
  destruct (String.eqb_spec key "config") as [->|Hnc]; [now left|].
  destruct (key_regex_match key) eqn:Hre; cbn [negb] in He; [|discriminate].
  right. split; [exact Hne|]. split; [reflexivity|].
  destruct (String.eqb key "testdata.yaml").
  - apply bind_ok_inv in He as ([] & s2 & Ht & _).
    destruct value; try discriminate. eauto.
  - destruct value;
      try (apply bind_ok_inv in He as ([] & s2 & Hg & _);
           destruct (validate_generator_sound _ _ _ _ _ Hg) as [[? _]|?]; auto).
    cbn [snd] in Hv. eapply Hv, He.
Qed.

(** A manifest that [_walk] goes through without an exception, with
    whatever callbacks, is well formed: all that the walk validates holds
    of every scope and entry of it. *)
Theorem walk_group_sound
        (handler : GeneratedKind -> string -> yaml -> pydict -> M unit)
        (post : option (pydict -> string -> pydict -> M unit))
        (m : yaml) (path : string) (cfg : pydict) (s s' : state) :
  _walk_group handler post m path cfg s = (Ok tt, s') -> well_formed m.
Proof.
  revert path cfg s s'.
  induction m as [ |b|n|str|l IHl|items IH] using yaml_nested_ind;
    intros path cfg s s' H; try discriminate.
  cbn [_walk_group] in H.
  apply bind_ok_inv in H as ([] & s1 & Hc & H).
  apply bind_ok_inv in H as (config & s2 & Hm & H).
  apply bind_ok_inv in H as ([] & s3 & Hi & _).
  cbn [well_formed]. split.
  - eapply validate_config_ok, Hc.
  - eapply walk_items_sound; [exact IH | exact Hi].
Qed.

Lemma walk_group_sound_witness :
  well_formed (YDict [("config", YDict [("extensions", YDict [("ans", YStr "sol")])]);
                      ("sample", YDict [("1.in", YStr "gen 1"); ("2.in", YNull)]);
                      ("testdata.yaml", YDict [("grading", YStr "custom")])]).
Proof.
  apply (walk_group_sound no_handler None _ "/p/data" _DEFAULT_CONFIG
                          (Sample.start "/" Sample.files)
                          (Sample.start "/" Sample.files)).
  reflexivity.
Defined.

(** ** Keys and paths *)

Lemma rev_cons (x : ascii) (a : string) :
  String.rev (String x a) = String.rev a ++ String x "".
Proof.
  change (String.rev (String x a)) with (String.rev_app a (String x "")).
  apply rev_app_spec.
Qed.

Lemma rev_app_distr (a b : string) :
  String.rev (a ++ b) = String.rev b ++ String.rev a.
Proof.
  induction a as [|x a IH].
  - change ("" ++ b) with b. change (String.rev "") with "".
    now rewrite str_app_nil_r.
  - rewrite str_app_cons, !rev_cons, IH, str_app_assoc. reflexivity.
Qed.

Lemma rev_involutive (a : string) : String.rev (String.rev a) = a.
Proof.
  induction a as [|x a IH]; [reflexivity|].
  rewrite rev_cons, rev_app_distr, IH. reflexivity.
Qed.

Lemma contains_app (c : ascii) (a b : string) :
  Py.contains c (a ++ b) = Py.contains c a || Py.contains c b.
Proof.
  induction a as [|x a IH]; [reflexivity|].
  rewrite str_app_cons. cbn [Py.contains]. rewrite IH. apply orb_assoc.
Qed.

Lemma contains_rev (c : ascii) (a : string) :
  Py.contains c (String.rev a) = Py.contains c a.
Proof.
  induction a as [|x a IH]; [reflexivity|].
  rewrite rev_cons, contains_app, IH. cbn [Py.contains].
  rewrite orb_false_r. apply orb_comm.
Qed.

Lemma cut_rev_slash (k rest tl : string) :
  Py.contains OsPath.slash k = false ->
  OsPath.cut_rev (k ++ String OsPath.slash rest) tl
  = (String.rev k ++ tl, String OsPath.slash rest).
Proof.
  revert tl. induction k as [|a k IH]; intros tl Hk.
  - reflexivity.
  - cbn [Py.contains] in Hk. apply orb_false_elim in Hk as [Ha Hk].
    rewrite str_app_cons. cbn [OsPath.cut_rev]. rewrite Ha, (IH _ Hk).
    rewrite rev_cons, str_app_assoc. reflexivity.
Qed.

Lemma substring_skip (q b : string) (n : nat) :
  substring (String.length q) n (q ++ b) = substring 0 n b.
Proof.
  induction q as [|x q IH]; [reflexivity|].
  rewrite str_app_cons. cbn [String.length substring]. exact IH.
Qed.

Lemma endswith_slash (p : string) :
  Py.endswith p "/"
  = match String.rev p with
    | String c _ => Ascii.eqb c OsPath.slash
    | EmptyString => false
    end.
Proof.
  rewrite <- (rev_involutive p) at 1.
  destruct (String.rev p) as [|c r]; [reflexivity|].
  rewrite rev_cons. unfold Py.endswith, Py.len.
  rewrite str_length_app. cbn [String.length].
  replace (String.length (String.rev r) + 1 - 1)%nat
    with (String.length (String.rev r)) by lia.
  rewrite substring_skip.
  replace (1 <=? String.length (String.rev r) + 1)%nat with true
    by (symmetry; apply Nat.leb_le; lia).
  cbn [andb substring String.eqb]. unfold OsPath.slash.
  destruct (Ascii.eqb c "/"); reflexivity.
Qed.

Lemma all_slashes_app (a b : string) :
  OsPath.all_slashes (a ++ b) = OsPath.all_slashes a && OsPath.all_slashes b.
Proof.
  induction a as [|x a IH]; [reflexivity|].
  rewrite str_app_cons. cbn [OsPath.all_slashes]. rewrite IH. apply andb_assoc.
Qed.

Lemma all_slashes_rev (a : string) :
  OsPath.all_slashes (String.rev a) = OsPath.all_slashes a.
Proof.
  induction a as [|x a IH]; [reflexivity|].
  rewrite rev_cons, all_slashes_app, IH. cbn [OsPath.all_slashes].
  rewrite andb_true_r. apply andb_comm.
Qed.

Lemma startswith_slash (key : string) :
  Py.contains OsPath.slash key = false -> Py.startswith key "/" = false.
Proof.
  destruct key as [|a key]; [reflexivity|]. cbn [Py.contains].
  intros H. apply orb_false_elim in H as [Ha _].
  unfold Py.startswith. cbn [String.prefix].
  destruct (ascii_dec "/" a) as [<-|_]; [discriminate | reflexivity].
Qed.

(** [os.path.split] undoes [os.path.join] of a directory and a name
    without slashes *)
Lemma split_join (path key : string) :
  path <> "" -> Py.endswith path "/" = false ->
  Py.contains OsPath.slash key = false ->
  OsPath.split (OsPath.join path key) = (path, key).
Proof.
  intros Hne Hend Hkey. unfold OsPath.join.
  rewrite (startswith_slash key Hkey), Hend.
  destruct (String.eqb_spec path "") as [|_]; [contradiction|]. cbn [orb].
  unfold OsPath.split.
  rewrite rev_app_distr, rev_app_distr.
  change (String.rev "/") with (String OsPath.slash "").
  rewrite str_app_assoc.
  change (String OsPath.slash "" ++ String.rev path)
    with (String OsPath.slash (String.rev path)).
  rewrite cut_rev_slash by now rewrite contains_rev.
  rewrite rev_involutive, str_app_nil_r.
  rewrite endswith_slash in Hend.
  destruct (String.rev path) as [|c r] eqn:Hrev.
  { exfalso. apply Hne. rewrite <- (rev_involutive path), Hrev. reflexivity. }
  assert (Hhead : String.rev (String OsPath.slash (String c r)) = path ++ "/").
  { rewrite rev_cons, <- Hrev, rev_involutive. reflexivity. }
  rewrite Hhead.
  assert (Hns : OsPath.all_slashes (path ++ "/") = false).
  { rewrite all_slashes_app, <- (all_slashes_rev path), Hrev.
    cbn [OsPath.all_slashes]. now rewrite Hend. }
  rewrite Hns.
  destruct (String.eqb_spec (path ++ "/") "") as [He|_].
  { destruct path; discriminate. }
  cbn [negb andb OsPath.lstrip_slashes].
  change (Ascii.eqb OsPath.slash OsPath.slash) with true. cbn iota.
  cbn [OsPath.lstrip_slashes]. rewrite Hend.
  now rewrite <- Hrev, rev_involutive.
Qed.

Lemma key_chars_no_slash (cs : list ascii) :
  match cs with
  | a :: rest =>
      is_alnum a
      && match List.rev rest with
         | z :: mid => is_alnum z && List.forallb is_key_char mid
         | [] => false
         end
  | [] => false
  end = true ->
  List.existsb (fun a => Ascii.eqb a OsPath.slash) cs = false.
Proof.
  assert (Hkc : forall c, is_key_char c = true -> Ascii.eqb c OsPath.slash = false).
  { intros c Hc. destruct (Ascii.eqb_spec c OsPath.slash) as [->|]; [|reflexivity].
    discriminate. }
  assert (Han : forall c, is_alnum c = true -> Ascii.eqb c OsPath.slash = false).
  { intros c Hc. apply Hkc. unfold is_key_char. now rewrite Hc. }
  assert (Hall : forall l, (forall x, In x l -> is_key_char x = true) ->
                           List.existsb (fun a => Ascii.eqb a OsPath.slash) l = false).
  { induction l as [|x l IH]; [reflexivity|]. cbn [List.existsb].
    intros H. rewrite (Hkc x) by (apply H; now left).
    apply IH. intros y Hy. apply H. now right. }
  destruct cs as [|a rest]; [discriminate|].
  intros H. apply andb_true_iff in H as [Ha H].
  cbn [List.existsb]. rewrite (Han a Ha). cbn [orb].
  rewrite <- (List.rev_involutive rest).
  destruct (List.rev rest) as [|z mid]; [discriminate|].
  apply andb_true_iff in H as [Hz Hmid].
  cbn [List.rev]. rewrite List.existsb_app, Hall.
  - cbn [List.existsb orb]. now rewrite (Han z Hz).
  - intros x Hx. apply List.in_rev in Hx.
    revert x Hx. now apply List.forallb_forall.
Qed.

Lemma contains_chars (c : ascii) (s : string) :
  Py.contains c s = List.existsb (fun a => Ascii.eqb a c) (list_ascii_of_string s).
Proof. induction s as [|x s IH]; cbn; [reflexivity | now rewrite IH]. Qed.

Lemma key_regex_no_slash (key : string) :
  key_regex_match key = true -> Py.contains OsPath.slash key = false.
Proof.
  unfold key_regex_match. rewrite contains_chars.
  set (cs := list_ascii_of_string key).
  destruct (List.rev cs) as [|c r] eqn:Hrev.
  - apply key_chars_no_slash.
  - destruct (Ascii.eqb_spec c "010"%char) as [->|_].
    + intros H. apply key_chars_no_slash in H.
      rewrite <- (List.rev_involutive cs), Hrev. cbn [List.rev].
      rewrite List.existsb_app, H. reflexivity.
    + apply key_chars_no_slash.
Qed.

(** A key that the walk accepts names an entry directly inside its group:
    the path the handlers get splits back into the group's directory and
    the key, which are the target directory and the base name
    [_run_single] works with. *)
Theorem accepted_key_stays_in_group (path key : string) :
  key_regex_match key = true ->
  path <> "" -> Py.endswith path "/" = false ->
  OsPath.dirname (OsPath.join path key) = path
  /\ OsPath.basename (OsPath.join path key) = key.
Proof.
  intros Hkey Hne Hend. unfold OsPath.dirname, OsPath.basename.
  rewrite (split_join path key Hne Hend (key_regex_no_slash key Hkey)). auto.
Qed.

Lemma accepted_key_stays_in_group_witness :
  OsPath.dirname (OsPath.join "/p/data/sample" "a-1_b.in") = "/p/data/sample"
  /\ OsPath.basename (OsPath.join "/p/data/sample" "a-1_b.in") = "a-1_b.in".
Proof.
  apply (accepted_key_stays_in_group "/p/data/sample" "a-1_b.in").
  - reflexivity.
  - discriminate.
  - reflexivity.
Defined.

(** ** The partition of the configured extensions *)

Lemma partition_extensions_spec (items : pydict) :
  forall (old new : list string) (gen : option yaml),
    fst (fst (partition_extensions items old new gen))
    = (old ++ List.map fst (List.filter (fun kv => is_generated (snd kv)) items))%list
    /\ snd (fst (partition_extensions items old new gen))
       ≡ₚ (new ++ List.map fst
                    (List.filter (fun kv => negb (is_generated (snd kv))) items))%list.
Proof.
  induction items as [|[ext g] items IH]; intros old new gen;
    cbn [partition_extensions List.filter snd].
  - cbn. now rewrite !app_nil_r.
  - destruct (is_generated g) eqn:Hg; cbn [negb List.map fst].
    + destruct (IH (old ++ [ext])%list new (Some g)) as [-> Hn].
      split; [now rewrite <- app_assoc | exact Hn].
    + destruct (String.eqb_spec ext "ans") as [->|_].
      * destruct (IH old ("ans" :: new) (Some g)) as [-> Hn].
        split; [reflexivity|]. rewrite Hn. cbn [app].
        apply Permutation_middle.
      * destruct (IH old (new ++ [ext])%list (Some g)) as [-> Hn].
        split; [reflexivity|]. rewrite Hn. now rewrite <- app_assoc.
Qed.

(** Every configured extension ends up once in exactly one of the two
    lists of [_generate_extensions]: after [in], [old_extensions] has the
    extensions configured ["generated"], in the order of the config, and
    [new_extensions] is a rearrangement of all the others. *)
Theorem extensions_partitioned (exts : pydict) :
  fst (fst (partition_extensions exts ["in"] [] None))
  = "in" :: List.map fst (List.filter (fun kv => is_generated (snd kv)) exts)
  /\ new_extensions_of exts
     ≡ₚ List.map fst (List.filter (fun kv => negb (is_generated (snd kv))) exts).
Proof. apply (partition_extensions_spec exts ["in"] [] None). Qed.

(** with nothing to generate, [_generate_extensions] called on its own
    returns at once and leaves the state as it is *)
Theorem generate_extensions_nothing_new (C : Collaborators) (self : GeneratorManifest)
        (path : string) (config exts : pydict) (s : state) :
  Py.endswith path ".in" = true ->
  config_extensions config = Ok exts ->
  (forall kv, In kv exts -> is_generated (snd kv) = true) ->
  _generate_extensions C self path config None s = (Ok tt, s).
Proof.
  intros Hend Hexts Hall. unfold _generate_extensions.
  rewrite Hend, Hexts. cbn [negb].
  change (bind (lift (Ok exts)) ?k s) with (k exts s).
  destruct (partition_extensions_spec exts ["in"] [] None) as [_ Hnew].
  cbn [app] in Hnew.
  assert (Hnil : List.filter (fun kv => negb (is_generated (snd kv))) exts = []).
  { clear Hnew Hexts. induction exts as [|kv exts IH]; [reflexivity|].
    cbn [List.filter]. rewrite (Hall kv) by now left. cbn [negb].
    apply IH. intros kv' Hkv'. apply Hall. now right. }
  rewrite Hnil in Hnew. cbn [List.map] in Hnew. apply Permutation_nil_r in Hnew.
  destruct (partition_extensions exts ["in"] [] None) as [[old new] gen].
  cbn [fst snd] in Hnew. subst new. reflexivity.
Qed.

Lemma generate_extensions_nothing_new_witness :
  _generate_extensions (Sample.collaborators YNull) (Sample.self YNull)
    "/p/data/x.in" [("extensions", YDict [("ans", YStr "generated")])] None
    (Sample.start "/" Sample.files)
  = (Ok tt, Sample.start "/" Sample.files).
Proof.
  apply (generate_extensions_nothing_new _ _ "/p/data/x.in"
           [("extensions", YDict [("ans", YStr "generated")])]
           [("ans", YStr "generated")]).
  - reflexivity.
  - reflexivity.
  - intros kv [<-|[]]. reflexivity.
Defined.

(** ** The merge filter *)

Lemma cut_at_last_dot_app (base ext : string) :
  cut_at_last_dot ext = None ->
  cut_at_last_dot (base ++ "." ++ ext) = Some (base, ext).
Proof.
  intros Hext. induction base as [|a base IH].
  - change ("" ++ "." ++ ext) with (String "."%char ext).
    cbn [cut_at_last_dot]. rewrite Hext. reflexivity.
  - rewrite str_app_cons. cbn [cut_at_last_dot]. now rewrite IH.
Qed.

Lemma merge_adopts_in (config : pydict) (files : list string)
      (fname base : string) :
  fname ∈ files ->
  cut_at_last_dot fname = Some (base, "in") ->
  merge_adopts config files fname = Ok true.
Proof.
  intros Hin Hcut. unfold merge_adopts, Py.last_item, Py.split.
  rewrite split_aux_last, Hcut.
  destruct (cut_at_last_dot_Some _ _ _ Hcut) as [Hname Hc]. rewrite Hc.
  cbn [negb]. change (String.eqb "in" "in") with true. cbn iota.
  assert (Hs : Py.slice_upto fname (- Z.of_nat (Py.len "in")) ++ "in" = fname).
  { rewrite Hname. rewrite slice_off_extension by discriminate.
    now rewrite str_app_assoc. }
  rewrite Hs. now rewrite bool_decide_eq_true_2.
Qed.

(** The test of the merge loop selects every produced [.in] file,
    whatever the config says: the extension is [in], and the [.in] name
    that the loop looks for among the produced files is the file's own.
    (Whether the move that follows succeeds is another matter.) *)
Theorem merge_adopts_in_file (config : pydict) (files : list string)
        (fname base : string) :
  fname ∈ files ->
  cut_at_last_dot fname = Some (base, "in") ->
  merge_adopts config files fname = Ok true.
Proof. apply merge_adopts_in. Qed.

Lemma merge_adopts_in_file_witness :
  merge_adopts [] ["a.b.in"; "x.ans"] "a.b.in" = Ok true.
Proof.
  apply (merge_adopts_in_file [] ["a.b.in"; "x.ans"] "a.b.in" "a.b").
  - left.
  - reflexivity.
Defined.

(** The test of the merge loop selects no file without its input: when
    it selects a file whose name does not end in a dot, the [.in] file of
    the same base name is among the produced files of the directory, and
    the test selects that file too. *)
Theorem merge_adopts_with_input (config exts : pydict) (files : list string)
        (fname : string) :
  config_extensions config = Ok exts ->
  (forall base, cut_at_last_dot fname <> Some (base, "")) ->
  merge_adopts config files fname = Ok true ->
  exists base ext,
    fname = base ++ "." ++ ext
    /\ (base ++ ".in") ∈ files
    /\ merge_adopts config files (base ++ ".in") = Ok true.
Proof.
  intros Hexts Hdot H.
  rewrite (merge_adopts_rule config exts files fname Hexts Hdot) in H.
  injection H as H. unfold adopted_by_rule in H.
  destruct (cut_at_last_dot fname) as [[base ext]|] eqn:Hcut; [|discriminate].
  apply andb_true_iff in H as [_ Hin]. apply bool_decide_eq_true_1 in Hin.
  destruct (cut_at_last_dot_Some _ _ _ Hcut) as [Hname _].
  exists base, ext. split; [exact Hname|]. split; [exact Hin|].
  apply (merge_adopts_in config files (base ++ ".in") base Hin).
  apply (cut_at_last_dot_app base "in"). reflexivity.
Qed.

Lemma merge_adopts_with_input_witness :
  exists base ext,
    "1.ans" = base ++ "." ++ ext
    /\ (base ++ ".in") ∈ ["1.in"; "1.ans"; "2.ans"]
    /\ merge_adopts [("extensions", YDict [("ans", YStr "generated")])]
                    ["1.in"; "1.ans"; "2.ans"] (base ++ ".in") = Ok true.
Proof.
  apply (merge_adopts_with_input
           [("extensions", YDict [("ans", YStr "generated")])]
           [("ans", YStr "generated")] ["1.in"; "1.ans"; "2.ans"] "1.ans").
  - reflexivity.
  - intros base. discriminate.
  - reflexivity.
Defined.

(** ** The generator cache *)

(** A program that [_get_generator] has compiled is not compiled again:
    the next call for the same path returns it and changes nothing.  A
    failed call leaves the cache as it was. *)
Theorem get_generator_memoized (C : Collaborators) (self : GeneratorManifest)
        (path : string) (s s1 : state) (r : result string) :
  _get_generator C self path s = (r, s1) ->
  match r with
  | Ok g => g = path /\ _get_generator C self path s1 = (Ok path, s1)
  | Raise _ => generator_cache s1 = generator_cache s
  end.
Proof.
  unfold _get_generator, bind, get, ret, error, raise, modify.
  destruct (List.existsb (String.eqb path) (generator_cache s)) eqn:Hc.
  - intros [= <- <-]. rewrite Hc. auto.
  - destruct (Fs.mkdtemp (tmpdir self) "generator-" s) as [[w|e] s2] eqn:Hmk.
    + assert (Hcache : generator_cache s2 = generator_cache s).
      { unfold Fs.mkdtemp, Fs.mkdir in Hmk. repeat case_match; simplify_eq; reflexivity. }
      destruct (program_compile C path w (fs s2)) as [[|]|];
        intros [= <- <-]; try exact Hcache.
      split; [reflexivity|]. cbn [generator_cache set_generator_cache].
      rewrite List.existsb_app. cbn [List.existsb].
      now rewrite String.eqb_refl, orb_true_r.
    + intros [= <- <-].
      unfold Fs.mkdtemp, Fs.mkdir in Hmk. repeat case_match; simplify_eq; reflexivity.
Qed.

Lemma get_generator_memoized_witness :
  let s := Sample.start "/" Cases.entered in
  let res := _get_generator (Sample.collaborators YNull) (Sample.self YNull)
                            "/p/generators/gen" s in
  match fst res with
  | Ok g => g = "/p/generators/gen"
            /\ _get_generator (Sample.collaborators YNull) (Sample.self YNull)
                              "/p/generators/gen" (snd res)
               = (Ok "/p/generators/gen", snd res)
  | Raise _ => generator_cache (snd res) = generator_cache s
  end.
Proof.
  cbn zeta.
  apply (get_generator_memoized (Sample.collaborators YNull) (Sample.self YNull)
           "/p/generators/gen" (Sample.start "/" Cases.entered)).
  apply surjective_pairing.
Defined.

(* ===================================================================== *)
(** ** What a computation keeps *)
(* ===================================================================== *)

Section Preserves.

Variable R : state -> state -> Prop.
Hypothesis R_refl : forall s, R s s.
Hypothesis R_trans : forall a b c, R a b -> R b c -> R a c.

Lemma preserves_ret {A} (a : A) : preserves R (ret a).
Proof. intros s r s' [= <- <-]. apply R_refl. Qed.

Lemma preserves_raise {A} (e : exn) : preserves R (@raise A e).
Proof. intros s r s' [= <- <-]. apply R_refl. Qed.

Lemma preserves_lift {A} (x : result A) : preserves R (lift x).
Proof. intros s r s' [= <- <-]. apply R_refl. Qed.

Lemma preserves_bind {A B} (m : M A) (k : A -> M B) :
  preserves R m -> (forall a, preserves R (k a)) -> preserves R (bind m k).
Proof.
  intros Hm Hk s r s' H. unfold bind in H.
  destruct (m s) as [[a|e] s1] eqn:Hms.
  - eapply R_trans; [eapply Hm, Hms | eapply Hk, H].
  - injection H as <- <-. eapply Hm, Hms.
Qed.

Lemma preserves_try_finally {A} (body : M A) (cleanup : M unit) :
  preserves R body -> preserves R cleanup -> preserves R (try_finally body cleanup).
Proof.
  intros Hb Hc s r s' H. unfold try_finally in H.
  destruct (body s) as [rb s1] eqn:Hbs.
  destruct (cleanup s1) as [[[]|e] s2] eqn:Hcs; injection H as <- <-;
    (eapply R_trans; [eapply Hb, Hbs | eapply Hc, Hcs]).
Qed.

Lemma preserves_try_except (body handler : M unit) :
  preserves R body -> preserves R handler -> preserves R (try_except body handler).
Proof.
  intros Hb Hh s r s' H. unfold try_except in H.
  destruct (body s) as [[[]|e] s1] eqn:Hbs.
  - injection H as <- <-. eapply Hb, Hbs.
  - eapply R_trans; [eapply Hb, Hbs | eapply Hh, H].
Qed.

Lemma preserves_for_each {A} (l : list A) (body : A -> M unit) :
  (forall x, preserves R (body x)) -> preserves R (for_each l body).
Proof.
  intros Hb. induction l as [|x l IH]; cbn [for_each].
  - apply preserves_ret.
  - apply preserves_bind; [apply Hb | intros _; exact IH].
Qed.

Hypothesis R_warn : forall w s, R s (add_warnings w s).

Lemma preserves_quiet {A} (m : M A) : quiet m -> preserves R m.
Proof.
  intros (r0 & w & H) s r s' Hm. rewrite H in Hm. injection Hm as <- <-.
  apply R_warn.
Qed.

Lemma preserves_warning (msg : string) : preserves R (warning msg).
Proof. apply preserves_quiet, quiet_warning. Qed.

Variable handler : GeneratedKind -> string -> yaml -> pydict -> M unit.
Variable post : option (pydict -> string -> pydict -> M unit).
Hypothesis handler_keeps :
  forall kind path gen config, preserves R (handler kind path gen config).
Hypothesis post_keeps :
  forall manifest path config, preserves R (call_post post manifest path config).

Lemma preserves_walk_items (l : pydict) :
  Forall (fun kv => forall path cfg,
                      preserves R (_walk_group handler post (snd kv) path cfg)) l ->
  forall path cfg,
    preserves R (walk_items handler post (_walk_group handler post) path cfg l).
Proof.
  induction 1 as [|[key value] l Hv _ IH]; intros path cfg; cbn [walk_items].
  - apply preserves_ret.
  - apply preserves_bind; [|intros _; apply IH].
    unfold error.
    destruct (String.eqb key ""); [apply preserves_raise|].
    destruct (String.eqb key "config"); [apply preserves_ret|].
    destruct (negb (key_regex_match key)); [apply preserves_raise|].
    destruct (String.eqb key "testdata.yaml").
    + apply preserves_bind; [|intros _; apply handler_keeps].
      apply preserves_quiet, quiet_validate_testdata_yaml.
    + assert (Hleaf : preserves R
                (_validate_generator value (OsPath.join path key) true ;;;
                 handler (if Py.endswith key ".in" then TESTCASE else TESTGROUP)
                         (OsPath.join path key) value cfg ;;;
                 if kind_eqb (if Py.endswith key ".in" then TESTCASE else TESTGROUP)
                             TESTGROUP
                 then call_post post [] (OsPath.join path key) cfg
                 else ret tt)).
      { apply preserves_bind;
          [apply preserves_quiet, quiet_validate_generator | intros _].
        apply preserves_bind; [apply handler_keeps | intros _].
        destruct (kind_eqb _ _); [apply post_keeps | apply preserves_ret]. }
      destruct value; try exact Hleaf. apply Hv.
Qed.

Lemma preserves_walk_group (m : yaml) (path : string) (cfg : pydict) :
  preserves R (_walk_group handler post m path cfg).
Proof.
  revert path cfg.
  induction m as [ |b|n|str|l IHl|items IH] using yaml_nested_ind;
    intros path cfg; cbn [_walk_group]; try apply preserves_raise.
  apply preserves_bind; [apply preserves_quiet, quiet_validate_config | intros _].
  apply preserves_bind; [apply preserves_lift | intros config].
  apply preserves_bind; [|intros _; apply post_keeps].
  apply preserves_walk_items, IH.
Qed.

End Preserves.

(** *** Only removing *)

Lemma shrinks_refl (s : state) : shrinks s s.
Proof. unfold shrinks. auto. Qed.

Lemma shrinks_trans (a b c : state) : shrinks a b -> shrinks b c -> shrinks a c.
Proof.
  intros (H1 & H2 & H3) (H4 & H5 & H6). repeat split; try congruence.
  etransitivity; eassumption.
Qed.

Lemma shrinks_warn (w : list string) (s : state) : shrinks s (add_warnings w s).
Proof. unfold shrinks. auto. Qed.

Lemma remove_tree_subseteq (a : string) (m : gmap string node) :
  Fs.remove_tree a m ⊆ m.
Proof.
  unfold Fs.remove_tree. etransitivity; [apply map_filter_subseteq|].
  apply delete_subseteq.
Qed.

Lemma shrinks_exists (p : string) : preserves shrinks (Fs.exists_ p).
Proof. intros s r s' [= <- <-]. apply shrinks_refl. Qed.

Lemma shrinks_isdir (p : string) : preserves shrinks (Fs.isdir p).
Proof. intros s r s' [= <- <-]. apply shrinks_refl. Qed.

Lemma shrinks_unlink (p : string) : preserves shrinks (Fs.unlink p).
Proof.
  intros s r s' H. unfold Fs.unlink in H.
  destruct (Fs.stat s p) as [[c|]|]; injection H as <- <-;
    try apply shrinks_refl.
  repeat split. cbn. apply delete_subseteq.
Qed.

Lemma shrinks_rmtree (p : string) : preserves shrinks (Fs.rmtree p).
Proof.
  intros s r s' H. unfold Fs.rmtree in H.
  destruct (Fs.stat s p) as [[c|]|]; injection H as <- <-;
    try apply shrinks_refl.
  repeat split. cbn. apply remove_tree_subseteq.
Qed.

Ltac shrinks_step :=
  first [ apply (preserves_bind shrinks shrinks_trans); [|intros ?]
        | apply (preserves_try_except shrinks shrinks_trans)
        | apply (preserves_for_each shrinks shrinks_refl shrinks_trans); intros ?
        | apply (preserves_ret shrinks shrinks_refl)
        | apply (preserves_raise shrinks shrinks_refl)
        | apply (preserves_lift shrinks shrinks_refl)
        | apply (preserves_warning shrinks shrinks_warn)
        | apply shrinks_exists | apply shrinks_isdir
        | apply shrinks_unlink | apply shrinks_rmtree
        | match goal with |- preserves _ (if ?b then _ else _) => destruct b end ].

Lemma shrinks_unlink_or_warn (p : string) : preserves shrinks (unlink_or_warn p).
Proof. unfold unlink_or_warn. repeat shrinks_step. Qed.

Lemma shrinks_clean_single (kind : GeneratedKind) (path : string) (gen : yaml)
      (config : pydict) :
  preserves shrinks (_clean_single kind path gen config).
Proof.
  unfold _clean_single.
  destruct kind; repeat first [apply shrinks_unlink_or_warn | shrinks_step].
Qed.

(** ** [rmtree_or_unlink_if_exists] *)

Lemma resolve_set_fs (f : gmap string node) (s : state) (p : string) :
  Fs.resolve (set_fs f s) p = Fs.resolve s p.
Proof. reflexivity. Qed.

Lemma remove_tree_lookup_self (a : string) (m : gmap string node) :
  Fs.remove_tree a m !! a = None.
Proof.
  unfold Fs.remove_tree. apply map_lookup_filter_None. left. apply lookup_delete_eq.
Qed.

Lemma remove_tree_lookup_below (a k : string) (m : gmap string node) :
  Fs.below a k = true -> Fs.remove_tree a m !! k = None.
Proof.
  intros Hb. unfold Fs.remove_tree. apply map_lookup_filter_None. right.
  intros x _. cbn [fst]. rewrite Hb. discriminate.
Qed.

Lemma remove_tree_lookup_other (a k : string) (m : gmap string node) :
  k <> a -> Fs.below a k = false -> Fs.remove_tree a m !! k = m !! k.
Proof.
  intros Hne Hb. unfold Fs.remove_tree.
  destruct (m !! k) as [x|] eqn:Hk.
  - apply map_lookup_filter_Some. split.
    + rewrite lookup_delete_ne by congruence. exact Hk.
    + cbn [fst]. now rewrite Hb.
  - apply map_lookup_filter_None. left.
    rewrite lookup_delete_ne by congruence. exact Hk.
Qed.

(** [rmtree_or_unlink_if_exists] never raises.  Afterwards nothing is at
    the path (unless the path names the root), every file and directory
    that is neither the path nor below it is as it was, and nothing has
    been added. *)
Theorem rmtree_or_unlink_clears (path : string) (s : state) (r : result unit)
        (s' : state) :
  rmtree_or_unlink_if_exists path s = (r, s') ->
  r = Ok tt
  /\ shrinks s s'
  /\ (Fs.resolve s path <> "/" -> Fs.stat s' path = None)
  /\ forall k, k <> Fs.resolve s path -> Fs.below (Fs.resolve s path) k = false ->
               fs s' !! k = fs s !! k.
Proof.
  unfold rmtree_or_unlink_if_exists, bind, Fs.exists_, Fs.isdir, Fs.rmtree,
    Fs.unlink, ret.
  intros H. destruct (Fs.stat s path) as [[c|]|] eqn:Hst.
  - rewrite bool_decide_eq_true_2 in H by eauto. cbv beta iota in H.
    rewrite Hst in H. cbv beta iota in H. rewrite Hst in H.
    injection H as <- <-. split; [reflexivity|]. split.
    { repeat split. cbn. apply delete_subseteq. }
    split.
    + intros Hroot. unfold Fs.stat in *. rewrite resolve_set_fs.
      destruct (String.eqb path ""); [reflexivity|].
      destruct (String.eqb_spec (Fs.resolve s path) "/"); [contradiction|].
      cbn. apply lookup_delete_eq.
    + intros k Hk _. cbn. apply lookup_delete_ne. congruence.
  - rewrite bool_decide_eq_true_2 in H by eauto. cbv beta iota in H.
    rewrite Hst in H. cbv beta iota in H. rewrite Hst in H.
    injection H as <- <-. split; [reflexivity|]. split.
    { repeat split. cbn. apply remove_tree_subseteq. }
    split.
    + intros Hroot. unfold Fs.stat in *. rewrite resolve_set_fs.
      destruct (String.eqb path ""); [reflexivity|].
      destruct (String.eqb_spec (Fs.resolve s path) "/"); [contradiction|].
      cbn. apply remove_tree_lookup_self.
    + intros k Hk Hb. cbn. now apply remove_tree_lookup_other.
  - rewrite bool_decide_eq_false_2 in H by (intros [x Hx]; discriminate).
    injection H as <- <-. split; [reflexivity|]. split; [apply shrinks_refl|].
    split; [intros _; exact Hst | reflexivity].
Qed.

Lemma rmtree_or_unlink_clears_witness :
  let s := Sample.start "/" Sample.files in
  let res := rmtree_or_unlink_if_exists "/p/generators" s in
  fst res = Ok tt
  /\ shrinks s (snd res)
  /\ (Fs.resolve s "/p/generators" <> "/" -> Fs.stat (snd res) "/p/generators" = None)
  /\ forall k, k <> Fs.resolve s "/p/generators" ->
               Fs.below (Fs.resolve s "/p/generators") k = false ->
               fs (snd res) !! k = fs s !! k.
Proof.
  intros s res.
  apply (rmtree_or_unlink_clears "/p/generators" s (fst res) (snd res)).
  reflexivity.
Defined.

(** ** Cleaning *)

(** Cleaning only removes: whatever the manifest, [clean] leaves no file
    or directory that was not there before, changes the contents of none,
    runs no generator and keeps the working directory. *)
Theorem clean_only_removes (self : GeneratorManifest) (s : state)
        (r : result unit) (s' : state) :
  clean self s = (r, s') -> shrinks s s'.
Proof.
  unfold clean, _walk.
  apply (preserves_walk_group shrinks shrinks_refl shrinks_trans shrinks_warn).
  - apply shrinks_clean_single.
  - intros manifest path config. cbn [call_post].
    apply (preserves_ret shrinks shrinks_refl).
Qed.

Lemma clean_only_removes_witness :
  let s := Sample.start "/" (Cases.with_manual "1.in") in
  shrinks s (snd (clean (Sample.self Cases.manual_manifest) s)).
Proof.
  intros s.
  apply (clean_only_removes (Sample.self Cases.manual_manifest) s
           (fst (clean (Sample.self Cases.manual_manifest) s))).
  apply surjective_pairing.
Defined.

Lemma unlink_or_warn_ok (p : string) (s : state) :
  exists s', unlink_or_warn p s = (Ok tt, s').
Proof.
  unfold unlink_or_warn, bind, Fs.exists_, try_except, Fs.unlink, warning,
    modify, ret.
  case_bool_decide; [|eauto].
  destruct (Fs.stat s p) as [[c|]|]; eauto.
Qed.

Lemma for_each_unlink_or_warn_ok (l : list string) (s : state) :
  exists s', for_each l unlink_or_warn s = (Ok tt, s').
Proof.
  revert s. induction l as [|p l IH]; intros s; cbn [for_each]; [eauto|].
  destruct (unlink_or_warn_ok p s) as [s1 H1].
  rewrite (bind_ok _ _ _ _ _ H1). apply IH.
Qed.

Lemma clean_single_returns (kind : GeneratedKind) (path : string)
      (gen : yaml) (config exts : pydict) (s : state) :
  config_extensions config = Ok exts ->
  (kind = TESTCASE -> Py.endswith path ".in" = true) ->
  exists s', _clean_single kind path gen config s = (Ok tt, s').
Proof.
  intros Hexts Hend. unfold _clean_single. destruct kind.
  - rewrite (Hend eq_refl), Hexts. cbn [negb].
    change (bind (lift (Ok exts)) ?k s) with (k exts s).
    apply for_each_unlink_or_warn_ok.
  - unfold bind, Fs.exists_, try_except, Fs.rmtree, warning, modify, ret.
    destruct (negb (is_none gen) && _); [|eauto].
    destruct (Fs.stat s path) as [[c|]|]; eauto.
  - unfold bind, Fs.exists_, try_except, Fs.unlink, warning, modify, ret.
    destruct (negb (is_none gen) && _); [|eauto].
    destruct (Fs.stat s path) as [[c|]|]; eauto.
Qed.

(** Cleaning one unit is best effort: with a config that has its
    [extensions], and a test case path that ends in [.in], [_clean_single]
    returns whatever the file system holds; a removal that fails is only
    warned about. *)
Theorem clean_single_best_effort (kind : GeneratedKind) (path : string)
        (gen : yaml) (config exts : pydict) (s : state) :
  config_extensions config = Ok exts ->
  (kind = TESTCASE -> Py.endswith path ".in" = true) ->
  exists s', _clean_single kind path gen config s = (Ok tt, s').
Proof. apply clean_single_returns. Qed.

Lemma clean_single_best_effort_witness :
  exists s', _clean_single TESTCASE "/p/data/1.in" YNull Cases.ans_extension
                           (Sample.start "/" (Cases.with_manual "1.in")) = (Ok tt, s').
Proof.
  apply (clean_single_best_effort TESTCASE "/p/data/1.in" YNull
           Cases.ans_extension [("ans", YStr "sol")]).
  - reflexivity.
  - intros _. reflexivity.
Defined.

(* ===================================================================== *)
(** ** Temporary directories *)
(* ===================================================================== *)

Lemma try_finally_rmtree {A} (body : M A) (p : string) (s : state)
      (r : result A) (s' : state) :
  try_finally body (Fs.rmtree p) s = (r, s') ->
  r = Raise (OSError p) \/ removed s' p.
Proof.
  unfold try_finally, Fs.rmtree. intros H.
  destruct (body s) as [rb s1].
  destruct (Fs.stat s1 p) as [[c|]|]; injection H as <- <-; auto.
  right. unfold removed. rewrite resolve_set_fs. cbn [fs set_fs]. split.
  - apply remove_tree_lookup_self.
  - intros k Hk. now apply remove_tree_lookup_below.
Qed.

(** Once [_run_single] has made the staging directory of a generated
    unit, the directory and all below it are gone when it returns or
    raises, whatever the generator did; the only other outcome is the
    [OSError] of a removal that failed. *)
Theorem run_single_removes_staging (C : Collaborators) (self : GeneratorManifest)
        (kind : GeneratedKind) (path : string) (gen : yaml) (config : pydict)
        (s s1 s2 : state) (tmp_dir : string) (r : result unit) (s' : state) :
  kind <> TESTDATA_YAML ->
  gen <> YNull ->
  ensure_directory (if kind_eqb kind TESTGROUP then path else OsPath.dirname path)
                   true s = (Ok tt, s1) ->
  Fs.mkdtemp (tmpdir self) (OsPath.basename path ++ "-") s1 = (Ok tmp_dir, s2) ->
  _run_single C self kind path gen config s = (r, s') ->
  r = Raise (OSError tmp_dir) \/ removed s' tmp_dir.
Proof.
  intros Hk Hg He Hmk H. unfold _run_single in H.
  rewrite (bind_ok _ _ _ _ _ He) in H.
  assert (Hk' : kind_eqb kind TESTDATA_YAML = false) by (now destruct kind).
  assert (Hg' : is_none gen = false) by (now destruct gen).
  rewrite Hk', Hg' in H. rewrite (bind_ok _ _ _ _ _ Hmk) in H.
  eapply try_finally_rmtree, H.
Qed.

Lemma run_single_removes_staging_witness :
  let s := Sample.start "/" Cases.entered in
  let res := _run_single (Sample.collaborators (YDict [])) (Sample.self (YDict []))
                         TESTCASE "/p/data/1.in" (YStr "gen 1") _DEFAULT_CONFIG s in
  fst res = Raise (OSError "/tmp/gendata-p-0/1.in-0")
  \/ removed (snd res) "/tmp/gendata-p-0/1.in-0".
Proof.
  intros s res.
  eapply (run_single_removes_staging (Sample.collaborators (YDict []))
            (Sample.self (YDict [])) TESTCASE "/p/data/1.in" (YStr "gen 1")
            _DEFAULT_CONFIG s s _ "/tmp/gendata-p-0/1.in-0" (fst res) (snd res)).
  - discriminate.
  - discriminate.
  - vm_compute. reflexivity.
  - vm_compute. reflexivity.
  - apply surjective_pairing.
Defined.

(** Once [__enter__] has returned the manifest, [main] removes the
    temporary directory of the run before it ends, whether the work went
    through, was stopped by an error that [main] reports, or raised; the
    only other outcome is the [OSError] of the removal itself. *)
Theorem main_removes_workspace (C : Collaborators) (clean_flag : bool)
        (problemdir : string) (s s0 s1 : state) (pb : Problem)
        (self : GeneratorManifest) (r : result Z) (s' : state) :
  Problem_enter (Problem_init problemdir) s = (Ok pb, s0) ->
  GeneratorManifest_enter C pb s0 = (Ok self, s1) ->
  main C clean_flag problemdir s = (r, s') ->
  r = Raise (OSError (tmpdir self)) \/ removed s' (tmpdir self).
Proof.
  intros Hp He H. unfold main, with_ in H.
  rewrite (bind_ok _ _ _ _ _ Hp) in H.
  unfold try_finally at 1 in H. rewrite (bind_ok _ _ _ _ _ He) in H.
  unfold GeneratorManifest_exit in H.
  destruct (try_finally _ (Fs.rmtree (tmpdir self)) s1) as [r2 s2] eqn:Hbody.
  apply try_finally_rmtree in Hbody. unfold ret in H.
  destruct Hbody as [-> | Hrm].
  - injection H as <- <-. now left.
  - right. destruct r2 as [[]|e]; [now injection H as <- <-|].
    destruct e; injection H as <- <-; exact Hrm.
Qed.

Lemma main_removes_workspace_witness :
  let s := Sample.start "/" Sample.files in
  let res := main (Sample.collaborators Cases.manual_manifest) false "/p" s in
  fst res = Raise (OSError "/tmp/gendata-p-0")
  \/ removed (snd res) "/tmp/gendata-p-0".
Proof.
  intros s res.
  eapply (main_removes_workspace (Sample.collaborators Cases.manual_manifest)
            false "/p" s s _ Sample.package (Sample.self Cases.manual_manifest)
            (fst res) (snd res)).
  - vm_compute. reflexivity.
  - vm_compute. reflexivity.
  - apply surjective_pairing.
Defined.

(* ===================================================================== *)
(** ** The package that [main] is given *)
(* ===================================================================== *)

(** When the problem directory, its [generators] directory or the
    manifest [generators/gen.yaml] is missing, [main] ends with exit
    status 1 and has changed nothing: no temporary directory is made and
    no generator runs. *)
Theorem main_incomplete_package (C : Collaborators) (clean_flag : bool)
        (problemdir : string) (s : state) :
  package_complete s (Problem_init problemdir) = false ->
  main C clean_flag problemdir s = (Ok 1, s).
Proof.
  intros H. unfold package_complete in H.
  unfold main, with_, Problem_enter, bind, Fs.isdir, Fs.isfile, error, raise, ret.
  destruct (Fs.stat s (probdir (Problem_init problemdir))) as [[c|]|];
    try reflexivity.
  destruct (Fs.stat s (generator_path (Problem_init problemdir))) as [[c|]|];
    try reflexivity.
  destruct (Fs.stat s (manifestfile (Problem_init problemdir))) as [[c|]|];
    try reflexivity.
  discriminate.
Qed.

Lemma main_incomplete_package_witness :
  let s := Sample.start "/" (delete "/p/generators/gen.yaml" Sample.files) in
  main (Sample.collaborators (YDict [])) false "/p" s = (Ok 1, s).
Proof.
  intros s. apply (main_incomplete_package (Sample.collaborators (YDict [])) false "/p" s).
  vm_compute. reflexivity.
Defined.

(* ===================================================================== *)
(** ** Units that are written or kept *)
(* ===================================================================== *)

(** When [_run_single] returns for a [testdata.yaml] entry, the file at
    its path holds the dump of the entry's value, and no generator has
    run. *)
Theorem run_single_writes_testdata_yaml (C : Collaborators)
        (self : GeneratorManifest) (path : string) (gen : yaml) (config : pydict)
        (s s' : state) :
  _run_single C self TESTDATA_YAML path gen config s = (Ok tt, s') ->
  Fs.stat s' path = Some (File (yaml_dump C gen)) /\ calls s' = calls s.
Proof.
  intros H. unfold _run_single in H. cbn [kind_eqb] in H.
  apply bind_ok_inv in H as ([] & s1 & He & Hw).
  split.
  - unfold Fs.write_file in Hw. unfold Fs.stat in *.
    destruct (String.eqb path "") eqn:Hp; [discriminate|].
    destruct (String.eqb_spec (Fs.resolve s1 path) "/") as [Hroot|Hroot];
      [discriminate|].
    cbn [negb andb] in Hw.
    destruct (Fs.parent_is_dir s1 (Fs.resolve s1 path));
      [|destruct (fs s1 !! Fs.resolve s1 path) as [[c|]|]; discriminate].
    assert (Hs' : s' = set_fs (<[Fs.resolve s1 path := File (yaml_dump C gen)]> (fs s1)) s1).
    { destruct (fs s1 !! Fs.resolve s1 path) as [[c|]|]; congruence. }
    subst s'. rewrite resolve_set_fs.
    destruct (String.eqb_spec (Fs.resolve s1 path) "/"); [contradiction|].
    cbn [fs set_fs]. apply lookup_insert_eq.
  - rewrite (silent_write_file _ _ _ _ _ Hw).
    eapply silent_ensure_directory, He.
Qed.

Lemma run_single_writes_testdata_yaml_witness :
  let C := Sample.collaborators (YDict []) in
  let s := Sample.start "/" Sample.files in
  let s' := snd (_run_single C (Sample.self (YDict [])) TESTDATA_YAML
                             "/p/data/secret/testdata.yaml" (YDict []) _DEFAULT_CONFIG s) in
  Fs.stat s' "/p/data/secret/testdata.yaml" = Some (File (yaml_dump C (YDict [])))
  /\ calls s' = calls s.
Proof.
  intros C s s'.
  apply (run_single_writes_testdata_yaml C (Sample.self (YDict []))
           "/p/data/secret/testdata.yaml" (YDict []) _DEFAULT_CONFIG s s').
  vm_compute. reflexivity.
Defined.

(** A manual unit (one declared with a null generator) is never
    generated: with its directory in place [_run_single] changes nothing,
    for a test case and for a group alike. *)
Theorem run_single_keeps_manual (C : Collaborators) (self : GeneratorManifest)
        (kind : GeneratedKind) (path : string) (config : pydict) (s : state) :
  kind <> TESTDATA_YAML ->
  Fs.stat s (if kind_eqb kind TESTGROUP then path else OsPath.dirname path)
  = Some Dir ->
  _run_single C self kind path YNull config s = (Ok tt, s).
Proof.
  intros Hk Hdir. unfold _run_single.
  assert (He : ensure_directory (if kind_eqb kind TESTGROUP then path
                                 else OsPath.dirname path) true s = (Ok tt, s)).
  { unfold ensure_directory. cbn [ensure_directory_scan].
    unfold bind, Fs.isdir. rewrite Hdir. reflexivity. }
  rewrite (bind_ok _ _ _ _ _ He). now destruct kind.
Qed.

Lemma run_single_keeps_manual_witness :
  let s := Sample.start "/" (Cases.with_manual "1.in") in
  _run_single (Sample.collaborators Cases.manual_manifest)
              (Sample.self Cases.manual_manifest) TESTCASE "/p/data/1.in" YNull
              _DEFAULT_CONFIG s = (Ok tt, s).
Proof.
  intros s.
  apply (run_single_keeps_manual (Sample.collaborators Cases.manual_manifest)
           (Sample.self Cases.manual_manifest) TESTCASE "/p/data/1.in"
           _DEFAULT_CONFIG s).
  - discriminate.
  - vm_compute. reflexivity.
Defined.

(* ===================================================================== *)
(** ** The scan after a group *)
(* ===================================================================== *)

(** The scan after a group passes over every name that the manifest of
    the group declares: when all the names in the directory are declared,
    it generates nothing and changes nothing. *)
Theorem post_group_skips_declared (C : Collaborators) (self : GeneratorManifest)
        (fuel : nat) (manifest : pydict) (path : string) (config : pydict)
        (s : state) (names : list string) :
  Fs.listdir path s = (Ok names, s) ->
  (forall n, In n names -> dict_mem n manifest = true) ->
  _run_post_group C self (S fuel) manifest path config s = (Ok tt, s).
Proof.
  intros Hls Hdecl. cbn [_run_post_group]. rewrite (bind_ok _ _ _ _ _ Hls).
  clear Hls. induction names as [|n names IH]; [reflexivity|]. cbn [for_each].
  rewrite (Hdecl n (or_introl eq_refl)).
  change (bind (ret tt) ?k s) with (k tt s). cbv beta.
  apply IH. intros m Hm. apply Hdecl. now right.
Qed.

Lemma post_group_skips_declared_witness :
  let s := Sample.start "/p/data" (Cases.with_manual "1.in") in
  _run_post_group (Sample.collaborators Cases.manual_manifest)
                  (Sample.self Cases.manual_manifest) 1
                  [("1.in", YNull)] "/p/data" Cases.ans_extension s = (Ok tt, s).
Proof.
  intros s.
  apply (post_group_skips_declared (Sample.collaborators Cases.manual_manifest)
           (Sample.self Cases.manual_manifest) 0 [("1.in", YNull)] "/p/data"
           Cases.ans_extension s ["1.in"]).
  - vm_compute. reflexivity.
  - intros n [<-|[]]. reflexivity.
Defined.

(* ===================================================================== *)
(** ** Where the programs of a chain are looked up *)
(* ===================================================================== *)

(** Every program that [_run_single] runs is named by the first token of
    a command of the unit's chain and is looked up in the [generators]
    directory of the package. *)
Theorem run_single_programs_in_generators (C : Collaborators)
        (self : GeneratorManifest) (kind : GeneratedKind) (path : string)
        (gen : yaml) (config : pydict) (s : state) (r : result unit) (s' : state) :
  _run_single C self kind path gen config s = (r, s') ->
  exists new,
    calls s' = (calls s ++ new)%list
    /\ Forall (fun inv =>
                 exists command token0 tokens,
                   In (YStr command) (as_list gen)
                   /\ Shlex.split command = Some (token0 :: tokens)
                   /\ inv_program inv
                      = OsPath.join (generator_path (problem self)) token0) new.
Proof.
  intros H.
  destruct (appends_run_single C self kind path gen config s r s' H)
    as (new & E & F).
  exists new. split; [exact E|]. eapply Forall_impl; [exact F|].
  intros inv (command & t0 & ts & Hin & Hs & Hp & _).
  exists command, t0, ts. auto.
Qed.

Lemma run_single_programs_in_generators_witness :
  let s := Sample.start "/" Cases.entered in
  let s' := snd (_run_single (Sample.collaborators (YDict [])) (Sample.self (YDict []))
                             TESTCASE "/p/data/1.in" (YStr "gen 1") _DEFAULT_CONFIG s) in
  exists new,
    calls s' = (calls s ++ new)%list
    /\ Forall (fun inv =>
                 exists command token0 tokens,
                   In (YStr command) (as_list (YStr "gen 1"))
                   /\ Shlex.split command = Some (token0 :: tokens)
                   /\ inv_program inv
                      = OsPath.join (generator_path (problem (Sample.self (YDict []))))
                                    token0) new.
Proof.
  intros s s'.
  apply (run_single_programs_in_generators (Sample.collaborators (YDict []))
           (Sample.self (YDict [])) TESTCASE "/p/data/1.in" (YStr "gen 1")
           _DEFAULT_CONFIG s
           (fst (_run_single (Sample.collaborators (YDict [])) (Sample.self (YDict []))
                             TESTCASE "/p/data/1.in" (YStr "gen 1") _DEFAULT_CONFIG s))).
  apply surjective_pairing.
Defined.

(** The programs of an extension chain are looked up in the problem
    directory itself, not in its [generators] directory: every program
    that [_generate_extensions] runs is the first token of a command of
    the chain it runs, joined to [probdir]. *)
Theorem extension_programs_in_probdir (C : Collaborators)
        (self : GeneratorManifest) (path : string) (config : pydict)
        (tmp_dir : option string) (s : state) (r : result unit) (s' : state) :
  _generate_extensions C self path config tmp_dir s = (r, s') ->
  exists new,
    calls s' = (calls s ++ new)%list
    /\ Forall (fun inv =>
                 exists exts gen command token0 tokens,
                   config_extensions config = Ok exts
                   /\ chain_run_for_extensions exts = Some gen
                   /\ In (YStr command) (as_list gen)
                   /\ Shlex.split command = Some (token0 :: tokens)
                   /\ inv_program inv
                      = OsPath.join (probdir (problem self)) token0) new.
Proof.
  intros H. destruct (config_extensions config) as [exts|e] eqn:Hexts.
  - destruct (appends_generate_extensions C self path config tmp_dir exts Hexts
                                          s r s' H) as (new & E & F).
    exists new. split; [exact E|]. eapply Forall_impl; [exact F|].
    intros inv (ext & gen & _ & Hgen & command & t0 & ts & Hin & Hs & Hp & _).
    exists exts, gen, command, t0, ts. auto.
  - exists []. split; [|auto]. rewrite app_nil_r.
    unfold _generate_extensions in H. rewrite Hexts in H.
    destruct (negb (Py.endswith path ".in")); now injection H as <- <-.
Qed.

Lemma extension_programs_in_probdir_witness :
  let C := Sample.collaborators Cases.ans_manifest in
  let self := Sample.self Cases.ans_manifest in
  let s := Sample.start "/" (<["/p/data/1.in" := File "by hand"]> Cases.entered) in
  let s' := snd (_generate_extensions C self "/p/data/1.in" Cases.ans_extension None s) in
  exists new,
    calls s' = (calls s ++ new)%list
    /\ Forall (fun inv =>
                 exists exts gen command token0 tokens,
                   config_extensions Cases.ans_extension = Ok exts
                   /\ chain_run_for_extensions exts = Some gen
                   /\ In (YStr command) (as_list gen)
                   /\ Shlex.split command = Some (token0 :: tokens)
                   /\ inv_program inv
                      = OsPath.join (probdir (problem self)) token0) new.
Proof.
  intros C self s s'.
  apply (extension_programs_in_probdir C self "/p/data/1.in" Cases.ans_extension
           None s
           (fst (_generate_extensions C self "/p/data/1.in" Cases.ans_extension None s))).
  apply surjective_pairing.
Defined.

(* ===================================================================== *)
(** ** Cleaning a manifest that has been walked *)
(* ===================================================================== *)

Lemma merge_extensions_has_extensions (value : pydict) :
  forall config config',
    has_extensions config -> merge_extensions value config = Ok config' ->
    has_extensions config'.
Proof.
  induction value as [|[ext gen] rest IH]; intros config config' Hc H;
    cbn [merge_extensions] in H.
  - now injection H as <-.
  - destruct (dict_get "extensions" config) as [[ | | | | |e]|]; try discriminate.
    destruct (negb (truthy gen)).
    + destruct (dict_del ext e) as [e'|]; [|discriminate].
      eapply IH; [|exact H]. exists e'. now rewrite dict_get_set.
    + eapply IH; [|exact H]. eexists. now rewrite dict_get_set.
Qed.

Lemma merge_items_has_extensions (items : pydict) :
  forall config config',
    has_extensions config -> merge_items items config = Ok config' ->
    has_extensions config'.
Proof.
  induction items as [|[key value] rest IH]; intros config config' Hc H;
    cbn [merge_items] in H.
  - now injection H as <-.
  - destruct (String.eqb key "extensions") eqn:Hk.
    + destruct value as [ | | | | |exts]; try discriminate.
      destruct (merge_extensions exts config) as [c1|e] eqn:Hm; [|discriminate].
      eapply IH; [|exact H]. eapply merge_extensions_has_extensions; eauto.
    + eapply IH; [|exact H]. destruct Hc as [e He]. exists e.
      now rewrite dict_get_set, Hk.
Qed.

Lemma endswith_app (p k suffix : string) :
  Py.endswith k suffix = true -> Py.endswith (p ++ k) suffix = true.
Proof.
  unfold Py.endswith, Py.len. intros H. apply andb_true_iff in H as [Hlen Heq].
  apply Nat.leb_le in Hlen. rewrite str_length_app. apply andb_true_iff. split.
  - apply Nat.leb_le. lia.
  - replace (String.length p + String.length k - String.length suffix)%nat
      with (String.length p + (String.length k - String.length suffix))%nat by lia.
    clear Hlen. induction p as [|x p IH]; [exact Heq|].
    rewrite str_app_cons. cbn [String.length Nat.add substring]. exact IH.
Qed.

Lemma endswith_join (path key suffix : string) :
  Py.endswith key suffix = true ->
  Py.endswith (OsPath.join path key) suffix = true.
Proof.
  intros H. unfold OsPath.join.
  destruct (Py.startswith key "/"); [exact H|].
  destruct (_ || _); [now apply endswith_app|].
  now apply endswith_app, endswith_app.
Qed.

Lemma quiet_ok_anywhere (m : M unit) (sV sV' s : state) :
  quiet m -> m sV = (Ok tt, sV') -> exists s', m s = (Ok tt, s').
Proof.
  intros Hq H. destruct (quiet_transfer m _ _ _ Hq H) as [w Hw].
  eexists. apply Hw.
Qed.

Section CleanAfterWalk.

Variable handler : GeneratedKind -> string -> yaml -> pydict -> M unit.
Variable post : option (pydict -> string -> pydict -> M unit).

Lemma clean_walk_items (l : pydict) :
  Forall (fun kv =>
            forall path cfg sV sV' s,
              has_extensions cfg ->
              _walk_group handler post (snd kv) path cfg sV = (Ok tt, sV') ->
              exists s', _walk_group _clean_single None (snd kv) path cfg s
                         = (Ok tt, s')) l ->
  forall path cfg sV sV' s,
    has_extensions cfg ->
    walk_items handler post (_walk_group handler post) path cfg l sV = (Ok tt, sV') ->
    exists s', walk_items _clean_single None (_walk_group _clean_single None)
                          path cfg l s = (Ok tt, s').
Proof.
  induction 1 as [|[key value] l Hv _ IH]; intros path cfg sV sV' s Hcfg H;
    cbn [walk_items] in *; [now exists s|].
  apply bind_ok_inv in H as ([] & sV1 & He & Hrest).
  assert (Hentry : exists s1,
    (if String.eqb key "" then error (EmptyKey path)
     else if String.eqb key "config" then ret tt
     else if negb (key_regex_match key) then error (InvalidKey key path)
     else if String.eqb key "testdata.yaml" then
       _validate_testdata_yaml value path ;;;
       _clean_single TESTDATA_YAML (OsPath.join path key) value cfg
     else
       match value with
       | YDict _ => _walk_group _clean_single None value (OsPath.join path key) cfg
       | _ =>
           _validate_generator value (OsPath.join path key) true ;;;
           let kind := if Py.endswith key ".in" then TESTCASE else TESTGROUP in
           _clean_single kind (OsPath.join path key) value cfg ;;;
           if kind_eqb kind TESTGROUP
           then call_post None [] (OsPath.join path key) cfg
           else ret tt
       end) s = (Ok tt, s1)).
  { clear Hrest IH. destruct Hcfg as [e Hexts].
    assert (Hce : config_extensions cfg = Ok e)
      by (unfold config_extensions; now rewrite Hexts).
    unfold error in *.
    destruct (String.eqb key ""); [discriminate|].
    destruct (String.eqb key "config"); [now exists s|].
    destruct (negb (key_regex_match key)); [discriminate|].
    destruct (String.eqb key "testdata.yaml").
    - apply bind_ok_inv in He as ([] & sV2 & Ht & _).
      destruct (quiet_ok_anywhere _ _ _ s (quiet_validate_testdata_yaml _ _) Ht)
        as [s2 H2].
      rewrite (bind_ok _ _ _ _ _ H2).
      eapply clean_single_returns; [exact Hce | discriminate].
    - assert (Hleaf :
        (_validate_generator value (OsPath.join path key) true ;;;
         handler (if Py.endswith key ".in" then TESTCASE else TESTGROUP)
                 (OsPath.join path key) value cfg ;;;
         if kind_eqb (if Py.endswith key ".in" then TESTCASE else TESTGROUP) TESTGROUP
         then call_post post [] (OsPath.join path key) cfg
         else ret tt) sV = (Ok tt, sV1) ->
        exists s1,
          (_validate_generator value (OsPath.join path key) true ;;;
           _clean_single (if Py.endswith key ".in" then TESTCASE else TESTGROUP)
                         (OsPath.join path key) value cfg ;;;
           if kind_eqb (if Py.endswith key ".in" then TESTCASE else TESTGROUP)
                       TESTGROUP
           then call_post None [] (OsPath.join path key) cfg
           else ret tt) s = (Ok tt, s1)).
      { intros Hl. apply bind_ok_inv in Hl as ([] & sV2 & Hg & _).
        destruct (quiet_ok_anywhere _ _ _ s (quiet_validate_generator _ _ _) Hg)
          as [s2 H2].
        rewrite (bind_ok _ _ _ _ _ H2).
        destruct (clean_single_returns
                    (if Py.endswith key ".in" then TESTCASE else TESTGROUP)
                    (OsPath.join path key) value cfg e s2 Hce) as [s3 H3].
        { destruct (Py.endswith key ".in") eqn:Hend; [|discriminate].
          intros _. now apply endswith_join. }
        rewrite (bind_ok _ _ _ _ _ H3). cbn [call_post].
        destruct (kind_eqb _ _); now exists s3. }
      destruct value; try (apply Hleaf; exact He).
      cbn [snd] in Hv. eapply Hv; [exists e; exact Hexts | exact He]. }
  destruct Hentry as [s1 H1]. rewrite (bind_ok _ _ _ _ _ H1).
  eapply IH; [exact Hcfg | exact Hrest].
Qed.

Lemma clean_walk_group (m : yaml) :
  forall path cfg sV sV' s,
    has_extensions cfg ->
    _walk_group handler post m path cfg sV = (Ok tt, sV') ->
    exists s', _walk_group _clean_single None m path cfg s = (Ok tt, s').
Proof.
  induction m as [ |b|n|str|l IHl|items IH] using yaml_nested_ind;
    intros path cfg sV sV' s Hcfg H; try discriminate.
  cbn [_walk_group] in *.
  apply bind_ok_inv in H as ([] & sV1 & Hc & H).
  apply bind_ok_inv in H as (config & sV2 & Hm & H).
  apply bind_ok_inv in H as ([] & sV3 & Hi & _).
  destruct (quiet_ok_anywhere _ _ _ s (quiet_validate_config _ _) Hc) as [s1 H1].
  rewrite (bind_ok _ _ _ _ _ H1).
  unfold lift in Hm. injection Hm as Hm _.
  assert (Hm' : lift (_merge_configs cfg
                        (match dict_get "config" items with
                         | Some c => c
                         | None => YDict []
                         end)) s1 = (Ok config, s1))
    by (unfold lift; now rewrite Hm).
  rewrite (bind_ok _ _ _ _ _ Hm').
  assert (Hcfg' : has_extensions config).
  { unfold _merge_configs in Hm.
    destruct (match dict_get "config" items with Some c => c | None => YDict [] end)
      as [ | | | | |citems]; try discriminate.
    eapply merge_items_has_extensions; eauto. }
  destruct (clean_walk_items items IH path config sV2 sV3 s1 Hcfg' Hi) as [s2 H2].
  rewrite (bind_ok _ _ _ _ _ H2). cbn [call_post]. now exists s2.
Qed.

End CleanAfterWalk.

(** Cleaning cannot fail on a manifest that has been walked: when some
    walk of the manifest went through, as the one of [__enter__] has when
    [clean] is called, then [clean] returns from every state of the file
    system.  What it cannot remove it warns about. *)
Theorem clean_succeeds_after_walk
        (handler : GeneratedKind -> string -> yaml -> pydict -> M unit)
        (post : option (pydict -> string -> pydict -> M unit))
        (self : GeneratorManifest) (sV sV' s : state) :
  _walk handler post self sV = (Ok tt, sV') ->
  exists s', clean self s = (Ok tt, s').
Proof.
  unfold clean, _walk. apply clean_walk_group.
  exists []. reflexivity.
Qed.

Lemma clean_succeeds_after_walk_witness :
  exists s', clean (Sample.self Cases.without_override_manifest)
                   (Sample.start "/" (Cases.with_manual "sample/1.in"))
             = (Ok tt, s').
Proof.
  apply (clean_succeeds_after_walk enter_handler None
           (Sample.self Cases.without_override_manifest)
           (Sample.start "/" Sample.files)
           (snd (_walk enter_handler None (Sample.self Cases.without_override_manifest)
                       (Sample.start "/" Sample.files)))).
  vm_compute. reflexivity.
Defined.

(* ===================================================================== *)
(** ** A command that fails *)
(* ===================================================================== *)

Lemma execute_commands_app (C : Collaborators) (self : GeneratorManifest)
      (gen_path tmp_dir gen_dir path : string) (l1 l2 : list yaml) :
  forall input_path s,
    execute_commands C self gen_path tmp_dir gen_dir path input_path (l1 ++ l2) s
    = (ip <- execute_commands C self gen_path tmp_dir gen_dir path input_path l1 ;;
       execute_commands C self gen_path tmp_dir gen_dir path ip l2) s.
Proof.
  induction l1 as [|c l1 IH]; intros input_path s; cbn [app execute_commands].
  - reflexivity.
  - unfold bind.
    destruct (execute_command C self gen_path tmp_dir gen_dir path input_path c s)
      as [[ip|e] s1]; [|reflexivity].
    rewrite IH. reflexivity.
Qed.

(** The chain stops at the command that fails.  When the commands before
    [c] have run and the program of [c], run in the file system that
    these leave, ends with a non-zero exit status, then
    [_execute_generator] raises, with the error that names the command
    and its exit status unless the directory to return to is gone, and
    the run of [c] is the last one made: no command after [c] is run. *)
Theorem execute_generator_stops_at_failure (C : Collaborators)
        (self : GeneratorManifest) (gen : yaml)
        (gen_path tmp_dir gen_dir path : string)
        (input_filename output_filename : option string)
        (done rest : list yaml) (c : string) (ip : option string)
        (program g : string) (arguments : list string) (s s1 s2 s3 : state) :
  as_list gen = (done ++ YStr c :: rest)%list ->
  execute_commands C self gen_path tmp_dir gen_dir path
    (match input_filename with
     | Some f => Some (OsPath.join gen_dir f)
     | None => None
     end) done s = (Ok ip, s1) ->
  _parse_command c gen_path path = Ok (program, arguments) ->
  _get_generator C self program s1 = (Ok g, s2) ->
  Fs.chdir gen_dir s2 = (Ok tt, s3) ->
  let inv := {| inv_program := g;
                inv_args := match arguments with [] => None | _ => Some arguments end;
                inv_infile := ip;
                inv_outfile := Some (OsPath.join tmp_dir "_tmp_output");
                inv_cwd := gen_dir |} in
  let returncode := WEXITSTATUS (fst (program_run C inv (fs s3))) in
  returncode <> 0 ->
  exists e s',
    _execute_generator C self gen gen_path tmp_dir gen_dir path
                       input_filename output_filename s = (Raise e, s')
    /\ calls s' = (calls s1 ++ [inv])%list
    /\ (e = GeneratorError (GeneratorTerminated c returncode) \/ e = OSError (cwd s2)).
Proof.
  intros Hgen Hdone Hparse Hget Hcd inv returncode Hrc.
  assert (Hcalls3 : calls s3 = calls s1).
  { rewrite (silent_chdir _ _ _ _ Hcd). eapply silent_get_generator, Hget. }
  unfold _execute_generator. rewrite Hgen.
  unfold bind at 1. rewrite execute_commands_app.
  rewrite (bind_ok _ _ _ _ _ Hdone). cbn [execute_commands].
  unfold bind at 1. cbn [execute_command].
  unfold bind at 1. unfold lift at 1. rewrite Hparse.
  rewrite (bind_ok _ _ _ _ _ Hget).
  unfold bind at 1. unfold Fs.getcwd at 1.
  rewrite (bind_ok _ _ _ _ _ Hcd).
  unfold bind at 1. unfold generator_run at 1. fold inv.
  subst returncode.
  destruct (program_run C inv (fs s3)) as [status fs'] eqn:Hrun. cbn [fst] in Hrc.
  set (s4 := set_calls (calls s3 ++ [inv]) (set_fs fs' s3)).
  unfold bind at 1.
  destruct (Fs.chdir (cwd s2) s4) as [[[]|e] s5] eqn:Hback.
  - apply Z.eqb_neq in Hrc. rewrite Hrc. cbn [negb].
    unfold bind, error, raise.
    exists (GeneratorError (GeneratorTerminated c (WEXITSTATUS status))), s5.
    split; [reflexivity|]. split; [|now left].
    rewrite (silent_chdir _ _ _ _ Hback). cbn [calls set_calls s4].
    now rewrite Hcalls3.
  - exists e, s5. split; [reflexivity|].
    unfold Fs.chdir in Hback.
    destruct (Fs.stat s4 (cwd s2)) as [[x|]|]; simplify_eq;
      (split; [cbn [calls set_calls]; now rewrite Hcalls3 | now right]).
Qed.

Lemma execute_generator_stops_at_failure_witness :
  let C := {| yaml_load := fun _ => None;
              yaml_dump := fun _ => "";
              program_compile := fun _ _ _ => Some true;
              program_run := fun inv m =>
                if String.eqb (inv_program inv) "/p/generators/filter"
                then (256, m) else Sample.echo_run inv m |} in
  let self := Sample.self (YDict []) in
  let s := Sample.start "/" (<["/tmp/gendata-p-0/u/gen" := Dir]>
                              (<["/tmp/gendata-p-0/u" := Dir]> Cases.entered)) in
  exists e s',
    _execute_generator C self (YList [YStr "gen 1"; YStr "filter"; YStr "never"])
                       "/p/generators" "/tmp/gendata-p-0/u" "/tmp/gendata-p-0/u/gen"
                       "1.in" None (Some "1.in") s = (Raise e, s')
    /\ List.map inv_program (calls s') = ["/p/generators/gen"; "/p/generators/filter"]
    /\ e = GeneratorError (GeneratorTerminated "filter" 1).
Proof.
  intros C self s.
  edestruct (execute_generator_stops_at_failure C self
               (YList [YStr "gen 1"; YStr "filter"; YStr "never"])
               "/p/generators" "/tmp/gendata-p-0/u" "/tmp/gendata-p-0/u/gen"
               "1.in" None (Some "1.in") [YStr "gen 1"] [YStr "never"] "filter"
               (Some "/tmp/gendata-p-0/u/_tmp_input")
               "/p/generators/filter" "/p/generators/filter" [] s)
    as (e & s' & Hrun & Hcalls & He).
  - reflexivity.
  - vm_compute. reflexivity.
  - vm_compute. reflexivity.
  - vm_compute. reflexivity.
  - vm_compute. reflexivity.
  - vm_compute. discriminate.
  - exists e, s'. split; [exact Hrun|].
    split; [rewrite Hcalls; vm_compute; reflexivity|].
    destruct He as [He|He]; [exact He|]. exfalso.
    rewrite He in Hrun. vm_compute in Hrun. discriminate.
Defined.

(* ===================================================================== *)
(** ** The working directory *)
(* ===================================================================== *)

Section KeepsOnSuccess.

Variable R : state -> state -> Prop.
Hypothesis R_refl : forall s, R s s.
Hypothesis R_trans : forall a b c, R a b -> R b c -> R a c.

Lemma keeps_preserves {A} (m : M A) : preserves R m -> keeps_on_success R m.
Proof. intros H s a s' Hm. eapply H, Hm. Qed.

Lemma keeps_bind {A B} (m : M A) (k : A -> M B) :
  keeps_on_success R m -> (forall a, keeps_on_success R (k a)) ->
  keeps_on_success R (bind m k).
Proof.
  intros Hm Hk s b s' H. apply bind_ok_inv in H as (a & s1 & H1 & H2).
  eapply R_trans; [eapply Hm, H1 | eapply Hk, H2].
Qed.

Lemma keeps_for_each {A} (l : list A) (body : A -> M unit) :
  (forall x, keeps_on_success R (body x)) -> keeps_on_success R (for_each l body).
Proof.
  intros Hb. induction l as [|x l IH]; cbn [for_each].
  - apply keeps_preserves, preserves_ret, R_refl.
  - apply keeps_bind; [apply Hb | intros _; exact IH].
Qed.

Lemma keeps_try_finally {A} (body : M A) (cleanup : M unit) :
  keeps_on_success R body -> keeps_on_success R cleanup ->
  keeps_on_success R (try_finally body cleanup).
Proof.
  intros Hb Hc s a s' H. unfold try_finally in H.
  destruct (body s) as [rb s1] eqn:Hbs.
  destruct (cleanup s1) as [[[]|e] s2] eqn:Hcs; [|discriminate].
  injection H as -> <-.
  eapply R_trans; [eapply Hb, Hbs | eapply Hc, Hcs].
Qed.

Hypothesis R_warn : forall w s, R s (add_warnings w s).

Variable handler : GeneratedKind -> string -> yaml -> pydict -> M unit.
Variable post : option (pydict -> string -> pydict -> M unit).
Hypothesis handler_keeps :
  forall kind path gen config, keeps_on_success R (handler kind path gen config).
Hypothesis post_keeps :
  forall manifest path config,
    keeps_on_success R (call_post post manifest path config).

Lemma keeps_quiet {A} (m : M A) : quiet m -> keeps_on_success R m.
Proof. intros H. now apply keeps_preserves, preserves_quiet. Qed.

Lemma keeps_walk_items (l : pydict) :
  Forall (fun kv => forall path cfg,
            keeps_on_success R (_walk_group handler post (snd kv) path cfg)) l ->
  forall path cfg,
    keeps_on_success R
      (walk_items handler post (_walk_group handler post) path cfg l).
Proof.
  induction 1 as [|[key value] l Hv _ IH]; intros path cfg; cbn [walk_items].
  - apply keeps_preserves, preserves_ret, R_refl.
  - apply keeps_bind; [|intros _; apply IH].
    unfold error.
    destruct (String.eqb key ""); [apply keeps_preserves, preserves_raise, R_refl|].
    destruct (String.eqb key "config"); [apply keeps_preserves, preserves_ret, R_refl|].
    destruct (negb (key_regex_match key));
      [apply keeps_preserves, preserves_raise, R_refl|].
    destruct (String.eqb key "testdata.yaml").
    + apply keeps_bind; [|intros _; apply handler_keeps].
      apply keeps_quiet, quiet_validate_testdata_yaml.
    + assert (Hleaf : keeps_on_success R
                (_validate_generator value (OsPath.join path key) true ;;;
                 handler (if Py.endswith key ".in" then TESTCASE else TESTGROUP)
                         (OsPath.join path key) value cfg ;;;
                 if kind_eqb (if Py.endswith key ".in" then TESTCASE else TESTGROUP)
                             TESTGROUP
                 then call_post post [] (OsPath.join path key) cfg
                 else ret tt)).
      { apply keeps_bind; [apply keeps_quiet, quiet_validate_generator | intros _].
        apply keeps_bind; [apply handler_keeps | intros _].
        destruct (kind_eqb _ _);
          [apply post_keeps | apply keeps_preserves, preserves_ret, R_refl]. }
      destruct value; try exact Hleaf. apply Hv.
Qed.

Lemma keeps_walk_group (m : yaml) (path : string) (cfg : pydict) :
  keeps_on_success R (_walk_group handler post m path cfg).
Proof.
  revert path cfg.
  induction m as [ |b|n|str|l IHl|items IH] using yaml_nested_ind;
    intros path cfg; cbn [_walk_group];
    try apply keeps_preserves, preserves_raise, R_refl.
  apply keeps_bind; [apply keeps_quiet, quiet_validate_config | intros _].
  apply keeps_bind; [apply keeps_preserves, preserves_lift, R_refl | intros config].
  apply keeps_bind; [|intros _; apply post_keeps].
  apply keeps_walk_items, IH.
Qed.

End KeepsOnSuccess.

Lemma cwd_kept_refl (s : state) : cwd_kept s s.
Proof. intros _. reflexivity. Qed.

Lemma cwd_kept_trans (a b c : state) : cwd_kept a b -> cwd_kept b c -> cwd_kept a c.
Proof.
  intros Hab Hbc Hn. pose proof (Hab Hn) as E. rewrite <- E. apply Hbc.
  now rewrite E.
Qed.

Lemma cwd_kept_warn (w : list string) (s : state) : cwd_kept s (add_warnings w s).
Proof. intros _. reflexivity. Qed.

Create HintDb cwd.

Ltac cwd_prim :=
  let H := fresh "H" in
  intros ? ? ? H _; repeat case_match; simplify_eq; reflexivity.

Lemma cwd_ret {A} (a : A) : keeps_on_success cwd_kept (ret a).
Proof. unfold ret. cwd_prim. Qed.
Lemma cwd_raise {A} (e : exn) : keeps_on_success cwd_kept (@raise A e).
Proof. unfold raise. cwd_prim. Qed.
Lemma cwd_lift {A} (x : result A) : keeps_on_success cwd_kept (lift x).
Proof. unfold lift. cwd_prim. Qed.
Lemma cwd_get : keeps_on_success cwd_kept get.
Proof. unfold get. cwd_prim. Qed.
Lemma cwd_exists (p : string) : keeps_on_success cwd_kept (Fs.exists_ p).
Proof. unfold Fs.exists_. cwd_prim. Qed.
Lemma cwd_isdir (p : string) : keeps_on_success cwd_kept (Fs.isdir p).
Proof. unfold Fs.isdir. cwd_prim. Qed.
Lemma cwd_isfile (p : string) : keeps_on_success cwd_kept (Fs.isfile p).
Proof. unfold Fs.isfile. cwd_prim. Qed.
Lemma cwd_unlink (p : string) : keeps_on_success cwd_kept (Fs.unlink p).
Proof. unfold Fs.unlink. cwd_prim. Qed.
Lemma cwd_rmtree (p : string) : keeps_on_success cwd_kept (Fs.rmtree p).
Proof. unfold Fs.rmtree. cwd_prim. Qed.
Lemma cwd_mkdir (p : string) : keeps_on_success cwd_kept (Fs.mkdir p).
Proof. unfold Fs.mkdir. cwd_prim. Qed.
Lemma cwd_write_file (p c : string) : keeps_on_success cwd_kept (Fs.write_file p c).
Proof. unfold Fs.write_file. cwd_prim. Qed.
Lemma cwd_chmod (p : string) : keeps_on_success cwd_kept (Fs.chmod p).
Proof. unfold Fs.chmod. cwd_prim. Qed.
Lemma cwd_move (src dst : string) : keeps_on_success cwd_kept (Fs.move src dst).
Proof. unfold Fs.move. cwd_prim. Qed.
Lemma cwd_copy (src dst : string) : keeps_on_success cwd_kept (Fs.copy src dst).
Proof.
  intros s a s' H. unfold Fs.copy in H.
  destruct (Fs.stat s src) as [[c|]|]; try discriminate.
  eapply cwd_write_file, H.
Qed.
Lemma cwd_listdir (p : string) : keeps_on_success cwd_kept (Fs.listdir p).
Proof. unfold Fs.listdir. cwd_prim. Qed.
Lemma cwd_walk (p : string) : keeps_on_success cwd_kept (Fs.walk p).
Proof. unfold Fs.walk. cwd_prim. Qed.
Lemma cwd_mkdtemp (dir prefix : string) :
  keeps_on_success cwd_kept (Fs.mkdtemp dir prefix).
Proof.
  intros s a s' H _. unfold Fs.mkdtemp in H.
  destruct (Fs.mkdir _ _) as [[[]|e] s1] eqn:Hmk; [|discriminate].
  injection H as _ <-. unfold Fs.mkdir in Hmk.
  repeat case_match; simplify_eq; reflexivity.
Qed.

#[local] Hint Resolve cwd_ret cwd_raise cwd_lift cwd_get cwd_exists cwd_isdir
  cwd_isfile cwd_unlink cwd_rmtree cwd_mkdir cwd_write_file cwd_chmod cwd_move
  cwd_copy cwd_listdir cwd_walk cwd_mkdtemp : cwd.

Ltac cwd_step :=
  first [ solve [auto with cwd]
        | apply (keeps_bind cwd_kept cwd_kept_trans); [|intros ?]
        | apply (keeps_try_finally cwd_kept cwd_kept_trans)
        | apply (keeps_for_each cwd_kept cwd_kept_refl cwd_kept_trans); intros ?
        | match goal with
          | |- keeps_on_success _ (if ?b then _ else _) => destruct b
          end
        | match goal with
          | |- keeps_on_success _ (match ?x with _ => _ end) => destruct x
          end ].

Lemma cwd_rmtree_or_unlink (path : string) :
  keeps_on_success cwd_kept (rmtree_or_unlink_if_exists path).
Proof. unfold rmtree_or_unlink_if_exists. repeat cwd_step. Qed.

#[local] Hint Resolve cwd_rmtree_or_unlink : cwd.

Lemma cwd_ensure_directory_scan (fuel : nat) (path : string) (recursive : bool)
      (create : list string) :
  keeps_on_success cwd_kept (ensure_directory_scan fuel path recursive create).
Proof.
  revert path create. induction fuel as [|fuel IH]; intros path create;
    cbn [ensure_directory_scan]; repeat cwd_step.
Qed.

Lemma cwd_ensure_directory_create (path : string) (create : list string) :
  keeps_on_success cwd_kept (ensure_directory_create path create).
Proof.
  revert path. induction create as [|d create IH]; intros path;
    cbn [ensure_directory_create]; repeat cwd_step.
Qed.

Lemma cwd_ensure_directory (path : string) (recursive : bool) :
  keeps_on_success cwd_kept (ensure_directory path recursive).
Proof.
  unfold ensure_directory. apply (keeps_bind cwd_kept cwd_kept_trans).
  - apply cwd_ensure_directory_scan.
  - intros ?. apply cwd_ensure_directory_create.
Qed.

#[local] Hint Resolve cwd_ensure_directory : cwd.

Lemma normpath_absolute (p : string) : Py.startswith (Fs.normpath p) "/" = true.
Proof.
  unfold Fs.normpath, Py.startswith. rewrite str_app_cons. cbn [String.prefix].
  destruct (ascii_dec "/" "/") as [_|Hne]; [|now elim Hne].
  now destruct (_ ++ _).
Qed.

Lemma resolve_normal (s : state) (p : string) :
  Fs.normpath p = p -> Fs.resolve s p = p.
Proof.
  intros Hn. unfold Fs.resolve, OsPath.join.
  rewrite <- Hn at 1. rewrite normpath_absolute. exact Hn.
Qed.

Section CwdEngine.

Variable C : Collaborators.
Variable self : GeneratorManifest.

Lemma cwd_get_generator (path : string) :
  keeps_on_success cwd_kept (_get_generator C self path).
Proof.
  unfold _get_generator, error. repeat cwd_step.
  intros ? ? ? [= _ <-] _. reflexivity.
Qed.

Lemma cwd_execute_command (gen_path tmp_dir gen_dir path : string)
      (input_path : option string) (command : yaml) :
  keeps_on_success cwd_kept
    (execute_command C self gen_path tmp_dir gen_dir path input_path command).
Proof.
  destruct command as [ | | |c| | ]; try apply cwd_raise.
  cbn [execute_command]. intros s a s' H Hn.
  apply bind_ok_inv in H as ([program_path arguments] & s0 & Hp & H).
  injection Hp as _ <-.
  apply bind_ok_inv in H as (generator & s1 & Hg & H).
  apply cwd_get_generator in Hg. specialize (Hg Hn).
  apply bind_ok_inv in H as (old_wd & s1' & Hwd & H).
  injection Hwd as <- <-.
  apply bind_ok_inv in H as ([] & s2 & Hcd & H).
  apply bind_ok_inv in H as (status & s3 & Hrun & H).
  apply bind_ok_inv in H as ([] & s4 & Hback & H).
  assert (E4 : cwd s4 = cwd s).
  { unfold Fs.chdir in Hback.
    destruct (Fs.stat s3 (cwd s1)) as [[x|]|]; try discriminate.
    injection Hback as <-. cbn [cwd set_cwd]. rewrite Hg.
    now apply resolve_normal. }
  assert (Hrest : keeps_on_success cwd_kept
            ((if negb (WEXITSTATUS status =? 0)
              then error (GeneratorTerminated c (WEXITSTATUS status)) else ret tt) ;;;
             Fs.chmod (OsPath.join tmp_dir "_tmp_output") ;;;
             rmtree_or_unlink_if_exists (OsPath.join tmp_dir "_tmp_input") ;;;
             Fs.move (OsPath.join tmp_dir "_tmp_output")
                     (OsPath.join tmp_dir "_tmp_input") ;;;
             ret (Some (OsPath.join tmp_dir "_tmp_input")))).
  { unfold error. repeat cwd_step. }
  rewrite <- E4. apply (Hrest _ _ _ H). now rewrite E4.
Qed.

Lemma cwd_execute_commands (gen_path tmp_dir gen_dir path : string)
      (l : list yaml) :
  forall input_path,
    keeps_on_success cwd_kept
      (execute_commands C self gen_path tmp_dir gen_dir path input_path l).
Proof.
  induction l as [|c l IH]; intros input_path; cbn [execute_commands].
  - apply cwd_ret.
  - apply (keeps_bind cwd_kept cwd_kept_trans);
      [apply cwd_execute_command | intros ip; apply IH].
Qed.

Lemma cwd_execute_generator (gen : yaml) (gen_path tmp_dir gen_dir path : string)
      (input_filename output_filename : option string) :
  keeps_on_success cwd_kept
    (_execute_generator C self gen gen_path tmp_dir gen_dir path
                        input_filename output_filename).
Proof.
  unfold _execute_generator. apply (keeps_bind cwd_kept cwd_kept_trans).
  - apply cwd_execute_commands.
  - intros [ip|]; [|apply cwd_raise]. destruct output_filename; repeat cwd_step.
Qed.

Lemma cwd_merge_directory (config : pydict) (gen_dir target_dir : string)
      (entry : string * list string) :
  keeps_on_success cwd_kept (merge_directory config gen_dir target_dir entry).
Proof. unfold merge_directory. destruct entry. repeat cwd_step. Qed.

Lemma cwd_run_single (kind : GeneratedKind) (path : string) (gen : yaml)
      (config : pydict) :
  keeps_on_success cwd_kept (_run_single C self kind path gen config).
Proof.
  unfold _run_single.
  apply (keeps_bind cwd_kept cwd_kept_trans); [auto with cwd|]. intros _.
  destruct (kind_eqb kind TESTDATA_YAML); [auto with cwd|].
  destruct (is_none gen); [auto with cwd|].
  apply (keeps_bind cwd_kept cwd_kept_trans); [auto with cwd|]. intros tmp.
  apply (keeps_try_finally cwd_kept cwd_kept_trans); [|auto with cwd].
  apply (keeps_bind cwd_kept cwd_kept_trans); [auto with cwd|]. intros _.
  apply (keeps_bind cwd_kept cwd_kept_trans); [apply cwd_execute_generator|].
  intros _.
  apply (keeps_bind cwd_kept cwd_kept_trans); [auto with cwd|]. intros entries.
  apply (keeps_for_each cwd_kept cwd_kept_refl cwd_kept_trans). intros entry.
  apply cwd_merge_directory.
Qed.

Lemma cwd_generate_extensions (path : string) (config : pydict)
      (tmp_dir : option string) :
  keeps_on_success cwd_kept (_generate_extensions C self path config tmp_dir).
Proof.
  unfold _generate_extensions.
  destruct (negb (Py.endswith path ".in")); [apply cwd_raise|].
  apply (keeps_bind cwd_kept cwd_kept_trans); [auto with cwd|]. intros exts.
  destruct (partition_extensions exts ["in"] [] None) as [[old new] gen].
  destruct (_ && _); [apply cwd_ret|].
  apply (keeps_bind cwd_kept cwd_kept_trans); [destruct tmp_dir; auto with cwd|].
  intros tmp.
  apply (keeps_try_finally cwd_kept cwd_kept_trans);
    [|destruct (negb _); auto with cwd].
  apply (keeps_bind cwd_kept cwd_kept_trans);
    [destruct (negb _); auto with cwd|]. intros _.
  apply (keeps_bind cwd_kept cwd_kept_trans); [repeat cwd_step|]. intros _.
  apply (keeps_bind cwd_kept cwd_kept_trans).
  - apply (keeps_for_each cwd_kept cwd_kept_refl cwd_kept_trans). intros ext.
    destruct gen; [apply cwd_execute_generator | apply cwd_raise].
  - intros _. repeat cwd_step.
Qed.

Lemma cwd_run_post_group (fuel : nat) :
  forall manifest path config,
    keeps_on_success cwd_kept (_run_post_group C self fuel manifest path config).
Proof.
  induction fuel as [|fuel IH]; intros manifest path config;
    cbn [_run_post_group]; [apply cwd_raise|].
  apply (keeps_bind cwd_kept cwd_kept_trans); [auto with cwd|]. intros names.
  apply (keeps_for_each cwd_kept cwd_kept_refl cwd_kept_trans). intros fname.
  destruct (dict_mem fname manifest); [apply cwd_ret|].
  apply (keeps_bind cwd_kept cwd_kept_trans); [auto with cwd|]. intros [|].
  - apply IH.
  - apply (keeps_bind cwd_kept cwd_kept_trans); [auto with cwd|]. intros f.
    destruct (_ && _); [apply cwd_generate_extensions | apply cwd_ret].
Qed.

End CwdEngine.

(** A run that goes through leaves the working directory where it was:
    every generator is run from its staging directory, and [run] is back
    in the directory it started from when it returns. *)
Theorem run_keeps_cwd (C : Collaborators) (self : GeneratorManifest)
        (s s' : state) :
  Fs.normpath (cwd s) = cwd s ->
  run C self s = (Ok tt, s') ->
  cwd s' = cwd s.
Proof.
  intros Hn H. revert Hn. unfold run, _walk in H.
  eapply (keeps_walk_group cwd_kept cwd_kept_refl cwd_kept_trans cwd_kept_warn);
    [| |exact H].
  - apply cwd_run_single.
  - intros manifest path config. cbn [call_post].
    intros s0 a s0' H0. eapply cwd_run_post_group, H0.
Qed.

Lemma run_keeps_cwd_witness :
  let C := Sample.collaborators (YDict [("1.in", YStr "gen 1")]) in
  let self := Sample.self (YDict [("1.in", YStr "gen 1")]) in
  let s := Sample.start "/p" Cases.entered in
  cwd (snd (run C self s)) = cwd s.
Proof.
  intros C self s. apply (run_keeps_cwd C self s (snd (run C self s))).
  - vm_compute. reflexivity.
  - vm_compute. reflexivity.
Defined.

(* ===================================================================== *)
(** ** Entering a manifest without duplicates *)
(* ===================================================================== *)

Lemma enter_succeeds_without_duplicates_witness :
  exists s',
    GeneratorManifest_enter (Sample.collaborators Cases.without_override_manifest)
                            Sample.package (Sample.start "/" Sample.files)
    = (Ok {| problem := Sample.package; tmpdir := "/tmp/gendata-p-0";
             manifest := Cases.without_override_manifest |}, s')
    /\ paths s'
       = list_to_set (leaf_paths Cases.without_override_manifest
                                 (data_path Sample.package)).
Proof.
  eapply (enter_succeeds_without_duplicates
            (Sample.collaborators Cases.without_override_manifest) Sample.package
            (Sample.start "/" Sample.files) _ _ "/tmp/gendata-p-0" ""
            Cases.without_override_manifest).
  - vm_compute. reflexivity.
  - vm_compute. reflexivity.
  - reflexivity.
  - vm_compute. reflexivity.
  - vm_compute. apply NoDup_singleton.
Defined.

(* ===================================================================== *)
(** ** The paths of a manifest are distinct *)
(* ===================================================================== *)

Lemma walk_group_well_formed
      (handler : GeneratedKind -> string -> yaml -> pydict -> M unit)
      (post : option (pydict -> string -> pydict -> M unit))
      (m : yaml) (path : string) (cfg : pydict) (s s' : state) :
  _walk_group handler post m path cfg s = (Ok tt, s') -> well_formed m.
Proof.
  revert path cfg s s'.
  induction m as [ |b|n|str|l IHl|items IH] using yaml_nested_ind;
    intros path cfg s s' H; try discriminate.
  cbn [_walk_group] in H.
  apply bind_ok_inv in H as ([] & s1 & Hc & H).
  apply bind_ok_inv in H as (config & s2 & Hm & H).
  apply bind_ok_inv in H as ([] & s3 & Hi & _).
  cbn [well_formed]. split.
  - eapply validate_config_ok, Hc.
  - eapply walk_items_sound; [exact IH | exact Hi].
Qed.

Lemma str_app_inv_head (a b c : string) : a ++ b = a ++ c -> b = c.
Proof.
  induction a as [|x a IH]; [trivial|].
  rewrite !str_app_cons. intros [= H]. now apply IH.
Qed.

Lemma str_app_not_empty (a b : string) : a <> "" -> a ++ b <> "".
Proof. destruct a; [congruence|]. rewrite str_app_cons. discriminate. Qed.

Lemma key_segment_unique (k1 : string) :
  forall k2 r1 r2,
    Py.contains OsPath.slash k1 = false -> Py.contains OsPath.slash k2 = false ->
    after_key r1 -> after_key r2 ->
    k1 ++ r1 = k2 ++ r2 -> k1 = k2.
Proof.
  induction k1 as [|a k1 IH]; intros k2 r1 r2 H1 H2 Hr1 Hr2 E.
  - destruct k2 as [|b k2]; [reflexivity|]. exfalso.
    change ("" ++ r1) with r1 in E. rewrite str_app_cons in E.
    cbn [Py.contains] in H2. apply orb_false_elim in H2 as [Hb _].
    destruct Hr1 as [->|[r' ->]]; [discriminate|].
    injection E as <- _. unfold OsPath.slash in Hb. now rewrite Ascii.eqb_refl in Hb.
  - cbn [Py.contains] in H1. apply orb_false_elim in H1 as [Ha H1].
    rewrite str_app_cons in E. destruct k2 as [|b k2].
    + exfalso. change ("" ++ r2) with r2 in E.
      destruct Hr2 as [->|[r' ->]]; [discriminate|].
      injection E as -> _. unfold OsPath.slash in Ha. now rewrite Ascii.eqb_refl in Ha.
    + rewrite str_app_cons in E. injection E as <- E.
      cbn [Py.contains] in H2. apply orb_false_elim in H2 as [_ H2].
      f_equal. exact (IH k2 r1 r2 H1 H2 Hr1 Hr2 E).
Qed.

Lemma join_key (path key : string) :
  open_path path -> Py.contains OsPath.slash key = false ->
  OsPath.join path key = path ++ "/" ++ key.
Proof.
  intros [Hne Hend] Hkey. unfold OsPath.join.
  rewrite (startswith_slash key Hkey), Hend.
  destruct (String.eqb_spec path "") as [|_]; [contradiction | reflexivity].
Qed.

Lemma open_app_key (path key : string) :
  key <> "" -> Py.contains OsPath.slash key = false ->
  path <> "" -> open_path (path ++ "/" ++ key).
Proof.
  intros Hk Hkey Hne. split; [now apply str_app_not_empty|].
  rewrite endswith_slash, !rev_app_distr.
  destruct (String.rev key) as [|c r] eqn:Hrev.
  { exfalso. apply Hk. rewrite <- (rev_involutive key), Hrev. reflexivity. }
  rewrite !str_app_cons.
  rewrite <- (contains_rev OsPath.slash key), Hrev in Hkey.
  cbn [Py.contains] in Hkey. now apply orb_false_elim in Hkey as [Hc _].
Qed.

Lemma data_path_open (problemdir : string) :
  open_path (data_path (Problem_init problemdir)).
Proof.
  cbn [data_path Problem_init]. unfold OsPath.join.
  rewrite (startswith_slash "data") by reflexivity.
  assert (Hd : forall x, open_path (x ++ "data")).
  { intros x. split.
    - destruct x; [discriminate|]. rewrite str_app_cons. discriminate.
    - rewrite endswith_slash, rev_app_distr.
      change (String.rev "data") with "atad". rewrite str_app_cons. reflexivity. }
  destruct (_ || _); [apply Hd|].
  rewrite <- str_app_assoc. apply Hd.
Qed.

Lemma leaf_paths_cons (kv : string * yaml) (l : pydict) (path : string) :
  leaf_paths (YDict (kv :: l)) path
  = ((let p := OsPath.join path (fst kv) in
      if String.eqb (fst kv) "config" then []
      else if String.eqb (fst kv) "testdata.yaml" then [p]
      else match snd kv with
           | YDict _ => leaf_paths (snd kv) p
           | _ => [p]
           end) ++ leaf_paths (YDict l) path)%list.
Proof. reflexivity. Qed.

Lemma entries_are_distinct (l : pydict) :
  Forall (fun kv =>
            forall d path, snd kv = YDict d -> open_path path ->
                           well_formed (snd kv) -> keys_distinct (snd kv) ->
                           entries_distinct path d) l ->
  forall path,
    open_path path -> entries_ok well_formed l -> dict_wf l ->
    values_ok keys_distinct l ->
    entries_distinct path l.
Proof.
  induction 1 as [|[key value] l Hv _ IH]; intros path Hopen Hok Hwf Hvals.
  - split; [apply NoDup_nil_2|]. intros y Hy. now apply elem_of_nil in Hy.
  - unfold entries_distinct in IH. cbn [entries_ok] in Hok. destruct Hok as [Hkey Hok].
    unfold dict_wf in Hwf. cbn [List.map fst] in Hwf.
    apply NoDup_cons in Hwf as [Hnotin Hwf].
    cbn [values_ok] in Hvals. destruct Hvals as [Hval Hvals].
    destruct (IH path Hopen Hok Hwf Hvals) as [Hnd Hform].
    unfold entries_distinct. rewrite leaf_paths_cons. cbn [fst snd]. cbv zeta.
    destruct (String.eqb_spec key "config") as [->|Hnc].
    { split; [exact Hnd|]. intros y Hy.
      destruct (Hform y Hy) as (k & r & E & Hr & Hk & Hin).
      exists k, r. repeat split; try assumption. cbn [List.map fst]. now right. }
    destruct Hkey as [Hc|(Hne & Hre & Hvalue)]; [contradiction|].
    pose proof (key_regex_no_slash key Hre) as Hslash.
    rewrite (join_key path key Hopen Hslash).
    set (here := if String.eqb key "testdata.yaml" then [path ++ "/" ++ key]
                 else match value with
                      | YDict _ => leaf_paths value (path ++ "/" ++ key)
                      | _ => [path ++ "/" ++ key]
                      end).
    assert (Hhere : NoDup here
                    /\ forall y, y ∈ here ->
                                 exists r, y = path ++ "/" ++ key ++ r /\ after_key r).
    { assert (Hleaf : NoDup [path ++ "/" ++ key]
                      /\ forall y, y ∈ [path ++ "/" ++ key] ->
                                   exists r, y = path ++ "/" ++ key ++ r /\ after_key r).
      { split; [apply NoDup_singleton|]. intros y Hy.
        apply list_elem_of_singleton in Hy as ->. exists "".
        split; [now rewrite str_app_nil_r | now left]. }
      subst here. destruct (String.eqb key "testdata.yaml"); [exact Hleaf|].
      destruct value as [ | | | | |d]; try exact Hleaf.
      cbn [snd] in Hv.
      destruct (Hv d (path ++ "/" ++ key) eq_refl) as [Hnd' Hform'];
        [apply open_app_key; [exact Hne | exact Hslash | apply Hopen]
        | exact Hvalue | exact Hval |].
      split; [exact Hnd'|]. intros y Hy.
      destruct (Hform' y Hy) as (k & r & E & Hr & Hk & _).
      exists ("/" ++ k ++ r). split.
      - rewrite E. now rewrite !str_app_assoc.
      - right. exists (k ++ r). now rewrite str_app_cons. }
    destruct Hhere as [Hnd1 Hform1]. split.
    + apply NoDup_app. split; [exact Hnd1|]. split; [|exact Hnd].
      intros y Hy1 Hy2.
      destruct (Hform1 y Hy1) as (r1 & E1 & Hr1).
      destruct (Hform y Hy2) as (k2 & r2 & E2 & Hr2 & Hk2 & Hin2).
      rewrite E1 in E2. apply str_app_inv_head, str_app_inv_head in E2.
      apply Hnotin.
      now rewrite (key_segment_unique key k2 r1 r2 Hslash Hk2 Hr1 Hr2 E2).
    + intros y Hy. apply elem_of_app in Hy as [Hy|Hy].
      * destruct (Hform1 y Hy) as (r1 & E1 & Hr1). exists key, r1.
        repeat split; try assumption. cbn [List.map fst]. left.
      * destruct (Hform y Hy) as (k & r & E & Hr & Hk & Hin).
        exists k, r. repeat split; try assumption. cbn [List.map fst]. now right.
Qed.

Lemma manifest_entries_distinct (m : yaml) :
  forall d path, m = YDict d -> open_path path -> well_formed m -> keys_distinct m ->
                 entries_distinct path d.
Proof.
  induction m as [ |b|n|str|l IHl|items IH] using yaml_nested_ind;
    intros d path E Hopen Hwf Hkeys; try discriminate.
  injection E as <-. cbn [well_formed] in Hwf. cbn [keys_distinct] in Hkeys.
  destruct Hwf as [_ Hok]. destruct Hkeys as [Hd Hvals].
  now apply entries_are_distinct.
Qed.

(** C5 (amended): two entries of a loaded manifest never resolve to the
    same path.  For a manifest whose dictionaries have distinct keys, as
    every value that [yaml.load] returns, and that the pre-pass accepts,
    the paths of its entries are pairwise distinct, so [__enter__] records
    each of them once and returns, without a duplicate-path error; this
    pass over the whole tree is made before any generation: no generator
    has been compiled or run, and nothing but the temporary directory of
    the run differs in the file system. *)
Theorem manifest_paths_are_distinct (C : Collaborators) (problemdir : string)
        (s s1 sV : state) (tmp bytes : string) (m : yaml) :
  let pb := Problem_init problemdir in
  keys_distinct m ->
  Fs.mkdtemp Fs.gettempdir ("gendata-" ++ shortname pb ++ "-") s = (Ok tmp, s1) ->
  Fs.stat s (manifestfile pb) = Some (File bytes) ->
  yaml_load C bytes = Some m ->
  _walk no_handler None {| problem := pb; tmpdir := tmp; manifest := m |} s1
  = (Ok tt, sV) ->
  NoDup (leaf_paths m (data_path pb))
  /\ exists s',
       GeneratorManifest_enter C pb s
       = (Ok {| problem := pb; tmpdir := tmp; manifest := m |}, s')
       /\ paths s' = list_to_set (leaf_paths m (data_path pb))
       /\ calls s' = calls s
       /\ generator_cache s' = []
       /\ forall k, k <> Fs.resolve s tmp -> fs s' !! k = fs s !! k.
Proof.
  intros pb Hkeys Hmk Hstat Hload HV.
  destruct m as [ | | | | |items]; try discriminate.
  assert (Hnd : NoDup (leaf_paths (YDict items) (data_path pb))).
  { unfold _walk in HV. cbn [manifest problem] in HV.
    apply walk_group_well_formed in HV.
    now destruct (manifest_entries_distinct (YDict items) items (data_path pb)
                    eq_refl (data_path_open problemdir) HV Hkeys). }
  split; [exact Hnd|].
  rewrite (enter_unfold C pb s s1 tmp bytes items Hmk Hstat Hload).
  unfold _walk in *. cbn [manifest problem] in *.
  pose proof (walk_group_outcome (YDict items) _ _ _ _ (enter_state s tmp) HV)
    as [Hw Hout].
  assert (Hfd : first_dup (paths (enter_state s tmp))
                          (leaf_paths (YDict items) (data_path pb)) = None).
  { apply first_dup_None. split; [exact Hnd|]. intros p _. cbn. set_solver. }
  rewrite Hfd in Hout.
  destruct (_walk_group enter_handler None (YDict items) (data_path pb)
                        _DEFAULT_CONFIG (enter_state s tmp)) as [r s'] eqn:HW.
  cbn [fst snd] in *. destruct Hout as [-> Hp].
  exists s'. split; [now rewrite (bind_ok _ _ _ _ _ HW)|].
  destruct Hw as (Hfs & _ & _ & Hcache & Hcalls).
  split; [rewrite Hp; cbn; set_solver|]. split; [exact Hcalls|].
  split; [exact Hcache|].
  intros k Hk. rewrite Hfs. cbn. now apply lookup_insert_ne.
Qed.

Lemma manifest_paths_are_distinct_witness :
  let m := YDict [("sample", YDict [("1.in", YStr "gen 1"); ("2.in", YNull)]);
                  ("1.in", YStr "gen 1")] in
  let s := Sample.start "/" Sample.files in
  NoDup (leaf_paths m (data_path (Problem_init "/p")))
  /\ exists s',
       GeneratorManifest_enter (Sample.collaborators m) (Problem_init "/p") s
       = (Ok {| problem := Problem_init "/p"; tmpdir := "/tmp/gendata-p-0";
                manifest := m |}, s')
       /\ paths s' = list_to_set (leaf_paths m (data_path (Problem_init "/p")))
       /\ calls s' = calls s
       /\ generator_cache s' = []
       /\ forall k, k <> Fs.resolve s "/tmp/gendata-p-0" -> fs s' !! k = fs s !! k.
Proof.
  intros m s.
  eapply (manifest_paths_are_distinct (Sample.collaborators m) "/p" s _ _
            "/tmp/gendata-p-0" "" m).
  - cbn [keys_distinct values_ok]. unfold dict_wf.
    repeat split; apply (bool_decide_unpack _); vm_compute; exact I.
  - vm_compute. reflexivity.
  - vm_compute. reflexivity.
  - reflexivity.
  - vm_compute. reflexivity.
Defined.

(** C5, as stated: a document that writes the key [1.in] twice has two
    entries for the path [/p/data/1.in]; it is loaded as a dictionary
    with one entry for that key, and [__enter__] returns the manifest:
    loading does not fail. *)
Lemma duplicate_key_is_loaded_once :
  let document := [("1.in", YStr "gen 1"); ("1.in", YStr "gen 2")] in
  let m := YDict (construct_mapping document) in
  List.map (fun kv => OsPath.join (data_path Sample.package) (fst kv)) document
  = ["/p/data/1.in"; "/p/data/1.in"]
  /\ construct_mapping document = [("1.in", YStr "gen 2")]
  /\ fst (GeneratorManifest_enter (Sample.collaborators m) Sample.package
                                  (Sample.start "/" Sample.files))
     = Ok (Sample.self m).
Proof. cbn zeta. repeat split; vm_compute; reflexivity. Qed.

(* ===================================================================== *)
(** ** The order in which extensions are generated *)
(* ===================================================================== *)

Lemma partition_extensions_app (l1 l2 : pydict) :
  forall (old new : list string) (gen : option yaml),
    partition_extensions (l1 ++ l2) old new gen
    = let '(old1, new1, gen1) := partition_extensions l1 old new gen in
      partition_extensions l2 old1 new1 gen1.
Proof.
  induction l1 as [|[ext g] l1 IH]; intros old new gen; cbn [app partition_extensions].
  - reflexivity.
  - destruct (is_generated g); [|destruct (String.eqb ext "ans")]; apply IH.
Qed.

(** the extensions of [items] that are to be generated, [ans] apart *)
Lemma partition_extensions_without_ans (items : pydict) :
  forall (old new : list string) (gen : option yaml),
    "ans" ∉ List.map fst items ->
    snd (fst (partition_extensions items old new gen))
    = (new ++ List.map fst
                (List.filter (fun kv => negb (is_generated (snd kv))
                                        && negb (String.eqb (fst kv) "ans")) items))%list.
Proof.
  induction items as [|[ext g] items IH]; intros old new gen Hans;
    cbn [partition_extensions List.filter List.map fst snd].
  - cbn. now rewrite app_nil_r.
  - cbn [List.map fst] in Hans. apply not_elem_of_cons in Hans as [Hne Hans].
    destruct (String.eqb_spec ext "ans") as [->|_]; [congruence|].
    destruct (is_generated g); cbn [negb andb List.map fst].
    + now apply IH.
    + rewrite IH by exact Hans. now rewrite <- app_assoc.
Qed.

Lemma partition_extensions_ans_first (exts : pydict) (g : yaml) :
  dict_wf exts -> In ("ans", g) exts -> is_generated g = false ->
  new_extensions_of exts
  = "ans" :: List.map fst
               (List.filter (fun kv => negb (is_generated (snd kv))
                                       && negb (String.eqb (fst kv) "ans")) exts).
Proof.
  intros Hwf Hin Hg. apply List.in_split in Hin as (l1 & l2 & ->).
  unfold dict_wf in Hwf. rewrite List.map_app in Hwf. cbn [List.map fst] in Hwf.
  apply NoDup_app in Hwf as (_ & Hl1 & Hwf). apply NoDup_cons in Hwf as [Hl2 _].
  assert (Hl1' : "ans" ∉ List.map fst l1).
  { intros H. apply (Hl1 _ H). left. }
  unfold new_extensions_of. rewrite partition_extensions_app.
  pose proof (partition_extensions_without_ans l1 ["in"] [] None Hl1') as H1.
  destruct (partition_extensions l1 ["in"] [] None) as [[old1 new1] gen1].
  cbn [fst snd] in H1. subst new1. cbn [partition_extensions].
  rewrite Hg. cbn [String.eqb Ascii.eqb Bool.eqb].
  rewrite (partition_extensions_without_ans l2 _ _ _ Hl2).
  rewrite List.filter_app. cbn [List.filter snd fst]. rewrite Hg.
  cbn [negb andb String.eqb Ascii.eqb Bool.eqb]. now rewrite List.map_app.
Qed.

Lemma partition_extensions_chain (items : pydict) :
  forall (old new : list string) (g : yaml),
  exists gen, snd (partition_extensions items old new (Some g)) = Some gen.
Proof.
  induction items as [|[ext g0] items IH]; intros old new g;
    cbn [partition_extensions]; [eauto|].
  destruct (is_generated g0); [|destruct (String.eqb ext "ans")]; apply IH.
Qed.

Lemma bind_assoc {A B D} (m : M A) (k : A -> M B) (h : B -> M D) (s : state) :
  bind (bind m k) h s = bind m (fun a => bind (k a) h) s.
Proof. unfold bind. destruct (m s) as [[a|e] s1]; reflexivity. Qed.

Lemma bind_ext {A B} (m : M A) (k1 k2 : A -> M B) (s : state) :
  (forall a s1, k1 a s1 = k2 a s1) -> bind m k1 s = bind m k2 s.
Proof. intros H. unfold bind. destruct (m s) as [[a|e] s1]; [apply H | reflexivity]. Qed.

Lemma try_finally_ext {A} (body1 body2 : M A) (cleanup : M unit) (s : state) :
  (forall s1, body1 s1 = body2 s1) ->
  try_finally body1 cleanup s = try_finally body2 cleanup s.
Proof. intros H. unfold try_finally. now rewrite H. Qed.

(** C6: whatever the place of [ans] among the configured extensions,
    when [ans] is to be generated [_generate_extensions] is the sequence
    of these steps: the staging directory is made and the files that are
    there are copied, which runs no generator; then the file of [ans] is
    generated, and this is complete before the first of the other
    extensions that are to be generated is begun; these follow in the
    order of the config; then all files are moved to the data
    directory. *)
Theorem ans_is_generated_first (C : Collaborators) (self : GeneratorManifest)
        (path : string) (config exts : pydict) (g : yaml) (s : state) :
  Py.endswith path ".in" = true ->
  config_extensions config = Ok exts ->
  dict_wf exts ->
  In ("ans", g) exts -> is_generated g = false ->
  let old := "in" :: List.map fst (List.filter (fun kv => is_generated (snd kv)) exts) in
  let others :=
    List.map fst (List.filter (fun kv => negb (is_generated (snd kv))
                                         && negb (String.eqb (fst kv) "ans")) exts) in
  exists gen,
    chain_run_for_extensions exts = Some gen
    /\ (forall tmp_dir,
          silent (Fs.mkdir (OsPath.join tmp_dir "gen") ;;;
                  copy_old_extensions path tmp_dir old))
    /\ _generate_extensions C self path config None s
       = (tmp_dir <- Fs.mkdtemp (tmpdir self) (OsPath.basename path ++ "-ext-") ;;
          try_finally
            (Fs.mkdir (OsPath.join tmp_dir "gen") ;;;
             copy_old_extensions path tmp_dir old ;;;
             generate_extension C self path tmp_dir gen "ans" ;;;
             for_each others (generate_extension C self path tmp_dir gen) ;;;
             install_extensions path tmp_dir (old ++ "ans" :: others))
            (Fs.rmtree tmp_dir)) s.
Proof.
  intros Hend Hexts Hwf Hin Hg old others.
  pose proof (partition_extensions_ans_first exts g Hwf Hin Hg) as Hnew.
  destruct (partition_extensions_spec exts ["in"] [] None) as [Hold _].
  assert (Hgen : exists gen, chain_run_for_extensions exts = Some gen).
  { unfold chain_run_for_extensions. destruct exts as [|[ext g0] exts]; [destruct Hin|].
    cbn [partition_extensions].
    destruct (is_generated g0); [|destruct (String.eqb ext "ans")];
      apply partition_extensions_chain. }
  destruct Hgen as [gen Hgen]. exists gen. split; [exact Hgen|]. split.
  { intros tmp_dir. unfold copy_old_extensions. repeat silent_step. }
  unfold new_extensions_of, chain_run_for_extensions in *.
  unfold _generate_extensions. rewrite Hend, Hexts. cbn [negb].
  change (bind (lift (Ok exts)) ?k s) with (k exts s). cbv beta.
  destruct (partition_extensions exts ["in"] [] None) as [[old' new'] gen'].
  cbn [fst snd] in Hnew, Hold, Hgen. subst old' new' gen'.
  destruct (bool_decide (is_Some (@None string))) eqn:E.
  { apply bool_decide_eq_true_1 in E. destruct E as [x Hx]. discriminate. }
  cbn [negb andb]. symmetry.
  apply bind_ext. intros tmp_dir s0.
  apply try_finally_ext. intros s1.
  apply bind_ext. intros _ s2. apply bind_ext. intros _ s3.
  cbn [for_each]. rewrite bind_assoc. reflexivity.
Qed.

Lemma ans_is_generated_first_witness :
  let C := Sample.collaborators YNull in
  let self := Sample.self YNull in
  let s := Sample.start "/" (<["/p/data/x.in" := File "by hand"]> Cases.entered) in
  exists gen,
    chain_run_for_extensions [("png", YStr "viz"); ("ans", YStr "mk $PATH")] = Some gen
    /\ (forall tmp_dir,
          silent (Fs.mkdir (OsPath.join tmp_dir "gen") ;;;
                  copy_old_extensions "/p/data/x.in" tmp_dir ["in"]))
    /\ _generate_extensions C self "/p/data/x.in" Cases.png_then_ans None s
       = (tmp_dir <- Fs.mkdtemp (tmpdir self) (OsPath.basename "/p/data/x.in" ++ "-ext-") ;;
          try_finally
            (Fs.mkdir (OsPath.join tmp_dir "gen") ;;;
             copy_old_extensions "/p/data/x.in" tmp_dir ["in"] ;;;
             generate_extension C self "/p/data/x.in" tmp_dir gen "ans" ;;;
             for_each ["png"] (generate_extension C self "/p/data/x.in" tmp_dir gen) ;;;
             install_extensions "/p/data/x.in" tmp_dir ["in"; "ans"; "png"])
            (Fs.rmtree tmp_dir)) s.
Proof.
  intros C self s.
  apply (ans_is_generated_first C self "/p/data/x.in" Cases.png_then_ans
           [("png", YStr "viz"); ("ans", YStr "mk $PATH")] (YStr "mk $PATH") s).
  - reflexivity.
  - reflexivity.
  - unfold dict_wf. cbn [List.map fst]. apply NoDup_cons. split.
    + intros H. apply list_elem_of_singleton in H. discriminate.
    + apply NoDup_singleton.
  - right. left. reflexivity.
  - reflexivity.
Defined.
